(** * reposcore: the scoring core of [RepoAnalyzer] (src/reposcore/analyzer.py)

    A shallow embedding of [collect_PRs_and_issues] and [calculate_scores].

    - Python [int] is [Z]; the six activity counts of a participant live in
      a [gmap string Z] (only [.get], [in] and [+= 1] are used on it, so
      its order is irrelevant).
    - [self.participants] and [scores] are insertion-ordered dicts whose
      order is observable ([sorted] is stable): association lists with the
      dict operations written out.
    - Python [float] is IEEE-754 binary64, taken from the Standard
      Library's executable specification [SpecFloat].
    - Exceptions are an error monad. *)

From Stdlib Require Import ZArith List String Ascii Bool Lia QArith Qabs Lqa.
From Stdlib Require Import Permutation Sorted.
From Stdlib Require Import Floats.SpecFloat.
From stdpp Require Import base option gmap strings.

Open Scope string_scope.
Open Scope list_scope.
Open Scope Z_scope.

(** ** Exceptions *)

Inductive exn := KeyError | ZeroDivisionError | OverflowError.

Inductive result (A : Type) :=
| Ok (a : A)
| Raise (e : exn).
Arguments Ok {A} a.
Arguments Raise {A} e.

#[global] Instance result_ret : MRet result := fun A a => Ok a.
#[global] Instance result_bind : MBind result := fun A B f m =>
  match m with
  | Ok a => f a
  | Raise e => Raise e
  end.

(** [for x in xs: acc = body(acc, x)], stopping at the first exception. *)
Fixpoint for_each {A S : Type} (body : S -> A -> result S) (xs : list A) (acc : S)
  : result S :=
  match xs with
  | [] => Ok acc
  | x :: xs' => acc' ← body acc x; for_each body xs' acc'
  end.

(** ** Strings *)

(** [str.lower] on the ASCII letters.  Python lowers by Unicode code
    point; the only non-ASCII character whose lower case is an ASCII
    letter is U+212A (Kelvin sign, to [k]), and no label name tested below
    contains a [k], so on the byte strings of this model the comparison
    with those names is the same. *)
Definition lower_ascii (c : ascii) : ascii :=
  let n := nat_of_ascii c in
  if ((65 <=? n)%nat && (n <=? 90)%nat)%bool then ascii_of_nat (n + 32) else c.

Fixpoint lower (s : string) : string :=
  match s with
  | EmptyString => EmptyString
  | String c s' => String (lower_ascii c) (lower s')
  end.

(** [needle in haystack] for strings. *)
Fixpoint str_contains (needle haystack : string) : bool :=
  if String.prefix needle haystack then true
  else match haystack with
       | EmptyString => false
       | String _ rest => str_contains needle rest
       end.

(** Truthiness of an optional string: [None] and [''] are falsy. *)
Definition truthy (s : option string) : bool :=
  match s with
  | Some (String _ _) => true
  | _ => false
  end.

(** ** Insertion-ordered dicts *)

Section PyDict.
Context {V : Type}.

Definition pydict := list (string * V).

Fixpoint dict_get (d : pydict) (k : string) : option V :=
  match d with
  | [] => None
  | (k', v) :: d' => if String.eqb k' k then Some v else dict_get d' k
  end.

(** [k in d] *)
Definition dict_mem (d : pydict) (k : string) : bool :=
  match dict_get d k with Some _ => true | None => false end.

(** [d[k]] *)
Definition dict_getitem (d : pydict) (k : string) : result V :=
  match dict_get d k with
  | Some v => Ok v
  | None => Raise KeyError
  end.

(** [d[k] = v]: an existing key keeps its position, a new key goes last. *)
Fixpoint dict_set (d : pydict) (k : string) (v : V) : pydict :=
  match d with
  | [] => [(k, v)]
  | (k', v') :: d' =>
      if String.eqb k' k then (k, v) :: d' else (k', v') :: dict_set d' k v
  end.

Definition dict_keys (d : pydict) : list string := map fst d.

(** [dict(items)] *)
Definition dict_of_items (items : list (string * V)) : pydict :=
  fold_left (fun d kv => dict_set d (fst kv) (snd kv)) items [].

(** What every Python dict satisfies: no key twice. *)
Definition dict_wf (d : pydict) : Prop := NoDup (dict_keys d).
End PyDict.
Arguments pydict V : clear implicits.

(** ** binary64 *)

Module Binary64.
Definition prec : Z := 53.
Definition emax : Z := 1024.

Definition is_finite (x : spec_float) : bool :=
  match x with
  | S754_zero _ | S754_finite _ _ _ => true
  | _ => false
  end.

(** The quotient of the magnitudes [|a| / |b|] ([b] not 0), with sign [s],
    rounded once to the nearest binary64, ties to even: the integers
    enter the division of [SpecFloat] as significands with exponent 0. *)
Definition div_mag (s : bool) (a b : Z) : spec_float :=
  match a with
  | Z0 => S754_zero s
  | _ => SFdiv prec emax (S754_finite s (Z.to_pos (Z.abs a)) 0)
                         (S754_finite false (Z.to_pos (Z.abs b)) 0)
  end.

(** The correctly rounded quotient [a / b] of two integers, [b] not 0. *)
Definition div_int (a b : Z) : spec_float :=
  div_mag (xorb (a <? 0) (b <? 0)) a b.

(** [float(n)] for an integer that converts without overflow. *)
Definition of_int (n : Z) : spec_float := binary_normalize prec emax n 0 false.

Definition mul (x y : spec_float) : spec_float := SFmul prec emax x y.

(** [num / den] ([den > 0]) rounded to the nearest integer, ties to even. *)
Definition round_half_even (num den : Z) : Z :=
  let q := num / den in
  let r := num mod den in
  match 2 * r ?= den with
  | Lt => q
  | Gt => q + 1
  | Eq => if Z.even q then q else q + 1
  end.

(** [float.__round__(x, ndigits)] for [0 <= ndigits]: the exact value of
    [x] is rounded to [ndigits] decimals (ties to even) and that decimal
    is converted back to the nearest binary64.  Infinities and NaN round
    to themselves; a float with a non-negative exponent is an integer and
    is its own rounding. *)
Definition round_ndigits (x : spec_float) (ndigits : Z) : spec_float :=
  match x with
  | S754_finite s m e =>
      if 0 <=? e then x
      else
        let scale := 10 ^ ndigits in
        let r := round_half_even (Zpos m * scale) (2 ^ (- e)) in
        div_mag s r scale
  | _ => x
  end.

(** The exact value of a finite float. *)
Definition to_Q (x : spec_float) : Q :=
  match x with
  | S754_finite s m e =>
      let v := if 0 <=? e then inject_Z (Zpos m * 2 ^ e)
               else Qmake (Zpos m) (Z.to_pos (2 ^ (- e))) in
      if s then Qopp v else v
  | _ => 0%Q
  end.

(** The binary64 nearest to the decimal [n / 10], as [repr] prints the
    results of [round(_, 1)]. *)
Definition of_tenths (n : Z) : spec_float := div_int n 10.
End Binary64.


(** ** Python numbers *)

Inductive pynum :=
| PyInt (n : Z)
| PyFloat (x : spec_float).

(** [a / b] on two [int]s: raises on a zero divisor and when the rounded
    quotient is out of the range of a float. *)
Definition truediv (a b : Z) : result spec_float :=
  if b =? 0 then Raise ZeroDivisionError
  else
    let q := Binary64.div_int a b in
    if Binary64.is_finite q then Ok q else Raise OverflowError.

(** [round(v, ndigits)], [0 <= ndigits]: an [int] is returned as it is. *)
Definition py_round (v : pynum) (ndigits : Z) : pynum :=
  match v with
  | PyInt n => PyInt n
  | PyFloat x => PyFloat (Binary64.round_ndigits x ndigits)
  end.

(** ** The analyzer *)

(** The part of [self] the two methods read and write. *)
Record RepoAnalyzer := {
  participants : pydict (gmap string Z);
  _data_collected : bool
}.

(** One value of [scores]; [rate = None] until the key ["rate"] is set. *)
Record score := {
  feat_bug_PR : Z;
  document_PR : Z;
  feat_bug_issue : Z;
  document_issue : Z;
  total : Z;
  rate : option pynum
}.

Definition set_rate (sc : score) (r : pynum) : score :=
  {| feat_bug_PR := feat_bug_PR sc;
     document_PR := document_PR sc;
     feat_bug_issue := feat_bug_issue sc;
     document_issue := document_issue sc;
     total := total sc;
     rate := Some r |}.

(** ** calculate_scores: the body of the first loop *)

Section Formula.
Variable activities : gmap string Z.

(** [activities.get(key, 0)] *)
Definition get (key : string) : Z := default 0 (activities !! key).

Definition p_f := get "p_enhancement".
Definition p_b := get "p_bug".
Definition p_d := get "p_documentation".
Definition p_fb := p_f + p_b.

Definition i_f := get "i_enhancement".
Definition i_b := get "i_bug".
Definition i_d := get "i_documentation".
Definition i_fb := i_f + i_b.

Definition p_valid := p_fb + Z.min p_d (3 * Z.max 1 p_fb).
Definition i_valid := Z.min (i_fb + i_d) (4 * p_valid).

Definition p_fb_at := Z.min p_fb p_valid.
Definition p_d_at := p_valid - p_fb.

Definition i_fb_at := Z.min i_fb i_valid.
Definition i_d_at := i_valid - i_fb_at.

(** The source's [S]. *)
Definition S_total := 3 * p_fb_at + 2 * p_d_at + 2 * i_fb_at + 1 * i_d_at.

Definition score_entry : score :=
  {| feat_bug_PR := 3 * p_fb_at;
     document_PR := 2 * p_d_at;
     feat_bug_issue := 2 * i_fb_at;
     document_issue := 1 * i_d_at;
     total := S_total;
     rate := None |}.
End Formula.

(** The first loop: [scores] and [total_score_sum] after it. *)
Definition score_loop (ps : pydict (gmap string Z)) : pydict score * Z :=
  fold_left
    (fun '(scores, total_score_sum) '(participant, activities) =>
       (dict_set scores participant (score_entry activities),
        total_score_sum + S_total activities))
    ps ([], 0).

(** ** calculate_scores: the rates *)

(** [round((total / total_score_sum) * 100 if total_score_sum > 0 else 0, 1)] *)
Definition rate_of (total total_score_sum : Z) : result pynum :=
  rate ← (if 0 <? total_score_sum
          then q ← truediv total total_score_sum;
               Ok (PyFloat (Binary64.mul q (Binary64.of_int 100)))
          else Ok (PyInt 0));
  Ok (py_round rate 1).

(** The second loop, over the keys of [scores]. *)
Definition rate_loop (scores : pydict score) (total_score_sum : Z)
  : result (pydict score) :=
  for_each
    (fun scores participant =>
       sc ← dict_getitem scores participant;
       r ← rate_of (total sc) total_score_sum;
       Ok (dict_set scores participant (set_rate sc r)))
    (dict_keys scores) scores.

(** ** calculate_scores: the final sort *)

(** [sorted(items, key=..., reverse=True)].  CPython reverses the list,
    sorts it stably into ascending key order and reverses the result.
    The result of a stable sort does not depend on the algorithm, so the
    ascending sort is given by insertion: an item goes behind the items
    with a smaller key and in front of those with a key at least its own,
    which come later in the list. *)
Section Sorted.
Context {A : Type}.
Variable key : A -> Z.

Fixpoint insert_asc (x : A) (l : list A) : list A :=
  match l with
  | [] => [x]
  | y :: l' => if key y <? key x then y :: insert_asc x l' else x :: y :: l'
  end.

Definition stable_sort (l : list A) : list A := fold_right insert_asc [] l.

Definition sorted_reverse (l : list A) : list A := rev (stable_sort (rev l)).
End Sorted.

Definition calculate_scores (self : RepoAnalyzer) : result (pydict score) :=
  let '(scores, total_score_sum) := score_loop (participants self) in
  scores' ← rate_loop scores total_score_sum;
  Ok (dict_of_items (sorted_reverse (fun x => total (snd x)) scores')).


(** ** collect_PRs_and_issues *)

(** The JSON objects of the issues endpoint, as far as the code looks at
    them.  An optional field is [None] when the key is missing; for
    [name], [merged_at] and [state_reason], which the code only tests for
    truth or compares with [None], [None] is JSON [null] as well. *)
Record label_obj := { name : option string }.
Record user_obj := { login : option string }.
Record pull_request_obj := { merged_at : option string }.
Record item := {
  user : option user_obj;
  labels : list label_obj;
  state_reason : option string;
  pull_request : option pull_request_obj
}.

(** What [retry_request] hands back: the status, the decoded body and
    [response.headers.get('link', '')]. *)
Record response := {
  status_code : Z;
  json : list item;
  link : string
}.

Definition zero_counts : gmap string Z :=
  <["p_enhancement" := 0]> (<["p_bug" := 0]> (<["p_documentation" := 0]>
  (<["i_enhancement" := 0]> (<["i_bug" := 0]> (<["i_documentation" := 0]> ∅))))).

(** [item.get('user', {}).get('login', 'Unknown')] *)
Definition author_of (it : item) : string :=
  match user it with
  | Some u => default "Unknown" (login u)
  | None => "Unknown"
  end.

(** [[label.get('name', '').lower() for label in labels if label.get('name')]] *)
Definition label_names (it : item) : list string :=
  map (fun l => lower (default "" (name l)))
      (List.filter (fun l => truthy (name l)) (labels it)).

(** [if key in d: d[key] += 1] *)
Definition bump (key : string) (activities : gmap string Z) : gmap string Z :=
  match activities !! key with
  | Some n => <[key := n + 1]> activities
  | None => activities
  end.

(** [for label in label_names: key = f'<prefix>{label}'; ...] *)
Definition count_labels (prefix : string) (names : list string)
    (activities : gmap string Z) : gmap string Z :=
  fold_left (fun acts label => bump (prefix +:+ label) acts) names activities.

(** [state_reason in ('completed', 'reopened', None)] *)
Definition state_counts (sr : option string) : bool :=
  match sr with
  | None => true
  | Some r => String.eqb r "completed" || String.eqb r "reopened"
  end.

(** The in-place update of [self.participants[author]]; [author] is a key
    whenever the loop body gets there. *)
Definition update_entry (ps : pydict (gmap string Z)) (author : string)
    (f : gmap string Z -> gmap string Z) : pydict (gmap string Z) :=
  match dict_get ps author with
  | Some activities => dict_set ps author (f activities)
  | None => ps
  end.

(** The body of [for item in items]. *)
Definition process_item (ps : pydict (gmap string Z)) (it : item)
  : pydict (gmap string Z) :=
  let author := author_of it in
  let ps := if dict_mem ps author then ps else dict_set ps author zero_counts in
  match pull_request it with
  | Some pr =>
      if truthy (merged_at pr)
      then update_entry ps author (count_labels "p_" (label_names it))
      else ps
  | None =>
      if state_counts (state_reason it)
      then update_entry ps author (count_labels "i_" (label_names it))
      else ps
  end.

Definition rel_next : string :=
  let q := String (ascii_of_nat 34) EmptyString in
  "rel=" +:+ q +:+ "next" +:+ q.

Definition set_data_collected (self : RepoAnalyzer) (b : bool) : RepoAnalyzer :=
  {| participants := participants self; _data_collected := b |}.

Definition set_participants (self : RepoAnalyzer) (ps : pydict (gmap string Z))
  : RepoAnalyzer :=
  {| participants := ps; _data_collected := _data_collected self |}.

(** [RepoAnalyzer.__init__] *)
Definition init : RepoAnalyzer := {| participants := []; _data_collected := true |}.

Section Collector.
(** [retry_request] is imported from [utils/retry_request.py]: the
    response it ends up with for the page asked. *)
Variable retry_request : Z -> response.

(** [while True], one request per round; [None] when [fuel] rounds did
    not reach a [return] or [break]. *)
Fixpoint collect_loop (fuel : nat) (page : Z) (self : RepoAnalyzer)
  : option RepoAnalyzer :=
  match fuel with
  | O => None
  | S fuel' =>
      let response := retry_request page in
      if status_code response =? 403 then Some (set_data_collected self false)
      else if negb (status_code response =? 200)
      then Some (set_data_collected self false)
      else
        match json response with
        | [] => Some self
        | items =>
            let self := set_participants self
                          (fold_left process_item items (participants self)) in
            if str_contains rel_next (link response)
            then collect_loop fuel' (page + 1) self
            else Some self
        end
  end.

Definition collect_PRs_and_issues (fuel : nat) (self : RepoAnalyzer)
  : option RepoAnalyzer :=
  collect_loop fuel 1 self.

(** The items the loop has gone through, page after page. *)
Fixpoint fetched (fuel : nat) (page : Z) : list item :=
  match fuel with
  | O => []
  | S fuel' =>
      let response := retry_request page in
      if negb (status_code response =? 200) then []
      else
        json response ++
        (if negb (str_contains rel_next (link response)) then []
         else match json response with
              | [] => []
              | _ => fetched fuel' (page + 1)
              end)
  end.
End Collector.



(** ** Notions used in the statements *)

(** The six keys an entry of [self.participants] is created with. *)
Definition count_keys : list string :=
  ["p_enhancement"; "p_bug"; "p_documentation";
   "i_enhancement"; "i_bug"; "i_documentation"].

(** Every count stored for a participant is non-negative. *)
Definition nonneg_counts (activities : gmap string Z) : Prop :=
  map_Forall (fun _ n => 0 <= n) activities.

Definition all_nonneg (ps : pydict (gmap string Z)) : Prop :=
  Forall (fun x => nonneg_counts (snd x)) ps.

(** [scores] as the first loop leaves it when no key repeats. *)
Definition scored (ps : pydict (gmap string Z)) : pydict score :=
  map (fun x => (fst x, score_entry (snd x))) ps.

(** [total_score_sum] after the first loop. *)
Definition sum_totals (ps : pydict (gmap string Z)) : Z :=
  fold_right (fun x acc => S_total (snd x) + acc) 0 ps.

(** The second loop, entry by entry. *)
Fixpoint rated (scores : pydict score) (total_score_sum : Z)
  : result (pydict score) :=
  match scores with
  | [] => Ok []
  | (participant, sc) :: rest =>
      r ← rate_of (total sc) total_score_sum;
      rest' ← rated rest total_score_sum;
      Ok ((participant, set_rate sc r) :: rest')
  end.

(** The key the final sort compares. *)
Definition by_total (x : string * score) : Z := total (snd x).

(** A rate that is zero: the [int] 0 of the guarded branch or the float
    [0.0] of a zero share. *)
Definition zero_rate (r : option pynum) : Prop :=
  r = Some (PyInt 0) \/ r = Some (PyFloat (S754_zero false)).

(** Descending order of the sort key. *)
Definition desc {A : Type} (key : A -> Z) (x y : A) : Prop := key y <= key x.

(** The items of [l] whose key is [v], in the order of [l]. *)
Definition with_key {A : Type} (key : A -> Z) (v : Z) (l : list A) : list A :=
  List.filter (fun y => key y =? v) l.

(** What [rated] does to each entry. *)
Definition rated_entry (total_score_sum : Z) (x y : string * score) : Prop :=
  fst y = fst x /\
  exists r, rate_of (total (snd x)) total_score_sum = Ok r /\ snd y = set_rate (snd x) r.

(** ** Inputs used in the examples *)

(** An entry with the six counts given. *)
Definition counts (p_enhancement p_bug p_documentation
                   i_enhancement i_bug i_documentation : Z) : gmap string Z :=
  <["p_enhancement" := p_enhancement]> (<["p_bug" := p_bug]>
  (<["p_documentation" := p_documentation]> (<["i_enhancement" := i_enhancement]>
  (<["i_bug" := i_bug]> (<["i_documentation" := i_documentation]> ∅))))).

Definition analyzer_of (ps : pydict (gmap string Z)) : RepoAnalyzer :=
  {| participants := ps; _data_collected := true |}.

(** The scenario of the specification: two feature PRs, ten documentation PRs. *)
Definition docs_heavy : RepoAnalyzer :=
  analyzer_of [("alice", counts 2 0 10 0 0 0)].

(** A participant whose documentation-PR count is negative. *)
Definition negative_docs : gmap string Z := counts 0 0 (-1) 0 0 0.

(** C6 as the specification words it: for all inputs. *)
Definition p_valid_claim_as_stated : Prop :=
  forall activities : gmap string Z,
    p_fb activities <= p_valid activities /\
    0 <= p_d_at activities /\
    0 <= document_PR (score_entry activities).

(** The entry in which every missing count is entered as 0. *)
Definition fill_missing (activities : gmap string Z) : gmap string Z :=
  fold_right (fun key m => <[key := get activities key]> m) activities count_keys.

(** The entry in which every missing or negative count is replaced by 0. *)
Definition normalize (activities : gmap string Z) : gmap string Z :=
  fold_right (fun key m => <[key := Z.max 0 (get activities key)]> m)
    activities count_keys.

(** The analyzer with every entry of [self.participants] rewritten. *)
Definition map_entries (f : gmap string Z -> gmap string Z) (self : RepoAnalyzer)
  : RepoAnalyzer :=
  set_participants self (map (fun x => (fst x, f (snd x))) (participants self)).

(** C2 as the specification words it. *)
Definition normalization_claim_as_stated (self : RepoAnalyzer) : Prop :=
  calculate_scores self = calculate_scores (map_entries normalize self) /\
  exists out, calculate_scores self = Ok out.

(** One participant, one enhancement PR counted as [-1]. *)
Definition negative_count : RepoAnalyzer :=
  analyzer_of [("alice", <["p_enhancement" := -1]> ∅)].

(** The sum of the totals of a returned mapping. *)
Definition totals_sum (out : pydict score) : Z :=
  fold_right (fun x acc => total (snd x) + acc) 0 out.

(** The rate in the words of the specification,
    [round(100 * total / sum_of_all_totals, 1)]: the product is taken on
    the integers and divided once. *)
Definition spec_rate (total sum_of_all_totals : Z) : pynum :=
  py_round (PyFloat (Binary64.div_int (100 * total) sum_of_all_totals)) 1.

(** C3 as the specification words it. *)
Definition rate_claim_as_stated (self : RepoAnalyzer) : Prop :=
  calculate_scores self <> Raise ZeroDivisionError /\
  forall out, calculate_scores self = Ok out ->
  forall participant sc, (participant, sc) ∈ out ->
    (0 < totals_sum out -> rate sc = Some (spec_rate (total sc) (totals_sum out))) /\
    (totals_sum out = 0 -> rate sc = Some (PyInt 0)).

(** Totals 23 and 57: the share of the first is 28.75 percent. *)
Definition share_23_of_80 : RepoAnalyzer :=
  analyzer_of [("alice", counts 7 0 1 0 0 0); ("bob", counts 19 0 0 0 0 0)].

(** The exact value of a rate. *)
Definition rate_value (r : option pynum) : Q :=
  match r with
  | Some (PyInt n) => inject_Z n
  | Some (PyFloat x) => Binary64.to_Q x
  | None => 0%Q
  end.

(** The sum of all rates of a returned mapping, taken exactly. *)
Definition sum_rates (out : pydict score) : Q :=
  fold_right (fun x acc => (rate_value (rate (snd x)) + acc)%Q) 0%Q out.

(** C7 as the specification words it. *)
Definition rates_sum_claim_as_stated (self : RepoAnalyzer) : Prop :=
  forall out, calculate_scores self = Ok out ->
    (0 < totals_sum out -> (Qabs (sum_rates out - 100) <= 1 # 10)%Q) /\
    (totals_sum out = 0 ->
       forall participant sc, (participant, sc) ∈ out -> rate sc = Some (PyInt 0)).

(** Six participants with one enhancement PR each: a sixth of 18 points. *)
Definition six_equal : RepoAnalyzer :=
  analyzer_of [("a", counts 1 0 0 0 0 0); ("b", counts 1 0 0 0 0 0);
               ("c", counts 1 0 0 0 0 0); ("d", counts 1 0 0 0 0 0);
               ("e", counts 1 0 0 0 0 0); ("f", counts 1 0 0 0 0 0)].

(** Two pairs of equal totals, the smaller pair first. *)
Definition two_ties : RepoAnalyzer :=
  analyzer_of [("a", counts 1 0 0 0 0 0); ("b", counts 2 0 0 0 0 0);
               ("c", counts 0 1 0 0 0 0); ("d", counts 1 1 0 0 0 0)].

(** ** The classification rules in the words of the specification *)

(** The three labels that earn credit. *)
Definition scoring_labels : list string := ["enhancement"; "bug"; "documentation"].

(** A pull request that has been merged: [merged_at] holds a timestamp. *)
Definition merged (it : item) : bool :=
  match pull_request it with
  | Some pr => truthy (merged_at pr)
  | None => false
  end.

(** An issue whose [state_reason] is [None] (open), reopened or completed. *)
Definition live_issue (it : item) : bool :=
  match pull_request it with
  | Some _ => false
  | None =>
      match state_reason it with
      | None => true
      | Some r => String.eqb r "reopened" || String.eqb r "completed"
      end
  end.

(** The number of labels of [it] that are [l] up to case. *)
Definition matching (it : item) (l : string) : Z :=
  Z.of_nat (length (List.filter
    (fun lb => match name lb with
               | Some s => String.eqb (lower s) l
               | None => false
               end) (labels it))).

(** What [it] adds to the buckets [p_<l>] and [i_<l>]. *)
Definition p_credit (it : item) (l : string) : Z :=
  if merged it then matching it l else 0.
Definition i_credit (it : item) (l : string) : Z :=
  if live_issue it then matching it l else 0.

(** An item that earns its author anything at all. *)
Definition earns_credit (it : item) : bool :=
  (merged it || live_issue it)
  && existsb (fun l => 0 <? matching it l) scoring_labels.

(** The counting part of [process_item], on the author's entry. *)
Definition credited (it : item) (activities : gmap string Z) : gmap string Z :=
  match pull_request it with
  | Some pr =>
      if truthy (merged_at pr)
      then count_labels "p_" (label_names it) activities
      else activities
  | None =>
      if state_counts (state_reason it)
      then count_labels "i_" (label_names it) activities
      else activities
  end.

(** How often [count_labels] bumps [key]. *)
Definition bumps (prefix : string) (names : list string) (key : string) : Z :=
  Z.of_nat (length (List.filter (fun nm => String.eqb (prefix +:+ nm) key) names)).

(** What holds of [self.participants] while the collector fills it: no
    key twice, every entry with the six keys and counts that are not
    negative. *)
Definition collected (ps : pydict (gmap string Z)) : Prop :=
  dict_wf ps /\
  Forall (fun x => dom (snd x) = dom zero_counts /\ nonneg_counts (snd x)) ps.

(** The first [n] pages from [page] on are full pages with a next link. *)
Fixpoint continues (retry_request : Z -> response) (n : nat) (page : Z) : bool :=
  match n with
  | O => true
  | S n' =>
      let response := retry_request page in
      (status_code response =? 200)
      && match json response with [] => false | _ => true end
      && str_contains rel_next (link response)
      && continues retry_request n' (page + 1)
  end.

(** C5 as the specification words it: once a request fails, the flag is
    down and calculate_scores gives no scores for what was collected. *)
Definition incomplete_claim_as_stated (retry_request : Z -> response) (fuel : nat)
  : Prop :=
  forall n : nat,
    continues retry_request n 1 = true ->
    status_code (retry_request (1 + Z.of_nat n)) <> 200 ->
    (n < fuel)%nat ->
    exists self',
      collect_PRs_and_issues retry_request fuel init = Some self' /\
      _data_collected self' = false /\
      forall out, calculate_scores self' <> Ok out.

(** Items for the examples. *)
Definition pull (who : string) (merged_at : option string) (names : list string) : item :=
  {| user := Some {| login := Some who |};
     labels := map (fun l => {| name := Some l |}) names;
     state_reason := None;
     pull_request := Some {| merged_at := merged_at |} |}.

Definition issue (who : string) (state_reason : option string) (names : list string)
  : item :=
  {| user := Some {| login := Some who |};
     labels := map (fun l => {| name := Some l |}) names;
     state_reason := state_reason;
     pull_request := None |}.

(** A first page with a next link, then the rate limit. *)
Definition rate_limited (page : Z) : response :=
  if page =? 1
  then {| status_code := 200;
          json := [pull "alice" (Some "2024-05-01T10:00:00Z") ["bug"]];
          link := "<https://api.github.com/repositories/1/issues?page=2>; " +:+ rel_next |}
  else {| status_code := 403; json := []; link := "" |}.

(** One page: a merged pull request with two scoring labels in mixed
    case and one other label, and three items that earn nothing. *)
Definition one_page (page : Z) : response :=
  {| status_code := 200;
     json := [pull "alice" (Some "2024-05-01T10:00:00Z") ["Bug"; "good first issue"; "DOCUMENTATION"];
              pull "bob" None ["bug"];
              issue "carol" (Some "not_planned") ["enhancement"];
              issue "dave" (Some "completed") ["question"]];
     link := "" |}.

(** The value of a finite float counted in units of [2 ^ (- K)]; it is
    an integer as soon as the exponent is at least [- K]. *)
Definition scaled (K : Z) (x : spec_float) : Z :=
  match x with
  | S754_finite s m e => (if s then Z.neg m else Z.pos m) * 2 ^ (e + K)
  | _ => 0
  end.

(** [of_tenths r] is finite, not negative and within [2 ^ (-47)] of
    [r / 10]. *)
Definition tenth_is_close (r : Z) : bool :=
  match Binary64.of_tenths r with
  | S754_zero false => r =? 0
  | S754_finite false m e =>
      (-1120 <=? e)
      && (Z.abs (10 * (Z.pos m * 2 ^ (e + 1120)) - r * 2 ^ 1120) <=? 10 * 2 ^ (1120 - 47))
  | _ => false
  end.

(** The exact share of a total in the sum of all totals, in percent. *)
Definition share (total sum_of_all_totals : Z) : Q :=
  (100 * total) # (Z.to_pos sum_of_all_totals).

(** What one rate may be off its share: half a tenth for the rounding to
    one decimal and [10 ^ (-12)] for the roundings in binary. *)
Definition rate_slack : Q := 50000000001 # 1000000000000.

(** ** Notions used in the further properties *)

(** A mapping in which the scorer finds no count below the one of [a]. *)
Definition counts_le (a b : gmap string Z) : Prop :=
  forall key, get a key <= get b key.

(** The score before any cap: three points a feature or bug PR, two a
    documentation PR or a feature or bug issue, one a documentation issue. *)
Definition uncapped (activities : gmap string Z) : Z :=
  3 * p_fb activities + 2 * p_d activities + 2 * i_fb activities + 1 * i_d activities.

(** Totals 30 and 10, the smaller first. *)
Definition three_to_one : RepoAnalyzer :=
  analyzer_of [("b", counts 2 0 2 0 0 0); ("a", counts 10 0 0 0 0 0)].

(** The same two participants entered the other way round. *)
Definition one_to_three : RepoAnalyzer :=
  analyzer_of [("a", counts 10 0 0 0 0 0); ("b", counts 2 0 2 0 0 0)].

(** What the items of [author] among [items] add up to for the label
    [l], [credit] being [p_credit] or [i_credit]. *)
Definition credits (credit : item -> string -> Z) (author l : string)
    (items : list item) : Z :=
  fold_right
    (fun it acc => (if String.eqb (author_of it) author then credit it l else 0) + acc)
    0 items.

(** Each name once, at the place of its first occurrence. *)
Fixpoint first_seen (l : list string) : list string :=
  match l with
  | [] => []
  | x :: l' => x :: List.filter (fun y => negb (String.eqb x y)) (first_seen l')
  end.

(** The items of [n] pages from [page] on. *)
Fixpoint pages (retry_request : Z -> response) (n : nat) (page : Z) : list item :=
  match n with
  | O => []
  | S n' => json (retry_request page) ++ pages retry_request n' (page + 1)
  end.

(** Two pages: bob opens the first, alice has an item on each. *)
Definition two_pages (page : Z) : response :=
  if page =? 1
  then {| status_code := 200;
          json := [issue "bob" None ["bug"];
                   pull "alice" (Some "2024-05-01T10:00:00Z") ["bug"; "enhancement"]];
          link := "<https://api.github.com/repositories/1/issues?page=2>; " +:+ rel_next |}
  else {| status_code := 200;
          json := [pull "alice" (Some "2024-05-02T10:00:00Z") ["Bug"];
                   issue "bob" (Some "not_planned") ["bug"]];
          link := "" |}.

(** ** generate_chart: the bars *)

(** [sorted([(key, value.get('total', 0)) for (key, value) in scores.items()],
            key=lambda item: item[1], reverse=True)].
    Every value of the mapping is a [score] here, and a [score] has
    its total: the default of [.get] is not used. *)
Definition sorted_scores (scores : pydict score) : list (string * Z) :=
  sorted_reverse (fun item => snd item)
    (map (fun '(key, value) => (key, total value)) scores).

(** [participants, scores_sorted = zip( *sorted_scores) if sorted_scores else ([], [])]:
    the names and the lengths handed to [plt.barh], which draws the
    bars from the top in this order ([invert_yaxis]).  The drawing
    itself is matplotlib's and is not modelled. *)
Definition bars (scores : pydict score) : list string * list Z :=
  match sorted_scores scores with
  | [] => ([], [])
  | sorted_scores => (map fst sorted_scores, map snd sorted_scores)
  end.

(** [num_participants = len(participants)] *)
Definition num_participants (scores : pydict score) : Z :=
  Z.of_nat (length (fst (bars scores))).

(** ** generate_text: the rows of the table *)

From stdpp Require pretty.

(** A cell of a row: a string, or an [int] that [PrettyTable] prints
    with [str]. *)
Inductive cell :=
| Str (s : string)
| Int (n : Z).

(** [format(x, '.1f')] of a float: the exact value rounded to one
    decimal, ties to even, with the sign of [x]. *)
Definition fixed_1 (x : spec_float) : string :=
  match x with
  | S754_nan => "nan"
  | S754_infinity s => (if s then "-" else "") +:+ "inf"
  | S754_zero s => (if s then "-" else "") +:+ "0.0"
  | S754_finite s m e =>
      let r := if 0 <=? e then Z.pos m * 2 ^ e * 10
               else Binary64.round_half_even (Z.pos m * 10) (2 ^ (- e)) in
      (if s then "-" else "")
      +:+ pretty.pretty (r / 10) +:+ "." +:+ pretty.pretty (r mod 10)
  end.

(** [f'{v:.1f}']: an [int] is converted to a float first. *)
Definition format_1f (v : pynum) : result string :=
  match v with
  | PyFloat x => Ok (fixed_1 x)
  | PyInt n =>
      let x := Binary64.of_int n in
      if Binary64.is_finite x then Ok (fixed_1 x) else Raise OverflowError
  end.

(** The list handed to [table.add_row]; [score["rate"]] raises when the
    key is not set. *)
Definition table_row (name : string) (sc : score) : result (list cell) :=
  r ← match rate sc with Some r => Ok r | None => Raise KeyError end;
  s ← format_1f r;
  Ok [Str name; Int (feat_bug_PR sc); Int (document_PR sc);
      Int (feat_bug_issue sc); Int (document_issue sc); Int (total sc);
      Str (s +:+ "%")].

(** [for name, score in scores.items(): table.add_row([...])]: the rows
    of the table in the order they are added.  How [PrettyTable] lays
    them out and the file written are not modelled. *)
Definition table_rows (scores : pydict score) : result (list (list cell)) :=
  for_each (fun rows '(name, sc) => row ← table_row name sc; Ok (rows ++ [row]))
    scores [].

(** The cell in which a rate of [r] tenths of a percent is printed. *)
Definition rate_cell (r : Z) : cell :=
  Str (pretty.pretty (r / 10) +:+ "." +:+ pretty.pretty (r mod 10) +:+ "%").

(** [format_1f] prints the decimal [r / 10] as such. *)
Definition prints_tenths (r : Z) : bool :=
  match format_1f (PyFloat (Binary64.of_tenths r)) with
  | Ok s => String.eqb (s +:+ "%")
              (pretty.pretty (r / 10) +:+ "." +:+ pretty.pretty (r mod 10) +:+ "%")
  | Raise _ => false
  end.

(** The decimal [(r + 1) / 10] is not below [r / 10] as a float. *)
Definition tenth_steps_up (r : Z) : bool :=
  Qle_bool (Binary64.to_Q (Binary64.of_tenths r))
           (Binary64.to_Q (Binary64.of_tenths (r + 1))).

(** ** Labels up to the case of their letters *)

(** The letters, small and capital. *)
Definition letters : list (ascii * ascii) :=
  [("a", "A"); ("b", "B"); ("c", "C"); ("d", "D"); ("e", "E"); ("f", "F");
   ("g", "G"); ("h", "H"); ("i", "I"); ("j", "J"); ("k", "K"); ("l", "L");
   ("m", "M"); ("n", "N"); ("o", "O"); ("p", "P"); ("q", "Q"); ("r", "R");
   ("s", "S"); ("t", "T"); ("u", "U"); ("v", "V"); ("w", "W"); ("x", "X");
   ("y", "Y"); ("z", "Z")]%char.

(** The same character, or the small and the capital form of one letter. *)
Definition same_letter (c d : ascii) : bool :=
  Ascii.eqb c d
  || existsb (fun p => (Ascii.eqb c (fst p) && Ascii.eqb d (snd p))
                       || (Ascii.eqb c (snd p) && Ascii.eqb d (fst p))) letters.

(** The same string up to the case of its letters. *)
Fixpoint same_ignoring_case (s l : string) : bool :=
  match s, l with
  | EmptyString, EmptyString => true
  | String c s', String d l' => same_letter c d && same_ignoring_case s' l'
  | _, _ => false
  end.

(** The number of labels of [it] named [l] up to case. *)
Definition labelled (it : item) (l : string) : Z :=
  Z.of_nat (length (List.filter
    (fun lb => match name lb with
               | Some s => same_ignoring_case s l
               | None => false
               end) (labels it))).

(** What [it] earns its author in the buckets [p_<l>] and [i_<l>]: a
    merged pull request one in [p_<l>] for each of its labels named [l]
    up to case, an issue that is open, reopened or completed one in
    [i_<l>], anything else nothing. *)
Definition p_earned (it : item) (l : string) : Z :=
  if merged it then labelled it l else 0.
Definition i_earned (it : item) (l : string) : Z :=
  if live_issue it then labelled it l else 0.

(** An item that qualifies for credit: a merged pull request or a live
    issue with at least one of the three labels. *)
Definition qualifies (it : item) : bool :=
  (merged it || live_issue it)
  && existsb (fun l => 0 <? labelled it l) scoring_labels.

(** The items a collection goes through when [n] full pages are
    followed by a page that ends it: those of the [n] pages, and those
    of the last page if it was answered with status 200. *)
Definition gone_through (retry_request : Z -> response) (n : nat) : list item :=
  let last := retry_request (1 + Z.of_nat n) in
  pages retry_request n 1 ++ (if status_code last =? 200 then json last else []).

(** One page of one author: a merged pull request labelled BUG and
    Enhancement, an issue labelled Documentation twice, an unmerged
    pull request and an issue that is not planned. *)
Definition mixed_case (page : Z) : response :=
  {| status_code := 200;
     json := [pull "alice" (Some "2024-05-01T10:00:00Z") ["BUG"; "Enhancement"; "wontfix"];
              issue "alice" (Some "completed") ["Documentation"; "documentation"];
              pull "alice" None ["bug"];
              issue "alice" (Some "not_planned") ["bug"];
              issue "bob" (Some "not_planned") ["Bug"];
              pull "bob" None ["enhancement"];
              issue "bob" None ["question"]];
     link := "" |}.
(* ================================================================== *)
(** * Properties *)

(** ** binary64: quotients of magnitude at most one do not overflow *)

Section Binary64Facts.
Import Binary64.

Lemma digits2_pos_log2 (p : positive) :
  Zpos (digits2_pos p) = Z.log2 (Zpos p) + 1.
Proof.
  assert (Hsize : forall q, digits2_pos q = Pos.size q).
  { induction q as [q IH | q IH |]; simpl; congruence. }
  rewrite Hsize. destruct p; simpl; lia.
Qed.

Lemma Zdigits2_nonneg (m : Z) : 0 <= Zdigits2 m.
Proof. destruct m; simpl; lia. Qed.

Lemma Zdigits2_le (m k : Z) :
  0 <= m -> 0 <= k -> m < 2 ^ k -> Zdigits2 m <= k.
Proof.
  intros Hm Hk Hlt. destruct m as [| p | p]; simpl; [lia | | lia].
  rewrite digits2_pos_log2.
  destruct (Z.log2_spec (Zpos p)) as [Hlo _]; [lia |].
  assert (Z.log2 (Zpos p) < k); [| lia].
  apply (Z.pow_lt_mono_r_iff 2); lia.
Qed.

Lemma Zdigits2_gt (m : Z) : 0 <= m -> m < 2 ^ Zdigits2 m.
Proof.
  intros Hm. destruct m as [| p | p]; simpl; [lia | | lia].
  rewrite digits2_pos_log2.
  destruct (Z.log2_spec (Zpos p)) as [_ Hhi]; [lia |].
  replace (Z.log2 (Zpos p) + 1) with (Z.succ (Z.log2 (Zpos p))) by lia.
  exact Hhi.
Qed.

Lemma shr_1_m (mrs : shr_record) :
  0 <= shr_m mrs -> shr_m (shr_1 mrs) = shr_m mrs / 2.
Proof.
  destruct mrs as [m r s]; cbn [shr_m]. intros Hm.
  destruct m as [| [p | p |] | p]; cbn -[Z.div]; try lia; try reflexivity.
  - rewrite Pos2Z.inj_xI. apply (Z.div_unique _ _ _ 1); lia.
  - rewrite Pos2Z.inj_xO. apply (Z.div_unique _ _ _ 0); lia.
Qed.

Lemma iter_shr_1_m (p : positive) (mrs : shr_record) :
  0 <= shr_m mrs ->
  shr_m (SpecFloat.iter_pos shr_1 p mrs) = shr_m mrs / 2 ^ Zpos p.
Proof.
  revert mrs.
  induction p as [p IH | p IH |]; intros mrs Hm; simpl SpecFloat.iter_pos.
  - assert (H1 : 0 <= shr_m (shr_1 mrs)).
    { rewrite shr_1_m by lia. apply Z.div_pos; lia. }
    assert (H2 : 0 <= shr_m (SpecFloat.iter_pos shr_1 p (shr_1 mrs))).
    { rewrite IH by lia. apply Z.div_pos; lia. }
    assert (Hp : 2 ^ Zpos p~1 = 2 * (2 ^ Zpos p * 2 ^ Zpos p)).
    { rewrite Pos2Z.inj_xI, <- Z.pow_add_r, <- Z.pow_succ_r by lia.
      f_equal. lia. }
    rewrite IH, IH, shr_1_m by lia.
    rewrite !Z.div_div by lia. rewrite Hp. reflexivity.
  - assert (H2 : 0 <= shr_m (SpecFloat.iter_pos shr_1 p mrs)).
    { rewrite IH by lia. apply Z.div_pos; lia. }
    assert (Hp : 2 ^ Zpos p~0 = 2 ^ Zpos p * 2 ^ Zpos p).
    { rewrite Pos2Z.inj_xO, <- Z.pow_add_r by lia. f_equal. lia. }
    rewrite IH, IH by lia.
    rewrite Z.div_div by lia. rewrite Hp. reflexivity.
  - rewrite shr_1_m by lia. reflexivity.
Qed.

Lemma shr_m_of_loc (m : Z) (l : location) : shr_m (shr_record_of_loc m l) = m.
Proof. destruct l as [| []]; reflexivity. Qed.

(** One [shr_fexp]: the exponent it picks and a bound on what is left
    of the significand. *)
Lemma shr_fexp_bound (m e : Z) (l : location) (k : Z) :
  0 <= m -> Zdigits2 m + e <= k ->
  let mrs := fst (shr_fexp prec emax m e l) in
  let e' := snd (shr_fexp prec emax m e l) in
  0 <= shr_m mrs /\ e <= e' /\
  (e' = e \/ e' = fexp prec emax (Zdigits2 m + e)) /\
  shr_m mrs < 2 ^ Z.max 0 (k - e').
Proof.
  intros Hm Hk. unfold shr_fexp, shr.
  pose proof (Zdigits2_nonneg m) as Hd.
  pose proof (Zdigits2_gt m Hm) as Hlt.
  destruct (fexp prec emax (Zdigits2 m + e) - e) as [| n | n] eqn:Hn;
    cbn [fst snd].
  - rewrite shr_m_of_loc. repeat split; try lia.
    eapply Z.lt_le_trans; [exact Hlt |]. apply Z.pow_le_mono_r; lia.
  - rewrite iter_shr_1_m by (rewrite shr_m_of_loc; lia).
    rewrite shr_m_of_loc.
    assert (Hpow : 0 < 2 ^ Zpos n) by (apply Z.pow_pos_nonneg; lia).
    repeat split; try lia.
    + apply Z.div_pos; lia.
    + apply Z.div_lt_upper_bound; [lia |].
      destruct (Z.le_gt_cases (Zpos n) (k - e)) as [Hle | Hgt].
      * rewrite Z.max_r by lia. rewrite <- Z.pow_add_r by lia.
        eapply Z.lt_le_trans; [exact Hlt |]. apply Z.pow_le_mono_r; lia.
      * rewrite Z.max_l by lia. rewrite Z.pow_0_r, Z.mul_1_r.
        eapply Z.lt_le_trans; [exact Hlt |]. apply Z.pow_le_mono_r; lia.
  - rewrite shr_m_of_loc. repeat split; try lia.
    eapply Z.lt_le_trans; [exact Hlt |]. apply Z.pow_le_mono_r; lia.
Qed.

(** Rounding a significand of at most [emax - 1] binary digits before
    the point never ends in an infinity. *)
Lemma binary_round_aux_finite (s : bool) (m e : Z) (l : location) :
  0 <= m -> Zdigits2 m + e <= emax - 1 -> e <= emax - prec ->
  is_finite (binary_round_aux prec emax s m e l) = true.
Proof.
  intros Hm Hd He. unfold binary_round_aux.
  pose proof (shr_fexp_bound m e l (emax - 1) Hm Hd) as H1.
  destruct (shr_fexp prec emax m e l) as [mrs1 e1]. cbn [fst snd] in H1.
  destruct H1 as (Hm1 & Hee1 & He1 & Hb1).
  set (m1 := round_nearest_even (shr_m mrs1) (loc_of_shr_record mrs1)).
  assert (Hm1' : shr_m mrs1 <= m1 <= shr_m mrs1 + 1).
  { unfold m1, round_nearest_even.
    destruct (loc_of_shr_record mrs1) as [| []]; try lia.
    destruct (Z.even (shr_m mrs1)); lia. }
  assert (Hfe : forall x, x <= emax -> fexp prec emax x <= emax - prec).
  { intros x Hx. unfold fexp, SpecFloat.emin, prec, emax in *. lia. }
  assert (He1' : e1 <= emax - prec).
  { destruct He1 as [-> | ->]; [lia |]. apply Hfe. lia. }
  assert (Hd1 : Zdigits2 m1 + e1 <= emax).
  { assert (Zdigits2 m1 <= Z.max 0 (emax - 1 - e1) + 1); [| unfold emax, prec in *; lia].
    apply Zdigits2_le; [lia | lia |].
    rewrite Z.pow_add_r by lia. change (2 ^ 1) with 2. lia. }
  pose proof (shr_fexp_bound m1 e1 loc_Exact emax ltac:(lia) Hd1) as H2.
  destruct (shr_fexp prec emax m1 e1 loc_Exact) as [mrs2 e2]. cbn [fst snd] in H2.
  destruct H2 as (Hm2 & _ & He2 & _).
  destruct (shr_m mrs2) as [| p | p]; [reflexivity | | lia].
  assert (He2' : e2 <= emax - prec).
  { destruct He2 as [-> | ->]; [lia |]. apply Hfe. lia. }
  apply Z.leb_le in He2'. rewrite He2'. reflexivity.
Qed.

(** [a / b] with [0 <= a <= b], [0 < b] is finite. *)
Lemma div_int_finite (a b : Z) :
  0 <= a <= b -> 0 < b -> is_finite (div_int a b) = true.
Proof.
  intros Hab Hb. unfold div_int, div_mag.
  destruct a as [| pa | pa]; [reflexivity | | lia].
  destruct b as [| pb | pb]; try lia.
  change (Z.to_pos (Z.abs (Zpos pa))) with pa.
  change (Z.to_pos (Z.abs (Zpos pb))) with pb.
  cbn [SFdiv]. unfold SFdiv_core_binary.
  set (e' := Z.min _ _).
  assert (He' : e' <= - prec).
  { unfold e', fexp, SpecFloat.emin.
    assert (Zdigits2 (Zpos pa) <= Zdigits2 (Zpos pb)).
    { apply Zdigits2_le; [lia | apply Zdigits2_nonneg |].
      eapply Z.le_lt_trans; [apply Hab |]. apply Zdigits2_gt. lia. }
    unfold prec, emax. lia. }
  replace (0 - 0 - e') with (- e') by lia.
  destruct (- e') as [| s | s] eqn:Hs; try (unfold prec in *; lia).
  rewrite Z.shiftl_mul_pow2 by lia.
  assert (Hpow : 0 < 2 ^ Zpos s) by (apply Z.pow_pos_nonneg; lia).
  pose proof (Z_div_mod (Zpos pa * 2 ^ Zpos s) (Zpos pb) ltac:(lia)) as Hdm.
  destruct (Z.div_eucl (Zpos pa * 2 ^ Zpos s) (Zpos pb)) as [q r].
  destruct Hdm as [Heq Hr].
  assert (Hq : 0 <= q <= 2 ^ Zpos s) by nia.
  apply binary_round_aux_finite; [lia | | unfold prec, emax in *; lia].
  assert (Zdigits2 q <= Zpos s + 1); [| unfold prec, emax in *; lia].
  apply Zdigits2_le; [lia | lia |].
  rewrite Z.pow_add_r by lia. change (2 ^ 1) with 2. lia.
Qed.
End Binary64Facts.

(** ** binary64: how far a rounding is from the exact value *)

Section Binary64Error.
Import Binary64.

Lemma shr_fexp_spec (m e : Z) (l : location) :
  0 <= m ->
  snd (shr_fexp prec emax m e l) = Z.max e (fexp prec emax (Zdigits2 m + e)) /\
  shr_m (fst (shr_fexp prec emax m e l))
  = m / 2 ^ (Z.max e (fexp prec emax (Zdigits2 m + e)) - e).
Proof.
  intros Hm. unfold shr_fexp, shr.
  destruct (fexp prec emax (Zdigits2 m + e) - e) as [| n | n] eqn:Hn; cbn [fst snd].
  - rewrite Z.max_l by lia. rewrite Z.sub_diag, Z.div_1_r, shr_m_of_loc. done.
  - rewrite Z.max_r by lia. rewrite iter_shr_1_m by (rewrite shr_m_of_loc; lia).
    rewrite shr_m_of_loc, Hn. split; [lia | done].
  - rewrite Z.max_l by lia. rewrite Z.sub_diag, Z.div_1_r, shr_m_of_loc. done.
Qed.

(** After the first shift at most [prec] digits are left. *)
Lemma shr_fexp_digits (m e : Z) :
  0 <= m ->
  m / 2 ^ (Z.max e (fexp prec emax (Zdigits2 m + e)) - e) < 2 ^ prec.
Proof.
  intros Hm. set (E := Z.max e (fexp prec emax (Zdigits2 m + e))).
  assert (HE : 0 <= E - e) by (unfold E; lia).
  assert (Hd : Zdigits2 m <= prec + (E - e)).
  { unfold E, fexp. lia. }
  apply Z.div_lt_upper_bound; [apply Z.pow_pos_nonneg; lia |].
  rewrite <- Z.pow_add_r by (unfold prec; lia).
  eapply Z.lt_le_trans; [apply Zdigits2_gt; lia |].
  apply Z.pow_le_mono_r; lia.
Qed.

(** The rounding of the significand [m] at exponent [e], in units of
    [2 ^ (- K)]: it is off by a few units of the last place at most. *)
Lemma binary_round_aux_bound (m e : Z) (l : location) (K : Z) :
  0 <= m -> 0 <= e + K -> Zdigits2 m + e <= emax - 1 -> e <= emax - prec ->
  let E := Z.max e (fexp prec emax (Zdigits2 m + e)) in
  let F := binary_round_aux prec emax false m e l in
  (F = S754_zero false \/ exists m2 e2, F = S754_finite false m2 e2 /\ E <= e2) /\
  m * 2 ^ (e + K) - 4 * 2 ^ (E + K) <= scaled K F <= m * 2 ^ (e + K) + 2 ^ (E + K).
Proof.
  intros Hm HK Hd He E F.
  pose proof (binary_round_aux_finite false m e l Hm Hd He) as Hfin. fold F in Hfin.
  unfold F, binary_round_aux in *.
  destruct (shr_fexp_spec m e l Hm) as [He1 Hm1].
  pose proof (shr_fexp_digits m e Hm) as Hdig.
  destruct (shr_fexp prec emax m e l) as [mrs1 e1]. cbn [fst snd] in He1, Hm1.
  fold E in He1, Hm1, Hdig. subst e1.
  set (m' := shr_m mrs1) in *.
  set (m1 := round_nearest_even m' (loc_of_shr_record mrs1)) in *.
  assert (HEe : 0 <= E - e) by (unfold E; lia).
  assert (Ha : 0 < 2 ^ (E - e)) by (apply Z.pow_pos_nonneg; lia).
  assert (Hm'0 : 0 <= m') by (rewrite Hm1; apply Z.div_pos; lia).
  assert (Hm1' : m' <= m1 <= m' + 1).
  { unfold m1, round_nearest_even.
    destruct (loc_of_shr_record mrs1) as [| []]; try lia.
    destruct (Z.even m'); lia. }
  destruct (shr_fexp_spec m1 E loc_Exact ltac:(lia)) as [He2 Hm2].
  destruct (shr_fexp prec emax m1 E loc_Exact) as [mrs2 e2]. cbn [fst snd] in He2, Hm2.
  assert (Hd1 : Zdigits2 m1 <= prec + 1).
  { apply Zdigits2_le; [lia | unfold prec; lia |].
    rewrite Z.pow_add_r by (unfold prec; lia). change (2 ^ 1) with 2. lia. }
  assert (Hemin : SpecFloat.emin prec emax <= E) by (unfold E, fexp; lia).
  assert (HE2 : E <= e2 <= E + 1).
  { rewrite He2. unfold fexp. lia. }
  assert (Hb : 2 ^ (e2 - E) = 1 \/ 2 ^ (e2 - E) = 2).
  { destruct (Z.eq_dec e2 E) as [-> | Hne].
    - left. by rewrite Z.sub_diag.
    - right. by replace (e2 - E) with 1 by lia. }
  assert (Hdiv1 : 2 ^ (E - e) * m' <= m < 2 ^ (E - e) * m' + 2 ^ (E - e)).
  { rewrite Hm1. pose proof (Z.mul_div_le m (2 ^ (E - e)) Ha).
    pose proof (Z.mul_succ_div_gt m (2 ^ (E - e)) Ha). lia. }
  assert (Hdiv2 : 2 ^ (e2 - E) * shr_m mrs2 <= m1 < 2 ^ (e2 - E) * shr_m mrs2 + 2 ^ (e2 - E)).
  { rewrite Hm2, <- He2.
    assert (Hb0 : 0 < 2 ^ (e2 - E)) by lia.
    pose proof (Z.mul_div_le m1 (2 ^ (e2 - E)) Hb0).
    pose proof (Z.mul_succ_div_gt m1 (2 ^ (e2 - E)) Hb0). lia. }
  assert (HP : 0 < 2 ^ (e + K)) by (apply Z.pow_pos_nonneg; lia).
  assert (HEK : 2 ^ (E + K) = 2 ^ (E - e) * 2 ^ (e + K)).
  { rewrite <- Z.pow_add_r by lia. f_equal. lia. }
  assert (He2K : 2 ^ (e2 + K) = 2 ^ (e2 - E) * (2 ^ (E - e) * 2 ^ (e + K))).
  { rewrite <- HEK, <- Z.pow_add_r by lia. f_equal. lia. }
  destruct (shr_m mrs2) as [| p | p] eqn:Hp.
  - split; [by left |]. cbn [scaled]. rewrite HEK. nia.
  - destruct (e2 <=? emax - prec) eqn:Hle; [| discriminate Hfin].
    split; [right; exists p, e2; split; [done | lia] |].
    cbn [scaled]. rewrite He2K, HEK. nia.
  - discriminate Hfin.
Qed.

(** The quotient of [0 < t <= b], in units of [2 ^ (- K)]. *)
Lemma div_int_bound (t b K : Z) :
  0 < t <= b -> 1074 <= K ->
  (div_int t b = S754_zero false \/
   exists m2 e2, div_int t b = S754_finite false m2 e2 /\ -1074 <= e2) /\
  t * 2 ^ K - b * 2 ^ (K - 49) <= scaled K (div_int t b) * b
    <= t * 2 ^ K + b * 2 ^ (K - 49).
Proof.
  intros Ht HK. unfold div_int, div_mag.
  destruct t as [| pt | pt]; try lia. destruct b as [| pb | pb]; try lia.
  change (xorb (Z.pos pt <? 0) (Z.pos pb <? 0)) with false.
  change (Z.to_pos (Z.abs (Zpos pt))) with pt.
  change (Z.to_pos (Z.abs (Zpos pb))) with pb.
  cbn [SFdiv]. unfold SFdiv_core_binary.
  set (e' := Z.min _ _).
  assert (He' : -1074 <= e' <= -53).
  { unfold e', fexp, SpecFloat.emin.
    assert (Zdigits2 (Zpos pt) <= Zdigits2 (Zpos pb)).
    { apply Zdigits2_le; [lia | apply Zdigits2_nonneg |].
      eapply Z.le_lt_trans; [apply Ht |]. apply Zdigits2_gt. lia. }
    unfold prec, emax. lia. }
  replace (0 - 0 - e') with (- e') by lia.
  destruct (- e') as [| s | s] eqn:Hs; try lia.
  rewrite Z.shiftl_mul_pow2 by lia.
  assert (Hpow : 0 < 2 ^ Zpos s) by (apply Z.pow_pos_nonneg; lia).
  pose proof (Z_div_mod (Zpos pt * 2 ^ Zpos s) (Zpos pb) ltac:(lia)) as Hdm.
  destruct (Z.div_eucl (Zpos pt * 2 ^ Zpos s) (Zpos pb)) as [q r].
  destruct Hdm as [Heq Hr]. cbv beta iota.
  assert (Hq : 0 <= q <= 2 ^ Zpos s) by nia.
  assert (Hdq : Zdigits2 q <= Zpos s + 1).
  { apply Zdigits2_le; [lia | lia |].
    rewrite Z.pow_add_r by lia. change (2 ^ 1) with 2. lia. }
  destruct (binary_round_aux_bound q e' (new_location (Zpos pb) r) K)
    as [Hshape Hb]; try (unfold prec, emax; lia).
  set (E := Z.max e' (fexp prec emax (Zdigits2 q + e'))) in *.
  assert (HE : -1074 <= E <= -52).
  { unfold E, fexp, SpecFloat.emin, prec, emax. lia. }
  change (xorb false false) with false.
  split.
  - destruct Hshape as [-> | (m2 & e2 & -> & He2)]; [by left |].
    right. exists m2, e2. split; [done | lia].
  - set (F := binary_round_aux prec emax false q e' (new_location (Zpos pb) r)) in *.
    assert (HP : 0 < 2 ^ (e' + K)) by (apply Z.pow_pos_nonneg; lia).
    assert (HX : 0 < 2 ^ (K - 53)) by (apply Z.pow_pos_nonneg; lia).
    assert (HK2 : 2 ^ K = 2 ^ Zpos s * 2 ^ (e' + K)).
    { rewrite <- Z.pow_add_r by lia. f_equal. lia. }
    assert (HPX : 2 ^ (e' + K) <= 2 ^ (K - 53)) by (apply Z.pow_le_mono_r; lia).
    assert (HEX : 2 ^ (E + K) <= 2 * 2 ^ (K - 53)).
    { replace (2 * 2 ^ (K - 53)) with (2 ^ (K - 52)).
      - apply Z.pow_le_mono_r; lia.
      - replace (K - 52) with (Z.succ (K - 53)) by lia. rewrite Z.pow_succ_r; lia. }
    assert (H49 : 2 ^ (K - 49) = 16 * 2 ^ (K - 53)).
    { replace (K - 49) with (4 + (K - 53)) by lia. rewrite Z.pow_add_r by lia. done. }
    assert (HEpos : 0 < 2 ^ (E + K)) by (apply Z.pow_pos_nonneg; lia).
    rewrite HK2, H49. nia.
Qed.

(** The product by 100 of a float of value at most about one, in units
    of [2 ^ (- K - 46)]. *)
Lemma mul_hundred_bound (m : positive) (e K : Z) :
  -1074 <= e -> 1074 <= K ->
  scaled K (S754_finite false m e) <= 2 ^ K + 2 ^ (K - 49) ->
  (mul (S754_finite false m e) (of_int 100) = S754_zero false \/
   exists m2 e2,
     mul (S754_finite false m e) (of_int 100) = S754_finite false m2 e2 /\
     - K - 46 <= e2) /\
  100 * 2 ^ 46 * scaled K (S754_finite false m e) - 2 ^ (K + 3)
    <= scaled (K + 46) (mul (S754_finite false m e) (of_int 100))
    <= 100 * 2 ^ 46 * scaled K (S754_finite false m e) + 2 ^ (K + 3).
Proof.
  intros He HK Hle. cbn [scaled] in Hle |- *.
  change (of_int 100) with (S754_finite false 7036874417766400 (-46)).
  unfold mul. cbn [SFmul xorb].
  set (x := binary_round_aux prec emax false (Zpos (m * 7036874417766400)) (e + -46)
              loc_Exact).
  assert (HP : 0 < 2 ^ (e + K)) by (apply Z.pow_pos_nonneg; lia).
  assert (HX : 0 < 2 ^ (K - 49)) by (apply Z.pow_pos_nonneg; lia).
  assert (H49 : 2 ^ K = 2 ^ 49 * 2 ^ (K - 49)).
  { rewrite <- Z.pow_add_r by lia. f_equal. lia. }
  assert (He0 : e <= 0).
  { assert (2 ^ (e + K) < 2 ^ (K + 1)).
    { rewrite Z.pow_add_r with (c := 1) by lia. change (2 ^ 1) with 2. nia. }
    apply Z.pow_lt_mono_r_iff in H; lia. }
  assert (Hm54 : Zpos (m * 7036874417766400) < 2 ^ (8 - (e + -46))).
  { assert (H54 : 2 ^ (K + 54) = 2 ^ (8 - (e + -46)) * 2 ^ (e + K)).
    { rewrite <- Z.pow_add_r by lia. f_equal. lia. }
    assert (H54' : 2 ^ (K + 54) = 2 ^ 54 * 2 ^ K).
    { rewrite <- Z.pow_add_r by lia. f_equal. lia. }
    assert (Zpos (m * 7036874417766400) * 2 ^ (e + K) < 2 ^ (K + 54)).
    { rewrite H54', Pos2Z.inj_mul. rewrite H49 in *.
      change (2 ^ 54) with 18014398509481984. change (2 ^ 49) with 562949953421312 in *.
      nia. }
    rewrite H54 in H. nia. }
  destruct (binary_round_aux_bound (Zpos (m * 7036874417766400)) (e + -46) loc_Exact (K + 46))
    as [Hshape Hb]; try (unfold prec, emax; lia).
  { assert (Zdigits2 (Zpos (m * 7036874417766400)) <= 8 - (e + -46)).
    { apply Zdigits2_le; [lia | lia | exact Hm54]. }
    unfold emax. lia. }
  fold x in Hshape, Hb.
  set (E := Z.max (e + -46) (fexp prec emax (Zdigits2 (Zpos (m * 7036874417766400)) + (e + -46)))) in *.
  assert (HE : - K - 46 <= E <= -45).
  { assert (Zdigits2 (Zpos (m * 7036874417766400)) <= 8 - (e + -46)).
    { apply Zdigits2_le; [lia | lia | exact Hm54]. }
    unfold E, fexp, SpecFloat.emin, prec, emax. lia. }
  split.
  - destruct Hshape as [-> | (m2 & e2 & -> & He2)]; [by left |].
    right. exists m2, e2. split; [done | lia].
  - assert (HEK : 4 * 2 ^ (E + (K + 46)) <= 2 ^ (K + 3)).
    { change 4 with (2 ^ 2). rewrite <- Z.pow_add_r by lia.
      apply Z.pow_le_mono_r; lia. }
    assert (HEpos : 0 < 2 ^ (E + (K + 46))) by (apply Z.pow_pos_nonneg; lia).
    replace (e + -46 + (K + 46)) with (e + K) in Hb by lia.
    rewrite Pos2Z.inj_mul in Hb.
    change (2 ^ 46) with 70368744177664. lia.
Qed.

Lemma round_half_even_bound (n d : Z) :
  0 < d -> 2 * Z.abs (round_half_even n d * d - n) <= d.
Proof.
  intros Hd. unfold round_half_even.
  pose proof (Z.div_mod n d ltac:(lia)) as Hdm.
  pose proof (Z.mod_pos_bound n d Hd) as Hr.
  destruct (Z.compare_spec (2 * (n mod d)) d) as [H | H | H];
    [destruct (Z.even (n / d)) | |]; nia.
Qed.

Lemma round_half_even_nonneg (n d : Z) : 0 <= n -> 0 < d -> 0 <= round_half_even n d.
Proof.
  intros Hn Hd. unfold round_half_even.
  pose proof (Z.div_pos n d Hn Hd).
  destruct (2 * (n mod d) ?= d); [destruct (Z.even (n / d)) | |]; lia.
Qed.

(** The thousand and one decimals a rate of a non-negative mapping can
    be rounded to, each checked. *)
Lemma tenths_are_close (r : Z) : 0 <= r <= 1000 -> tenth_is_close r = true.
Proof.
  intros Hr.
  assert (Hall : forallb tenth_is_close (map Z.of_nat (seq 0 1001)) = true)
    by (vm_compute; reflexivity).
  rewrite forallb_forall in Hall. apply Hall.
  apply in_map_iff. exists (Z.to_nat r). split; [lia |].
  apply in_seq. lia.
Qed.
End Binary64Error.

(** ** Dicts *)

Section DictFacts.
Context {V : Type}.
Implicit Types (d pre suf : pydict V) (k : string) (v : V).

Lemma dict_get_app_fresh pre suf k :
  k ∉ dict_keys pre -> dict_get (pre ++ suf) k = dict_get suf k.
Proof.
  induction pre as [| [k' v'] pre IH]; intros Hk; [reflexivity |].
  cbn in *. apply not_elem_of_cons in Hk as [Hne Hk].
  destruct (String.eqb_spec k' k); [congruence | auto].
Qed.

Lemma dict_set_app_fresh pre suf k v :
  k ∉ dict_keys pre -> dict_set (pre ++ suf) k v = pre ++ dict_set suf k v.
Proof.
  induction pre as [| [k' v'] pre IH]; intros Hk; [reflexivity |].
  cbn in *. apply not_elem_of_cons in Hk as [Hne Hk].
  destruct (String.eqb_spec k' k); [congruence |]. f_equal. auto.
Qed.

Lemma dict_set_fresh d k v : k ∉ dict_keys d -> dict_set d k v = d ++ [(k, v)].
Proof.
  intros Hk. rewrite <- (app_nil_r d) at 1.
  rewrite dict_set_app_fresh by done. reflexivity.
Qed.

Lemma dict_get_head d k v : dict_get ((k, v) :: d) k = Some v.
Proof. cbn. rewrite String.eqb_refl. reflexivity. Qed.

Lemma dict_set_head d k v v' : dict_set ((k, v) :: d) k v' = (k, v') :: d.
Proof. cbn. rewrite String.eqb_refl. reflexivity. Qed.

Lemma dict_get_Some d k v : dict_get d k = Some v -> (k, v) ∈ d.
Proof.
  induction d as [| [k' v'] d IH]; cbn; [discriminate |].
  destruct (String.eqb_spec k' k) as [-> | Hne].
  - intros [= ->]. left.
  - intros H. right. auto.
Qed.

Lemma dict_get_None d k : dict_get d k = None <-> k ∉ dict_keys d.
Proof.
  induction d as [| [k' v'] d IH]; cbn.
  - split; [intros _; apply not_elem_of_nil | done].
  - rewrite not_elem_of_cons.
    destruct (String.eqb_spec k' k) as [-> | Hne].
    + split; [discriminate | intros [Hne _]; done].
    + rewrite IH. split; [intros H; split; [congruence | done] | intros [_ H]; done].
Qed.

Lemma elem_of_dict_keys d k v : (k, v) ∈ d -> k ∈ dict_keys d.
Proof.
  intros Hin. apply list_elem_of_In. apply list_elem_of_In in Hin.
  apply (in_map fst) in Hin. exact Hin.
Qed.

Lemma dict_get_elem_of d k v : dict_wf d -> (k, v) ∈ d -> dict_get d k = Some v.
Proof.
  unfold dict_wf. induction d as [| [k' v'] d IH]; cbn; intros Hwf Hin.
  - by apply elem_of_nil in Hin.
  - apply NoDup_cons in Hwf as [Hk' Hwf].
    apply elem_of_cons in Hin as [[= <- <-] | Hin].
    + by rewrite String.eqb_refl.
    + destruct (String.eqb_spec k' k) as [-> | Hne]; [| auto].
      exfalso. apply Hk'. eapply elem_of_dict_keys, Hin.
Qed.

Lemma dict_of_items_acc (items acc : pydict V) :
  NoDup (dict_keys (acc ++ items)) ->
  fold_left (fun d kv => dict_set d (fst kv) (snd kv)) items acc = acc ++ items.
Proof.
  revert acc. induction items as [| [k v] items IH]; intros acc Hnd; cbn.
  - by rewrite app_nil_r.
  - assert (Hk : k ∉ dict_keys acc).
    { unfold dict_keys in Hnd. rewrite map_app in Hnd.
      apply NoDup_app in Hnd as (_ & Hdisj & _).
      intros Hin. apply (Hdisj k Hin). cbn. left. }
    rewrite dict_set_fresh by done.
    rewrite IH; rewrite <- app_assoc; done.
Qed.

Lemma dict_of_items_wf (items : pydict V) : dict_wf items -> dict_of_items items = items.
Proof. intros Hwf. unfold dict_of_items. by rewrite dict_of_items_acc. Qed.
End DictFacts.

(** ** The stable sort and its reverse *)

Section SortedFacts.
Context {A : Type} (key : A -> Z).

Lemma insert_asc_perm (x : A) (l : list A) : insert_asc key x l ≡ₚ x :: l.
Proof.
  induction l as [| y l IH]; cbn; [done |].
  destruct (key y <? key x); [| done].
  rewrite IH. apply perm_swap.
Qed.

Lemma stable_sort_perm (l : list A) : stable_sort key l ≡ₚ l.
Proof.
  induction l as [| x l IH]; cbn; [done |].
  rewrite insert_asc_perm. by rewrite IH.
Qed.

Lemma insert_asc_sorted (x : A) (l : list A) :
  StronglySorted (fun a b => key a <= key b) l ->
  StronglySorted (fun a b => key a <= key b) (insert_asc key x l).
Proof.
  induction l as [| y l IH]; intros Hs; cbn.
  - constructor; constructor.
  - apply StronglySorted_inv in Hs as [Hs Hy].
    destruct (Z.ltb_spec (key y) (key x)) as [Hlt | Hge].
    + constructor; [auto |].
      rewrite insert_asc_perm. constructor; [lia | done].
    + constructor; [by constructor |].
      constructor; [lia |].
      eapply Forall_impl; [exact Hy |]. intros z Hz. cbn in *. lia.
Qed.

Lemma stable_sort_sorted (l : list A) :
  StronglySorted (fun a b => key a <= key b) (stable_sort key l).
Proof.
  induction l as [| x l IH]; cbn; [constructor |].
  by apply insert_asc_sorted.
Qed.

Lemma insert_asc_with_key (x : A) (l : list A) (v : Z) :
  with_key key v (insert_asc key x l) =
  if key x =? v then x :: with_key key v l else with_key key v l.
Proof.
  unfold with_key. induction l as [| y l IH]; cbn; [done |].
  destruct (Z.ltb_spec (key y) (key x)) as [Hlt | Hge]; cbn; [| done].
  rewrite IH.
  destruct (Z.eqb_spec (key x) v) as [Hx | Hx]; [| done].
  destruct (Z.eqb_spec (key y) v) as [Hy | Hy]; [lia | done].
Qed.

Lemma stable_sort_stable (l : list A) (v : Z) :
  with_key key v (stable_sort key l) = with_key key v l.
Proof.
  induction l as [| x l IH]; [done |].
  cbn [stable_sort fold_right].
  change (fold_right (insert_asc key) [] l) with (stable_sort key l).
  rewrite insert_asc_with_key, IH. unfold with_key. cbn.
  by destruct (key x =? v).
Qed.

Lemma with_key_rev (l : list A) (v : Z) :
  with_key key v (rev l) = rev (with_key key v l).
Proof.
  unfold with_key. induction l as [| x l IH]; [done |].
  cbn [rev List.filter]. rewrite List.filter_app, IH. cbn [List.filter].
  destruct (key x =? v); cbn [rev]; [done | by rewrite app_nil_r].
Qed.

Lemma StronglySorted_snoc (R : A -> A -> Prop) (l : list A) (x : A) :
  StronglySorted R l -> Forall (fun y => R y x) l -> StronglySorted R (l ++ [x]).
Proof.
  induction 1 as [| y l Hs IH Hy]; intros Hx; cbn.
  - constructor; constructor.
  - apply Forall_cons in Hx as [Hyx Hx]. constructor; [auto |].
    apply Forall_app. split; [done | by constructor].
Qed.

Lemma StronglySorted_rev (R : A -> A -> Prop) (l : list A) :
  StronglySorted R l -> StronglySorted (fun a b => R b a) (rev l).
Proof.
  induction 1 as [| y l Hs IH Hy]; cbn; [constructor |].
  apply StronglySorted_snoc; [done |].
  apply Forall_forall. intros z Hz. rewrite Forall_forall in Hy.
  apply Hy. apply list_elem_of_In. apply in_rev. by apply list_elem_of_In.
Qed.

Lemma sorted_reverse_perm (l : list A) : sorted_reverse key l ≡ₚ l.
Proof.
  unfold sorted_reverse.
  rewrite <- Permutation_rev, stable_sort_perm. symmetry. apply Permutation_rev.
Qed.

Lemma sorted_reverse_sorted (l : list A) :
  StronglySorted (desc key) (sorted_reverse key l).
Proof.
  unfold sorted_reverse.
  apply (StronglySorted_rev (fun a b => key a <= key b)), stable_sort_sorted.
Qed.

(** Stability survives the two reversals: the items with one key keep
    the order of the input. *)
Lemma sorted_reverse_stable (l : list A) (v : Z) :
  with_key key v (sorted_reverse key l) = with_key key v l.
Proof.
  unfold sorted_reverse.
  by rewrite with_key_rev, stable_sort_stable, with_key_rev, rev_involutive.
Qed.
End SortedFacts.

(** ** The two loops of calculate_scores *)

Lemma scored_keys (ps : pydict (gmap string Z)) : dict_keys (scored ps) = dict_keys ps.
Proof. unfold scored, dict_keys. rewrite map_map. reflexivity. Qed.

Lemma score_loop_fold (ps : pydict (gmap string Z)) (acc : pydict score) (z : Z) :
  fold_left
    (fun '(scores, total_score_sum) '(participant, activities) =>
       (dict_set scores participant (score_entry activities),
        total_score_sum + S_total activities))
    ps (acc, z)
  = (fold_left (fun d kv => dict_set d (fst kv) (snd kv)) (scored ps) acc,
     z + sum_totals ps).
Proof.
  revert acc z. induction ps as [| [n a] ps IH]; intros acc z;
    cbn [fold_left scored map sum_totals fold_right fst snd].
  - f_equal. lia.
  - rewrite IH. f_equal. unfold sum_totals. lia.
Qed.

Lemma score_loop_wf (ps : pydict (gmap string Z)) :
  dict_wf ps -> score_loop ps = (scored ps, sum_totals ps).
Proof.
  intros Hwf. unfold score_loop. rewrite score_loop_fold.
  rewrite dict_of_items_acc; [reflexivity |].
  cbn [app]. rewrite scored_keys. exact Hwf.
Qed.

Lemma rate_loop_acc (pre suf : pydict score) (total_score_sum : Z) :
  NoDup (dict_keys (pre ++ suf)) ->
  for_each
    (fun scores participant =>
       sc ← dict_getitem scores participant;
       r ← rate_of (total sc) total_score_sum;
       Ok (dict_set scores participant (set_rate sc r)))
    (dict_keys suf) (pre ++ suf)
  = (suf' ← rated suf total_score_sum; Ok (pre ++ suf')).
Proof.
  revert pre. induction suf as [| [k sc] suf IH]; intros pre Hnd; [reflexivity |].
  assert (Hk : k ∉ dict_keys pre).
  { unfold dict_keys in Hnd. rewrite map_app in Hnd.
    apply NoDup_app in Hnd as (_ & Hdisj & _).
    intros Hin. apply (Hdisj k Hin). left. }
  cbn [dict_keys map fst for_each rated].
  unfold dict_getitem. rewrite dict_get_app_fresh, dict_get_head by done.
  cbn [mbind result_bind].
  destruct (rate_of (total sc) total_score_sum) as [r | e]; [| reflexivity].
  cbn [mbind result_bind].
  rewrite dict_set_app_fresh, dict_set_head by done.
  change (pre ++ (k, set_rate sc r) :: suf) with (pre ++ [(k, set_rate sc r)] ++ suf).
  rewrite app_assoc.
  change (map fst suf) with (dict_keys suf).
  rewrite IH.
  - destruct (rated suf total_score_sum) as [suf' | e]; [| reflexivity].
    cbn. by rewrite <- app_assoc.
  - unfold dict_keys in *. rewrite <- app_assoc, map_app in *. exact Hnd.
Qed.

Lemma rate_loop_wf (scores : pydict score) (total_score_sum : Z) :
  dict_wf scores -> rate_loop scores total_score_sum = rated scores total_score_sum.
Proof.
  intros Hwf. unfold rate_loop.
  pose proof (rate_loop_acc [] scores total_score_sum Hwf) as H.
  cbn [app] in H. rewrite H.
  by destruct (rated scores total_score_sum).
Qed.


Lemma rated_Forall2 (scores out : pydict score) (total_score_sum : Z) :
  rated scores total_score_sum = Ok out ->
  Forall2 (rated_entry total_score_sum) scores out.
Proof.
  revert out. induction scores as [| [k sc] scores IH]; intros out; cbn.
  - intros [= <-]. constructor.
  - destruct (rate_of (total sc) total_score_sum) as [r | e] eqn:Hr; [| discriminate].
    cbn. destruct (rated scores total_score_sum) as [rest | e]; [| discriminate].
    cbn. intros [= <-]. constructor; [| by apply IH].
    split; [reflexivity |]. exists r. by split.
Qed.

Lemma rated_keys (scores out : pydict score) (total_score_sum : Z) :
  rated scores total_score_sum = Ok out -> dict_keys out = dict_keys scores.
Proof.
  intros H. apply rated_Forall2 in H. unfold dict_keys.
  induction H as [| x y scores out [Hk _] _ IH]; [reflexivity |].
  cbn [map]. by rewrite Hk, IH.
Qed.

Lemma rated_total (scores : pydict score) (total_score_sum : Z) :
  Forall (fun x => exists r, rate_of (total (snd x)) total_score_sum = Ok r) scores ->
  exists out, rated scores total_score_sum = Ok out.
Proof.
  induction 1 as [| [k sc] scores [r Hr] _ [rest IH]]; cbn.
  - by eexists.
  - cbn in Hr. rewrite Hr. cbn. rewrite IH. cbn. by eexists.
Qed.

(** With a real dict for input the three stages are the plain ones. *)
Lemma calculate_scores_wf (self : RepoAnalyzer) :
  dict_wf (participants self) ->
  calculate_scores self =
  (out ← rated (scored (participants self)) (sum_totals (participants self));
   Ok (sorted_reverse by_total out)).
Proof.
  intros Hwf. unfold calculate_scores. rewrite score_loop_wf by done.
  rewrite rate_loop_wf by (unfold dict_wf; by rewrite scored_keys).
  destruct (rated _ _) as [out | e] eqn:Hout; [| reflexivity].
  cbn. f_equal. apply dict_of_items_wf.
  unfold dict_wf, dict_keys.
  rewrite (Permutation_map fst (sorted_reverse_perm _ out)).
  apply rated_keys in Hout. unfold dict_keys in Hout.
  rewrite Hout. fold (dict_keys (scored (participants self))).
  by rewrite scored_keys.
Qed.

(** ** The rate of one participant *)

Lemma rate_of_guard (t total_score_sum : Z) :
  total_score_sum <= 0 -> rate_of t total_score_sum = Ok (PyInt 0).
Proof.
  intros H. unfold rate_of.
  destruct (Z.ltb_spec 0 total_score_sum); [lia | reflexivity].
Qed.

Lemma rate_of_pos (t total_score_sum : Z) :
  0 < total_score_sum ->
  rate_of t total_score_sum =
  (q ← truediv t total_score_sum;
   Ok (PyFloat (Binary64.round_ndigits (Binary64.mul q (Binary64.of_int 100)) 1))).
Proof.
  intros H. unfold rate_of.
  destruct (Z.ltb_spec 0 total_score_sum); [| lia].
  by destruct (truediv t total_score_sum).
Qed.

Lemma truediv_Ok (a b : Z) :
  0 <= a <= b -> 0 < b -> truediv a b = Ok (Binary64.div_int a b).
Proof.
  intros Hab Hb. unfold truediv.
  destruct (Z.eqb_spec b 0); [lia |].
  by rewrite div_int_finite.
Qed.

(** The only exception a rate can raise is the overflow of the division. *)
Lemma rate_of_error (t total_score_sum : Z) (e : exn) :
  rate_of t total_score_sum = Raise e -> e = OverflowError.
Proof.
  destruct (Z.le_gt_cases total_score_sum 0) as [H | H].
  - by rewrite rate_of_guard.
  - rewrite rate_of_pos by lia. unfold truediv.
    destruct (Z.eqb_spec total_score_sum 0); [lia |].
    destruct (Binary64.is_finite _); cbn; congruence.
Qed.

Lemma rate_of_zero (total_score_sum : Z) :
  exists r, rate_of 0 total_score_sum = Ok r /\ zero_rate (Some r).
Proof.
  destruct (Z.le_gt_cases total_score_sum 0) as [H | H].
  - rewrite rate_of_guard by done. eexists. split; [reflexivity | by left].
  - rewrite rate_of_pos, truediv_Ok by lia.
    unfold Binary64.div_int, Binary64.div_mag.
    destruct (Z.ltb_spec total_score_sum 0); [lia |].
    eexists. split; [reflexivity | by right].
Qed.

Lemma rate_of_Ok (t total_score_sum : Z) :
  0 <= t <= total_score_sum -> exists r, rate_of t total_score_sum = Ok r.
Proof.
  intros Ht. destruct (Z.le_gt_cases total_score_sum 0) as [H | H].
  - rewrite rate_of_guard by done. by eexists.
  - rewrite rate_of_pos, truediv_Ok by lia. by eexists.
Qed.

(** ** The formula on non-negative counts *)

Lemma get_nonneg (activities : gmap string Z) (key : string) :
  nonneg_counts activities -> 0 <= get activities key.
Proof.
  intros H. unfold get. destruct (activities !! key) as [n |] eqn:Hn; cbn; [| lia].
  exact (H key n Hn).
Qed.

Lemma S_total_nonneg (activities : gmap string Z) :
  nonneg_counts activities -> 0 <= S_total activities.
Proof.
  intros H.
  pose proof (get_nonneg activities "p_enhancement" H).
  pose proof (get_nonneg activities "p_bug" H).
  pose proof (get_nonneg activities "p_documentation" H).
  pose proof (get_nonneg activities "i_enhancement" H).
  pose proof (get_nonneg activities "i_bug" H).
  pose proof (get_nonneg activities "i_documentation" H).
  unfold S_total, i_d_at, i_fb_at, p_d_at, p_fb_at, i_valid, p_valid, i_fb, p_fb,
    p_f, p_b, p_d, i_f, i_b, i_d.
  lia.
Qed.

Lemma sum_totals_bounds (ps : pydict (gmap string Z)) :
  all_nonneg ps ->
  0 <= sum_totals ps /\
  Forall (fun x => 0 <= S_total (snd x) <= sum_totals ps) ps.
Proof.
  induction 1 as [| x ps Hx _ [IH0 IH]].
  - split; [done | constructor].
  - pose proof (S_total_nonneg _ Hx) as H0.
    change (sum_totals (x :: ps)) with (S_total (snd x) + sum_totals ps).
    split; [lia |]. constructor; [lia |].
    eapply Forall_impl; [exact IH |]. cbn beta. intros y Hy. lia.
Qed.

(** On a mapping of non-negative counts calculate_scores returns. *)
Lemma calculate_scores_Ok (self : RepoAnalyzer) :
  dict_wf (participants self) -> all_nonneg (participants self) ->
  exists out, calculate_scores self = Ok out.
Proof.
  intros Hwf Hnn. rewrite calculate_scores_wf by done.
  destruct (sum_totals_bounds _ Hnn) as [_ Hb].
  destruct (rated_total (scored (participants self)) (sum_totals (participants self)))
    as [out Hout].
  - unfold scored. apply Forall_map. eapply Forall_impl; [exact Hb |].
    cbn. intros x Hx. by apply rate_of_Ok.
  - rewrite Hout. cbn. by eexists.
Qed.

(** ** From the input mapping to the returned one *)

Lemma Forall2_elem_of_l {A B : Type} (R : A -> B -> Prop) (l : list A) (k : list B) (x : A) :
  Forall2 R l k -> x ∈ l -> exists y, y ∈ k /\ R x y.
Proof.
  induction 1 as [| a b l k Hab _ IH]; intros Hin.
  - by apply elem_of_nil in Hin.
  - apply elem_of_cons in Hin as [-> | Hin].
    + exists b. split; [left | done].
    + destruct (IH Hin) as (y & Hy & HR). exists y. split; [by right | done].
Qed.

Lemma Forall2_elem_of_r {A B : Type} (R : A -> B -> Prop) (l : list A) (k : list B) (y : B) :
  Forall2 R l k -> y ∈ k -> exists x, x ∈ l /\ R x y.
Proof.
  induction 1 as [| a b l k Hab _ IH]; intros Hin.
  - by apply elem_of_nil in Hin.
  - apply elem_of_cons in Hin as [-> | Hin].
    + exists a. split; [left | done].
    + destruct (IH Hin) as (x & Hx & HR). exists x. split; [by right | done].
Qed.

Lemma scored_rated (ps : pydict (gmap string Z)) (rd : pydict score) (total_score_sum : Z) :
  rated (scored ps) total_score_sum = Ok rd ->
  Forall2
    (fun x y => fst y = fst x /\
                exists r, rate_of (S_total (snd x)) total_score_sum = Ok r /\
                          snd y = set_rate (score_entry (snd x)) r)
    ps rd.
Proof.
  intros H. apply rated_Forall2 in H. unfold scored in H.
  change (Forall2 (rated_entry total_score_sum)
            ((fun x : string * gmap string Z => (fst x, score_entry (snd x))) <$> ps) rd) in H.
  rewrite Forall2_fmap_l in H. eapply Forall2_impl; [exact H |].
  intros x y [Hk (r & Hr & Hy)]. cbn in *. split; [done |]. by exists r.
Qed.

Lemma calculate_scores_out_wf (self : RepoAnalyzer) (out : pydict score) :
  dict_wf (participants self) -> calculate_scores self = Ok out -> dict_wf out.
Proof.
  intros Hwf. rewrite calculate_scores_wf by done.
  destruct (rated _ _) as [rd | e] eqn:Hrd; [| discriminate].
  cbn. intros [= <-]. unfold dict_wf, dict_keys.
  rewrite (Permutation_map fst (sorted_reverse_perm _ rd)).
  apply rated_keys in Hrd. unfold dict_keys in Hrd. rewrite Hrd.
  fold (dict_keys (scored (participants self))). by rewrite scored_keys.
Qed.

(** Every participant of the input has its entry in the result. *)
Lemma calculate_scores_entry (self : RepoAnalyzer) (out : pydict score)
    (participant : string) (activities : gmap string Z) :
  dict_wf (participants self) -> calculate_scores self = Ok out ->
  (participant, activities) ∈ participants self ->
  exists r, rate_of (S_total activities) (sum_totals (participants self)) = Ok r /\
            dict_get out participant = Some (set_rate (score_entry activities) r).
Proof.
  intros Hwf Hout Hin.
  pose proof (calculate_scores_out_wf _ _ Hwf Hout) as Hwf'.
  rewrite calculate_scores_wf in Hout by done.
  destruct (rated _ _) as [rd | e] eqn:Hrd; [| discriminate].
  cbn in Hout. injection Hout as <-.
  apply scored_rated in Hrd.
  destruct (Forall2_elem_of_l _ _ _ _ Hrd Hin) as ([k sc] & Hy & Hk & r & Hr & Hsc).
  cbn in *. subst. exists r. split; [done |].
  apply dict_get_elem_of; [done |].
  by rewrite sorted_reverse_perm.
Qed.

(** Every entry of the result comes from a participant of the input. *)
Lemma calculate_scores_entry_inv (self : RepoAnalyzer) (out : pydict score)
    (participant : string) (sc : score) :
  dict_wf (participants self) -> calculate_scores self = Ok out ->
  (participant, sc) ∈ out ->
  exists activities r,
    (participant, activities) ∈ participants self /\
    rate_of (S_total activities) (sum_totals (participants self)) = Ok r /\
    sc = set_rate (score_entry activities) r.
Proof.
  intros Hwf Hout Hin.
  rewrite calculate_scores_wf in Hout by done.
  destruct (rated _ _) as [rd | e] eqn:Hrd; [| discriminate].
  cbn in Hout. injection Hout as <-.
  rewrite sorted_reverse_perm in Hin.
  apply scored_rated in Hrd.
  destruct (Forall2_elem_of_r _ _ _ _ Hrd Hin) as ([k a] & Hx & Hk & r & Hr & Hsc).
  cbn in *. subst. by exists a, r.
Qed.

(** The exceptions calculate_scores can end in. *)
Lemma rated_error (scores : pydict score) (total_score_sum : Z) (e : exn) :
  rated scores total_score_sum = Raise e -> e = OverflowError.
Proof.
  induction scores as [| [k sc] scores IH]; cbn; [discriminate |].
  destruct (rate_of (total sc) total_score_sum) as [r | e'] eqn:Hr; cbn.
  - destruct (rated scores total_score_sum) as [rest | e'']; cbn; [discriminate |].
    intros [= <-]. by apply IH.
  - intros [= <-]. by apply rate_of_error in Hr.
Qed.

Lemma calculate_scores_error (self : RepoAnalyzer) (e : exn) :
  dict_wf (participants self) -> calculate_scores self = Raise e -> e = OverflowError.
Proof.
  intros Hwf. rewrite calculate_scores_wf by done.
  destruct (rated _ _) as [rd | e'] eqn:Hrd; cbn; [discriminate |].
  intros [= <-]. by apply rated_error in Hrd.
Qed.

(** ** How far a rate is from the exact share *)

Lemma round_ndigits_zero (s : bool) (n : Z) :
  Binary64.round_ndigits (S754_zero s) n = S754_zero s.
Proof. reflexivity. Qed.

Lemma mul_bounds (lo x hi b : Z) :
  0 <= b -> lo <= x <= hi -> lo * b <= x * b <= hi * b.
Proof. intros Hb [Hlo Hhi]. split; apply Z.mul_le_mono_nonneg_r; lia. Qed.

(** The rate of [0 <= t <= b], in units of [2 ^ (-1120)], is within
    [1/20 + 2 ^ (-40)] of [100 * t / b]. *)
Lemma rate_of_scaled (t b : Z) :
  0 <= t <= b -> 0 < b ->
  exists f, rate_of t b = Ok (PyFloat f) /\
    (f = S754_zero false \/ exists m e, f = S754_finite false m e /\ -1120 <= e) /\
    20 * Z.abs (scaled 1120 f * b - 100 * t * 2 ^ 1120) <= b * (2 ^ 1120 + 20 * 2 ^ 1080).
Proof.
  intros Ht Hb. rewrite rate_of_pos, truediv_Ok by lia. cbn [mbind result_bind].
  eexists. split; [reflexivity |].
  assert (H1074 : 2 ^ 1074 = 562949953421312 * 2 ^ 1025) by reflexivity.
  assert (H1077 : 2 ^ 1077 = 4503599627370496 * 2 ^ 1025) by reflexivity.
  assert (H1073 : 2 ^ 1073 = 281474976710656 * 2 ^ 1025) by reflexivity.
  assert (H1080 : 2 ^ 1080 = 36028797018963968 * 2 ^ 1025) by reflexivity.
  assert (H1120 : 2 ^ 1120 = 39614081257132168796771975168 * 2 ^ 1025) by reflexivity.
  assert (HP : 0 < 2 ^ 1025) by (apply Z.pow_pos_nonneg; lia).
  destruct (Z.eq_dec t 0) as [-> | Ht0].
  { assert (Hz : Binary64.div_int 0 b = S754_zero false).
    { unfold Binary64.div_int, Binary64.div_mag.
      destruct (Z.ltb_spec b 0); [lia | reflexivity]. }
    rewrite Hz.
    change (Binary64.mul (S754_zero false) (Binary64.of_int 100)) with (S754_zero false).
    rewrite round_ndigits_zero. split; [by left |]. cbn [scaled].
    rewrite H1120, H1080. remember (2 ^ 1025) as P.
    pose proof (Z.mul_pos_pos b P Hb HP). lia. }
  destruct (div_int_bound t b 1074) as [Hshape Hq]; [lia | lia |].
  change (2 ^ (1074 - 49)) with (2 ^ 1025) in Hq. rewrite H1074 in Hq.
  assert (HtP : t * 2 ^ 1025 <= b * 2 ^ 1025) by (apply Z.mul_le_mono_nonneg_r; lia).
  assert (HbP : 0 < b * 2 ^ 1025) by (apply Z.mul_pos_pos; lia).
  destruct Hshape as [Hz | (mq & eq & Hfin & Heq)].
  { rewrite Hz in *. cbn [scaled] in Hq.
    change (Binary64.mul (S754_zero false) (Binary64.of_int 100)) with (S754_zero false).
    rewrite round_ndigits_zero. split; [by left |]. cbn [scaled].
    rewrite H1120, H1080. remember (2 ^ 1025) as P. lia. }
  rewrite Hfin in *.
  set (Sq := scaled 1074 (S754_finite false mq eq)) in *.
  assert (HSq : Sq <= 2 ^ 1074 + 2 ^ (1074 - 49)).
  { change (2 ^ (1074 - 49)) with (2 ^ 1025). rewrite H1074.
    apply (Z.mul_le_mono_pos_r _ _ b Hb). remember (2 ^ 1025) as P. lia. }
  destruct (mul_hundred_bound mq eq 1074 Heq ltac:(lia) HSq) as [Hxshape Hx].
  fold Sq in Hx. change (1074 + 46) with 1120 in Hx. change (1074 + 3) with 1077 in Hx.
  rewrite H1077 in Hx. change (2 ^ 46) with 70368744177664 in Hx.
  set (x := Binary64.mul (S754_finite false mq eq) (Binary64.of_int 100)) in *.
  set (X := scaled 1120 x) in *.
  rewrite H1120, H1080.
  apply (mul_bounds _ _ _ b ltac:(lia)) in Hx.
  assert (HXb : Z.abs (X * b - 100 * t * (39614081257132168796771975168 * 2 ^ 1025))
                <= 11540474045136896 * (b * 2 ^ 1025)).
  { remember (2 ^ 1025) as P. lia. }
  assert (Hkeep : 20 * Z.abs (X * b - 100 * t * (39614081257132168796771975168 * 2 ^ 1025))
                  <= b * (39614081257132168796771975168 * 2 ^ 1025
                          + 20 * (36028797018963968 * 2 ^ 1025))).
  { remember (2 ^ 1025) as P. lia. }
  destruct Hxshape as [Hxz | (mx & ex & Hxfin & Hex)].
  { assert (HX0 : X = scaled 1120 (S754_zero false)) by (unfold X; by rewrite Hxz).
    rewrite Hxz, round_ndigits_zero. split; [by left |]. by rewrite <- HX0. }
  assert (HXdef : X = Z.pos mx * 2 ^ (ex + 1120)) by (unfold X; by rewrite Hxfin).
  rewrite Hxfin. unfold Binary64.round_ndigits.
  destruct (Z.leb_spec 0 ex) as [Hpos | Hneg].
  { split; [right; exists mx, ex; split; [done | lia] |].
    cbn [scaled]. by rewrite <- HXdef. }
  change (10 ^ 1) with 10.
  set (r := Binary64.round_half_even (Z.pos mx * 10) (2 ^ (- ex))).
  assert (HD : 0 < 2 ^ (- ex)) by (apply Z.pow_pos_nonneg; lia).
  pose proof (round_half_even_bound (Z.pos mx * 10) (2 ^ (- ex)) HD) as Hr. fold r in Hr.
  pose proof (round_half_even_nonneg (Z.pos mx * 10) (2 ^ (- ex)) ltac:(lia) HD) as Hr0.
  fold r in Hr0.
  assert (HE : 0 < 2 ^ (ex + 1120)) by (apply Z.pow_pos_nonneg; lia).
  assert (HDX : 2 ^ (- ex) * 2 ^ (ex + 1120) = 39614081257132168796771975168 * 2 ^ 1025).
  { rewrite <- H1120, <- Z.pow_add_r by lia. f_equal. lia. }
  assert (HrX : 2 * Z.abs (r * (39614081257132168796771975168 * 2 ^ 1025) - 10 * X)
                <= 39614081257132168796771975168 * 2 ^ 1025).
  { rewrite <- HDX, HXdef.
    assert (Hr' : - 2 ^ (- ex) <= 2 * (r * 2 ^ (- ex) - Z.pos mx * 10) <= 2 ^ (- ex)) by lia.
    apply (mul_bounds _ _ _ (2 ^ (ex + 1120)) ltac:(lia)) in Hr'.
    remember (2 ^ (- ex)) as D. remember (2 ^ (ex + 1120)) as E. lia. }
  assert (HXle : X <= 100 * (39614081257132168796771975168 * 2 ^ 1025)
                      + 11540474045136896 * 2 ^ 1025).
  { apply (Z.mul_le_mono_pos_r _ _ b Hb). remember (2 ^ 1025) as P. lia. }
  assert (Hr1000 : r <= 1000).
  { assert (r < 1001); [| lia].
    apply (Z.mul_lt_mono_pos_r (39614081257132168796771975168 * 2 ^ 1025)); [lia |].
    remember (2 ^ 1025) as P. lia. }
  assert (Hv : - (39614081257132168796771975168 * 2 ^ 1025)
               <= 2 * (r * (39614081257132168796771975168 * 2 ^ 1025) - 10 * X)
               <= 39614081257132168796771975168 * 2 ^ 1025) by lia.
  apply (mul_bounds _ _ _ b ltac:(lia)) in Hv.
  pose proof (tenths_are_close r ltac:(lia)) as Htab. unfold tenth_is_close in Htab.
  replace (Binary64.div_mag false r 10) with (Binary64.of_tenths r)
    by (unfold Binary64.of_tenths, Binary64.div_int;
        destruct (Z.ltb_spec r 0); [lia | reflexivity]).
  destruct (Binary64.of_tenths r) as [[] | | | [] mf ef]; try discriminate Htab.
  - apply Z.eqb_eq in Htab. split; [by left |]. cbn [scaled].
    rewrite Htab in Hv. remember (2 ^ 1025) as P. lia.
  - apply andb_true_iff in Htab as [He Hclose].
    apply Z.leb_le in He, Hclose.
    split; [right; exists mf, ef; split; [done | lia] |].
    cbn [scaled]. rewrite H1120 in Hclose.
    change (2 ^ (1120 - 47)) with (2 ^ 1073) in Hclose. rewrite H1073 in Hclose.
    set (Sf := Z.pos mf * 2 ^ (ef + 1120)) in *.
    assert (Hu : - (10 * (281474976710656 * 2 ^ 1025))
                 <= 10 * Sf - r * (39614081257132168796771975168 * 2 ^ 1025)
                 <= 10 * (281474976710656 * 2 ^ 1025)) by lia.
    apply (mul_bounds _ _ _ b ltac:(lia)) in Hu.
    remember (2 ^ 1025) as P. lia.
Qed.

Lemma to_Q_scaled (f : spec_float) (K : Z) :
  0 <= K ->
  f = S754_zero false \/ (exists m e, f = S754_finite false m e /\ - K <= e) ->
  (Binary64.to_Q f == scaled K f # Z.to_pos (2 ^ K))%Q.
Proof.
  intros HK [-> | (m & e & -> & He)]; [reflexivity |].
  assert (HpK : 0 < 2 ^ K) by (apply Z.pow_pos_nonneg; lia).
  unfold Binary64.to_Q, scaled, Qeq.
  destruct (Z.leb_spec 0 e) as [Hpos | Hneg]; cbn [Qnum Qden inject_Z].
  - rewrite Z2Pos.id by lia. rewrite Z.pow_add_r by lia. lia.
  - assert (Hpe : 0 < 2 ^ (- e)) by (apply Z.pow_pos_nonneg; lia).
    rewrite !Z2Pos.id by lia.
    replace (2 ^ K) with (2 ^ (e + K) * 2 ^ (- e)); [lia |].
    rewrite <- Z.pow_add_r by lia. f_equal. lia.
Qed.

Lemma Qabs_diff_le (a c : Z) (b d : positive) (n : Z) (p : positive) :
  Z.abs (a * Zpos d - c * Zpos b) * Zpos p <= n * (Zpos b * Zpos d) ->
  (Qabs ((a # b) - (c # d)) <= n # p)%Q.
Proof.
  intros H. unfold Qminus, Qplus, Qopp, Qabs, Qle. cbn [Qnum Qden].
  rewrite Pos2Z.inj_mul.
  replace (a * Zpos d + - c * Zpos b) with (a * Zpos d - c * Zpos b) by lia.
  exact H.
Qed.

(** The rate of a participant with [0 <= t <= b] is within [rate_slack]
    of the exact share. *)
Lemma rate_of_close (t b : Z) :
  0 <= t <= b -> 0 < b ->
  exists f, rate_of t b = Ok (PyFloat f) /\
    (Qabs (Binary64.to_Q f - share t b) <= rate_slack)%Q.
Proof.
  intros Ht Hb. destruct (rate_of_scaled t b Ht Hb) as (f & Hf & Hshape & Hbound).
  exists f. split; [exact Hf |].
  rewrite (to_Q_scaled f 1120) by (lia || exact Hshape).
  unfold share, rate_slack. apply Qabs_diff_le.
  assert (HpK : 0 < 2 ^ 1120) by (apply Z.pow_pos_nonneg; lia).
  rewrite !Z2Pos.id by lia.
  assert (H1120 : 2 ^ 1120 = 1099511627776 * 2 ^ 1080) by reflexivity.
  assert (HP : 0 < 2 ^ 1080) by (apply Z.pow_pos_nonneg; lia).
  rewrite H1120 in *. remember (2 ^ 1080) as P.
  pose proof (Z.mul_pos_pos b P Hb HP). lia.
Qed.

(** ** Adding the rates up *)

Lemma sum_rates_close (out : pydict score) (b : Z) :
  Forall (fun x => (Qabs (rate_value (rate (snd x)) - share (total (snd x)) b)
                    <= rate_slack)%Q) out ->
  (Qabs (sum_rates out - share (totals_sum out) b)
   <= inject_Z (Z.of_nat (length out)) * rate_slack)%Q.
Proof.
  induction 1 as [| x out Hx _ IH].
  - cbn. unfold share, Qabs, Qle. cbn. lia.
  - unfold sum_rates, totals_sum in *. cbn [fold_right length].
    set (s := fold_right (fun x acc => (rate_value (rate (snd x)) + acc)%Q) 0%Q out) in *.
    set (ts := fold_right (fun x acc => total (snd x) + acc) 0 out) in *.
    assert (Hshare : (share (total (snd x) + ts) b == share (total (snd x)) b + share ts b)%Q).
    { unfold share, Qeq, Qplus. cbn [Qnum Qden]. rewrite Pos2Z.inj_mul. lia. }
    rewrite Hshare, Nat2Z.inj_succ. unfold Z.succ. rewrite inject_Z_plus.
    change (inject_Z 1) with 1%Q.
    apply Qabs_Qle_condition in Hx, IH. apply Qabs_Qle_condition.
    remember rate_slack as eps. remember (inject_Z (Z.of_nat (length out))) as n.
    remember (rate_value (rate (snd x))) as rx.
    remember (share (total (snd x)) b) as sx. remember (share ts b) as st.
    destruct Hx, IH. split; nra.
Qed.

Lemma share_whole (b : Z) : 0 < b -> (share b b == 100)%Q.
Proof.
  intros Hb. unfold share, Qeq. cbn [Qnum Qden]. rewrite Z2Pos.id by lia. lia.
Qed.

(* ================================================================== *)
(** * The collector *)

Section DictSetFacts.
Context {V : Type}.
Implicit Types (d : pydict V) (k : string) (v : V).

Lemma dict_get_set d k v k' :
  dict_get (dict_set d k v) k' = if String.eqb k k' then Some v else dict_get d k'.
Proof.
  induction d as [| [k0 v0] d IH]; cbn.
  - by destruct (String.eqb_spec k k').
  - destruct (String.eqb_spec k0 k) as [-> | Hne]; cbn.
    + by destruct (String.eqb_spec k k').
    + rewrite IH. destruct (String.eqb_spec k0 k') as [-> | Hne'];
        destruct (String.eqb_spec k k'); congruence.
Qed.

Lemma dict_keys_set d k v :
  dict_keys (dict_set d k v) = if dict_mem d k then dict_keys d else dict_keys d ++ [k].
Proof.
  unfold dict_mem, dict_keys in *. induction d as [| [k0 v0] d IH]; cbn; [done |].
  destruct (String.eqb_spec k0 k) as [-> | Hne]; cbn; [done |].
  rewrite IH. by destruct (dict_get d k).
Qed.

Lemma dict_mem_true d k : dict_mem d k = true <-> k ∈ dict_keys d.
Proof.
  unfold dict_mem. destruct (dict_get d k) eqn:Hg.
  - split; [intros _ | done]. eapply elem_of_dict_keys, dict_get_Some, Hg.
  - apply dict_get_None in Hg. split; [discriminate | done].
Qed.
End DictSetFacts.

(** ** Counting the labels of one item *)

Lemma bump_lookup (key k : string) (activities : gmap string Z) :
  bump key activities !! k =
  if String.eqb key k then (fun n => n + 1) <$> activities !! k else activities !! k.
Proof.
  unfold bump. destruct (String.eqb_spec key k) as [-> | Hne].
  - destruct (activities !! k) as [n |] eqn:Hn; [| by rewrite Hn].
    by rewrite lookup_insert_eq.
  - destruct (activities !! key); [| done]. by rewrite lookup_insert_ne.
Qed.

Lemma count_labels_lookup (prefix : string) (names : list string)
    (activities : gmap string Z) (k : string) :
  count_labels prefix names activities !! k =
  (fun n => n + bumps prefix names k) <$> activities !! k.
Proof.
  unfold count_labels, bumps. revert activities.
  induction names as [| nm names IH]; intros activities; cbn.
  - destruct (activities !! k); cbn; [f_equal; lia | done].
  - rewrite IH, bump_lookup.
    destruct (String.eqb (prefix +:+ nm) k); cbn;
      destruct (activities !! k); cbn; try done; f_equal; lia.
Qed.

Lemma count_labels_dom (prefix : string) (names : list string)
    (activities : gmap string Z) :
  dom (count_labels prefix names activities) = dom activities.
Proof.
  apply set_eq. intros k. rewrite !elem_of_dom, count_labels_lookup.
  by rewrite fmap_is_Some.
Qed.

Lemma bumps_nonneg (prefix : string) (names : list string) (k : string) :
  0 <= bumps prefix names k.
Proof. unfold bumps. lia. Qed.

Lemma append_eqb (prefix s l : string) :
  String.eqb (prefix +:+ s) (prefix +:+ l) = String.eqb s l.
Proof.
  assert (Hinj : prefix +:+ s = prefix +:+ l -> s = l).
  { induction prefix as [| c p IHp]; cbn; [auto |]. intros [= H]. auto. }
  destruct (String.eqb_spec (prefix +:+ s) (prefix +:+ l)) as [H | H];
    destruct (String.eqb_spec s l) as [H' | H']; try done.
  - by apply Hinj in H.
  - by subst.
Qed.

(** The lowered names equal to [l] are the labels matching [l]. *)
Lemma bumps_matching (prefix : string) (it : item) (l : string) :
  l <> "" -> bumps prefix (label_names it) (prefix +:+ l) = matching it l.
Proof.
  intros Hl. unfold bumps, matching, label_names. f_equal.
  induction (labels it) as [| lb lbs IH]; [done |].
  cbn [List.filter]. destruct (name lb) as [[| c s] |] eqn:Hn; cbn [truthy].
  - change (lower "") with "".
    destruct (String.eqb_spec "" l); [congruence | exact IH].
  - cbn [map List.filter]. rewrite Hn. cbn [default from_option id].
    rewrite append_eqb.
    destruct (String.eqb (lower (String c s)) l); cbn [length]; by rewrite IH.
  - exact IH.
Qed.

(** ** One round of the loop over the items *)

Lemma register_get (ps : pydict (gmap string Z)) (author k : string) :
  dict_get (if dict_mem ps author then ps else dict_set ps author zero_counts) k
  = if String.eqb author k
    then Some (default zero_counts (dict_get ps k))
    else dict_get ps k.
Proof.
  unfold dict_mem. destruct (String.eqb_spec author k) as [-> | Hne].
  - destruct (dict_get ps k) eqn:Hg; cbn; [done |].
    by rewrite dict_get_set, String.eqb_refl.
  - destruct (dict_get ps author); [done |].
    rewrite dict_get_set. by destruct (String.eqb_spec author k).
Qed.

Lemma update_entry_get (ps : pydict (gmap string Z)) (author k : string)
    (f : gmap string Z -> gmap string Z) :
  dict_get (update_entry ps author f) k
  = if String.eqb author k then f <$> dict_get ps k else dict_get ps k.
Proof.
  unfold update_entry. destruct (String.eqb_spec author k) as [-> | Hne].
  - destruct (dict_get ps k) eqn:Hg; cbn; [| done].
    by rewrite dict_get_set, String.eqb_refl.
  - destruct (dict_get ps author); [| done].
    rewrite dict_get_set. by destruct (String.eqb_spec author k).
Qed.

Lemma update_entry_keys (ps : pydict (gmap string Z)) (author : string)
    (f : gmap string Z -> gmap string Z) :
  dict_keys (update_entry ps author f) = dict_keys ps.
Proof.
  unfold update_entry. destruct (dict_get ps author) eqn:Hg; [| done].
  rewrite dict_keys_set. unfold dict_mem. by rewrite Hg.
Qed.

(** The entry of the author is created with zeros when it is not there
    and then counted into; nobody else's entry changes. *)
Lemma process_item_get (ps : pydict (gmap string Z)) (it : item) (k : string) :
  dict_get (process_item ps it) k
  = if String.eqb (author_of it) k
    then Some (credited it (default zero_counts (dict_get ps k)))
    else dict_get ps k.
Proof.
  unfold process_item, credited.
  destruct (pull_request it) as [pr |].
  - destruct (truthy (merged_at pr)).
    + rewrite update_entry_get, register_get.
      by destruct (String.eqb (author_of it) k).
    + by rewrite register_get.
  - destruct (state_counts (state_reason it)).
    + rewrite update_entry_get, register_get.
      by destruct (String.eqb (author_of it) k).
    + by rewrite register_get.
Qed.

Lemma process_item_keys (ps : pydict (gmap string Z)) (it : item) :
  dict_keys (process_item ps it)
  = if dict_mem ps (author_of it) then dict_keys ps
    else dict_keys ps ++ [author_of it].
Proof.
  assert (H : dict_keys (if dict_mem ps (author_of it) then ps
                          else dict_set ps (author_of it) zero_counts)
              = if dict_mem ps (author_of it) then dict_keys ps
                else dict_keys ps ++ [author_of it]).
  { destruct (dict_mem ps (author_of it)) eqn:Hm; [done |].
    by rewrite dict_keys_set, Hm. }
  unfold process_item.
  destruct (pull_request it) as [pr |];
    [destruct (truthy (merged_at pr)) | destruct (state_counts (state_reason it))];
    by rewrite ?update_entry_keys.
Qed.

Lemma credited_lookup (it : item) (activities : gmap string Z) (k : string) :
  exists n, 0 <= n /\ credited it activities !! k = (fun c => c + n) <$> activities !! k.
Proof.
  unfold credited.
  destruct (pull_request it) as [pr |];
    [destruct (truthy (merged_at pr)) | destruct (state_counts (state_reason it))];
    try (exists 0; split; [lia |];
         destruct (activities !! k); cbn; [f_equal; lia | done]);
    eexists; (split; [| apply count_labels_lookup]); apply bumps_nonneg.
Qed.

Lemma credited_dom (it : item) (activities : gmap string Z) :
  dom (credited it activities) = dom activities.
Proof.
  apply set_eq. intros k. rewrite !elem_of_dom.
  destruct (credited_lookup it activities k) as (n & _ & ->).
  by rewrite fmap_is_Some.
Qed.

Lemma credited_nonneg (it : item) (activities : gmap string Z) :
  nonneg_counts activities -> nonneg_counts (credited it activities).
Proof.
  intros Hnn k c. destruct (credited_lookup it activities k) as (n & Hn & ->).
  destruct (activities !! k) as [c0 |] eqn:Hk; cbn; [| done].
  intros [= <-]. pose proof (Hnn k c0 Hk). cbn in *. lia.
Qed.

(** The state of state_reason the code accepts is the one of the
    specification, and so is the merge test. *)
Lemma credited_p_credit (it : item) (activities : gmap string Z) (l : string) :
  l <> "" ->
  credited it activities !! ("p_" +:+ l)
  = (fun c => c + p_credit it l) <$> activities !! ("p_" +:+ l).
Proof.
  intros Hl. unfold credited, p_credit, merged.
  destruct (pull_request it) as [pr |].
  - destruct (truthy (merged_at pr)).
    + by rewrite count_labels_lookup, bumps_matching.
    + destruct (activities !! _); cbn; [f_equal; lia | done].
  - destruct (state_counts (state_reason it)).
    + rewrite count_labels_lookup.
      replace (bumps "i_" (label_names it) ("p_" +:+ l)) with 0; [done |].
      unfold bumps. induction (label_names it) as [| nm nms IH]; cbn; [done |].
      exact IH.
    + destruct (activities !! _); cbn; [f_equal; lia | done].
Qed.

Lemma state_counts_live (it : item) :
  pull_request it = None -> state_counts (state_reason it) = live_issue it.
Proof.
  intros Hpr. unfold live_issue, state_counts. rewrite Hpr.
  destruct (state_reason it); [apply orb_comm | done].
Qed.

Lemma credited_i_credit (it : item) (activities : gmap string Z) (l : string) :
  l <> "" ->
  credited it activities !! ("i_" +:+ l)
  = (fun c => c + i_credit it l) <$> activities !! ("i_" +:+ l).
Proof.
  intros Hl. unfold credited, i_credit.
  destruct (pull_request it) as [pr |] eqn:Hpr.
  - replace (live_issue it) with false by (unfold live_issue; by rewrite Hpr).
    destruct (truthy (merged_at pr)).
    + rewrite count_labels_lookup.
      replace (bumps "p_" (label_names it) ("i_" +:+ l)) with 0; [done |].
      unfold bumps. induction (label_names it) as [| nm nms IH]; cbn; [done |].
      exact IH.
    + destruct (activities !! _); cbn; [f_equal; lia | done].
  - rewrite <- (state_counts_live it Hpr).
    destruct (state_counts (state_reason it)).
    + by rewrite count_labels_lookup, bumps_matching.
    + destruct (activities !! _); cbn; [f_equal; lia | done].
Qed.

Lemma zero_counts_key (k : string) :
  is_Some (zero_counts !! k) ->
  exists l, l ∈ scoring_labels /\ (k = "p_" +:+ l \/ k = "i_" +:+ l).
Proof.
  unfold zero_counts, scoring_labels.
  repeat (rewrite lookup_insert; case_decide;
          [intros _; subst k; eexists; split;
           [| first [left; reflexivity | right; reflexivity]]; set_solver |]).
  rewrite lookup_empty. by intros [? ?].
Qed.

Lemma scoring_label_nonempty (l : string) : l ∈ scoring_labels -> l <> "".
Proof.
  unfold scoring_labels. intros H ->.
  repeat (apply elem_of_cons in H as [H | H]; [discriminate H |]).
  by apply elem_of_nil in H.
Qed.

Lemma matching_nonneg (it : item) (l : string) : 0 <= matching it l.
Proof. unfold matching. lia. Qed.

(** An item that earns nothing leaves the entry as it was. *)
Lemma credited_no_credit (it : item) (activities : gmap string Z) :
  dom activities = dom zero_counts -> earns_credit it = false ->
  credited it activities = activities.
Proof.
  intros Hdom Hno. apply map_eq. intros k.
  destruct (activities !! k) as [c |] eqn:Hk.
  2:{ destruct (credited_lookup it activities k) as (n & _ & ->). by rewrite Hk. }
  assert (Hz : is_Some (zero_counts !! k)).
  { apply elem_of_dom. rewrite <- Hdom. apply elem_of_dom. by eexists. }
  destruct (zero_counts_key k Hz) as (l & Hl & Hkl).
  pose proof (scoring_label_nonempty l Hl) as Hne.
  assert (Hcredit : p_credit it l = 0 /\ i_credit it l = 0).
  { unfold p_credit, i_credit. unfold earns_credit in Hno.
    apply andb_false_iff in Hno as [Hq | Hm].
    - apply orb_false_iff in Hq as [-> ->]. done.
    - assert (matching it l = 0).
      { pose proof (matching_nonneg it l).
        rewrite <- not_true_iff_false, existsb_exists in Hm.
        destruct (Z.ltb_spec 0 (matching it l)); [| lia].
        exfalso. apply Hm. exists l. split; [by apply list_elem_of_In |].
        by apply Z.ltb_lt. }
      by destruct (merged it), (live_issue it). }
  destruct Hcredit as [Hp Hi].
  destruct Hkl as [-> | ->].
  - rewrite credited_p_credit, Hk, Hp by done. cbn. f_equal. lia.
  - rewrite credited_i_credit, Hk, Hi by done. cbn. f_equal. lia.
Qed.

(** ** The invariant of the collector *)

Lemma collected_nil : collected [].
Proof. split; [apply NoDup_nil_2 | constructor]. Qed.

Lemma collected_entry (ps : pydict (gmap string Z)) (k : string) :
  collected ps ->
  dom (default zero_counts (dict_get ps k)) = dom zero_counts /\
  nonneg_counts (default zero_counts (dict_get ps k)).
Proof.
  intros [_ Hall]. destruct (dict_get ps k) as [a |] eqn:Hg; cbn.
  - apply dict_get_Some in Hg. rewrite Forall_forall in Hall. exact (Hall _ Hg).
  - split; [done |]. unfold nonneg_counts, zero_counts.
    intros key n. repeat (rewrite lookup_insert; case_decide; [by intros [= <-] |]).
    by rewrite lookup_empty.
Qed.

Lemma process_item_collected (ps : pydict (gmap string Z)) (it : item) :
  collected ps -> collected (process_item ps it).
Proof.
  intros Hc. pose proof Hc as [Hwf Hall].
  assert (Hwf' : dict_wf (process_item ps it)).
  { unfold dict_wf. rewrite process_item_keys.
    destruct (dict_mem ps (author_of it)) eqn:Hm; [done |].
    apply NoDup_app. split; [done |]. split; [| apply NoDup_singleton].
    intros k Hk Hk'. apply list_elem_of_singleton in Hk' as ->.
    apply dict_mem_true in Hk. congruence. }
  split; [done |]. apply Forall_forall. intros [k a] Hin.
  apply (dict_get_elem_of _ _ _ Hwf') in Hin.
  rewrite process_item_get in Hin. cbn.
  destruct (String.eqb_spec (author_of it) k) as [Heq | Hne].
  - injection Hin as <-. destruct (collected_entry ps k Hc) as [Hd Hn].
    split; [by rewrite credited_dom | by apply credited_nonneg].
  - apply dict_get_Some in Hin. rewrite Forall_forall in Hall. exact (Hall _ Hin).
Qed.

Lemma fold_collected (items : list item) (ps : pydict (gmap string Z)) :
  collected ps -> collected (fold_left process_item items ps).
Proof.
  revert ps. induction items as [| it items IH]; intros ps Hc; cbn; [done |].
  apply IH. by apply process_item_collected.
Qed.

Lemma fold_keys_mono (items : list item) (ps : pydict (gmap string Z)) (k : string) :
  k ∈ dict_keys ps -> k ∈ dict_keys (fold_left process_item items ps).
Proof.
  revert ps. induction items as [| it items IH]; intros ps Hk; cbn; [done |].
  apply IH. rewrite process_item_keys.
  destruct (dict_mem ps (author_of it)); [done |]. apply elem_of_app. by left.
Qed.

(** Every author of an item gone through is a key afterwards. *)
Lemma fold_registered (items : list item) (ps : pydict (gmap string Z)) (it : item) :
  it ∈ items -> author_of it ∈ dict_keys (fold_left process_item items ps).
Proof.
  revert ps. induction items as [| x items IH]; intros ps Hin; cbn.
  - by apply elem_of_nil in Hin.
  - apply elem_of_cons in Hin as [-> | Hin]; [| by apply IH].
    apply fold_keys_mono. rewrite process_item_keys.
    destruct (dict_mem ps (author_of x)) eqn:Hm; [by apply dict_mem_true |].
    apply elem_of_app. right. by apply list_elem_of_singleton.
Qed.

(** An author none of whose items earns credit keeps the zeros. *)
Lemma fold_no_credit (items : list item) (ps : pydict (gmap string Z)) (a : string) :
  default zero_counts (dict_get ps a) = zero_counts ->
  (forall it, it ∈ items -> author_of it = a -> earns_credit it = false) ->
  default zero_counts (dict_get (fold_left process_item items ps) a) = zero_counts.
Proof.
  revert ps. induction items as [| x items IH]; intros ps Hz Hno; cbn; [done |].
  apply IH.
  - rewrite process_item_get.
    destruct (String.eqb_spec (author_of x) a) as [Hx | Hx]; [| done].
    cbn. rewrite Hz. apply credited_no_credit; [done |].
    apply Hno; [left | done].
  - intros it Hin. apply Hno. by right.
Qed.

(** ** The loop over the pages *)

Lemma collect_loop_fetched (retry_request : Z -> response) (fuel : nat) (page : Z)
    (self self' : RepoAnalyzer) :
  collect_loop retry_request fuel page self = Some self' ->
  participants self'
  = fold_left process_item (fetched retry_request fuel page) (participants self).
Proof.
  revert page self. induction fuel as [| fuel IH]; intros page self; cbn; [done |].
  destruct (status_code (retry_request page) =? 403) eqn:H403.
  { apply Z.eqb_eq in H403.
    destruct (Z.eqb_spec (status_code (retry_request page)) 200); [lia |].
    cbn. by intros [= <-]. }
  destruct (status_code (retry_request page) =? 200); cbn; [| by intros [= <-]].
  destruct (json (retry_request page)) as [| it items] eqn:Hjson.
  { intros [= <-]. by destruct (str_contains _ _). }
  destruct (str_contains rel_next (link (retry_request page))); cbn.
  - intros H. apply IH in H. rewrite H. cbn. by rewrite fold_left_app.
  - intros [= <-]. cbn. by rewrite app_nil_r.
Qed.

(** A request that fails after [n] full pages ends the collection with
    the flag down and the counts of those pages. *)
Lemma collect_loop_aborts (retry_request : Z -> response) (n fuel : nat) (page : Z)
    (self : RepoAnalyzer) :
  continues retry_request n page = true ->
  status_code (retry_request (page + Z.of_nat n)) <> 200 ->
  (n < fuel)%nat ->
  collect_loop retry_request fuel page self
  = Some {| participants :=
              fold_left process_item (fetched retry_request n page) (participants self);
            _data_collected := false |}.
Proof.
  revert fuel page self. induction n as [| n IH]; intros fuel page self Hc Hst Hf;
    (destruct fuel as [| fuel]; [lia |]).
  - rewrite Z.add_0_r in Hst. cbn.
    destruct (Z.eqb_spec (status_code (retry_request page)) 403); [done |].
    by destruct (Z.eqb_spec (status_code (retry_request page)) 200).
  - cbn in Hc. apply andb_true_iff in Hc as [Hc Hrest].
    apply andb_true_iff in Hc as [Hc Hnext].
    apply andb_true_iff in Hc as [H200 Hitems].
    apply Z.eqb_eq in H200. cbn. rewrite H200, Hnext. cbn.
    destruct (json (retry_request page)) as [| it items] eqn:Hjson; [done |].
    rewrite (IH fuel (page + 1)); [| done | | lia].
    + cbn. by rewrite fold_left_app.
    + by replace (page + 1 + Z.of_nat n) with (page + Z.of_nat (S n)) by lia.
Qed.

(** The loop returns once a page ends it: with [n] full pages and a page
    after them that is no full page, [n + 1] rounds are enough. *)
Lemma collect_loop_returns (retry_request : Z -> response) (n fuel : nat) (page : Z)
    (self : RepoAnalyzer) :
  continues retry_request n page = true ->
  continues retry_request (S n) page = false ->
  (n < fuel)%nat ->
  exists self', collect_loop retry_request fuel page self = Some self'.
Proof.
  revert fuel page self. induction n as [| n IH]; intros fuel page self Hc Hstop Hf;
    (destruct fuel as [| fuel]; [lia |]).
  - cbn in Hstop. cbn.
    destruct (status_code (retry_request page) =? 403); [by eexists |].
    destruct (status_code (retry_request page) =? 200); cbn; [| by eexists].
    destruct (json (retry_request page)) as [| it items]; [by eexists |].
    cbn in Hstop.
    destruct (str_contains rel_next (link (retry_request page))); [done | by eexists].
  - cbn [continues] in Hc, Hstop.
    destruct (status_code (retry_request page) =? 200) eqn:H200; [| done].
    destruct (json (retry_request page)) as [| it items] eqn:Hjson; [done |].
    destruct (str_contains rel_next (link (retry_request page))) eqn:Hnext; [| done].
    cbn [andb] in Hc, Hstop. cbn [collect_loop].
    apply Z.eqb_eq in H200. rewrite H200, Hjson, Hnext. cbn.
    apply IH; [done | done | lia].
Qed.

(* ================================================================== *)
(** * The claims *)

(** ** The capping formula *)

(** C8: for all inputs the validated issue credit computed by
    calculate_scores is at most four times the validated PR credit,
    [i_valid <= 4 * p_valid]; the two stored issue components, which
    split [i_valid], are bounded with it. *)
Theorem i_valid_le_4_p_valid (activities : gmap string Z) :
  i_valid activities <= 4 * p_valid activities /\
  feat_bug_issue (score_entry activities) + 2 * document_issue (score_entry activities)
    = 2 * i_valid activities.
Proof.
  split.
  - unfold i_valid. lia.
  - cbn. unfold i_d_at. lia.
Qed.

(** C6, counterexample: with [p_documentation = -1] and no other
    activity, [p_valid = -1 < 0 = p_fb] and the stored document PR
    component is [-2]. *)
Lemma p_valid_claim_fails_on_negative_docs : ~ p_valid_claim_as_stated.
Proof.
  intros H. destruct (H negative_docs) as [Hle _].
  vm_compute in Hle. by apply Hle.
Qed.

(** C6, amended: whenever the documentation-PR count is not negative (so
    for every mapping of non-negative counts), [p_valid >= p_fb], hence
    [p_d_at = p_valid - p_fb] and the stored document PR component are
    not negative. *)
Theorem p_valid_ge_p_fb (activities : gmap string Z) :
  0 <= get activities "p_documentation" ->
  p_fb activities <= p_valid activities /\
  0 <= p_d_at activities /\
  0 <= document_PR (score_entry activities).
Proof.
  intros Hd. cbn. unfold p_d_at, p_valid, p_d. lia.
Qed.

Lemma p_valid_ge_p_fb_witness :
  p_fb (counts 2 0 10 0 0 0) <= p_valid (counts 2 0 10 0 0 0) /\
  0 <= p_d_at (counts 2 0 10 0 0 0) /\
  0 <= document_PR (score_entry (counts 2 0 10 0 0 0)).
Proof. apply p_valid_ge_p_fb. vm_compute. discriminate. Defined.

(** ** The total of a participant *)

(** C1: for a participant whose six counts are non-negative integers,
    the entry calculate_scores returns holds the four components
    [3*p_fb_at], [2*p_d_at], [2*i_fb_at], [1*i_d_at] of the capping
    formula and their sum as total; calculate_scores does return when the
    counts of all participants are non-negative; and the scenario
    [{p_enhancement: 2, p_documentation: 10}] yields total 18. *)
Theorem calculate_scores_formula (self : RepoAnalyzer) (participant : string)
    (activities : gmap string Z)
    (p_enhancement p_bug p_documentation i_enhancement i_bug i_documentation : Z) :
  dict_wf (participants self) ->
  (participant, activities) ∈ participants self ->
  activities !! "p_enhancement" = Some p_enhancement ->
  activities !! "p_bug" = Some p_bug ->
  activities !! "p_documentation" = Some p_documentation ->
  activities !! "i_enhancement" = Some i_enhancement ->
  activities !! "i_bug" = Some i_bug ->
  activities !! "i_documentation" = Some i_documentation ->
  0 <= p_enhancement -> 0 <= p_bug -> 0 <= p_documentation ->
  0 <= i_enhancement -> 0 <= i_bug -> 0 <= i_documentation ->
  let p_fb := p_enhancement + p_bug in
  let i_fb := i_enhancement + i_bug in
  let p_valid := p_fb + Z.min p_documentation (3 * Z.max 1 p_fb) in
  let i_valid := Z.min (i_fb + i_documentation) (4 * p_valid) in
  let p_fb_at := Z.min p_fb p_valid in
  let p_d_at := p_valid - p_fb in
  let i_fb_at := Z.min i_fb i_valid in
  let i_d_at := i_valid - i_fb_at in
  (forall out, calculate_scores self = Ok out ->
     exists sc, dict_get out participant = Some sc /\
       feat_bug_PR sc = 3 * p_fb_at /\
       document_PR sc = 2 * p_d_at /\
       feat_bug_issue sc = 2 * i_fb_at /\
       document_issue sc = 1 * i_d_at /\
       total sc = 3 * p_fb_at + 2 * p_d_at + 2 * i_fb_at + 1 * i_d_at /\
       total sc = feat_bug_PR sc + document_PR sc + feat_bug_issue sc + document_issue sc) /\
  (all_nonneg (participants self) -> exists out, calculate_scores self = Ok out) /\
  (exists out sc, calculate_scores docs_heavy = Ok out /\
     dict_get out "alice" = Some sc /\ total sc = 18).
Proof.
  intros Hwf Hin H1 H2 H3 H4 H5 H6 _ _ _ _ _ _. cbv zeta.
  split; [| split].
  - intros out Hout.
    destruct (calculate_scores_entry _ _ _ _ Hwf Hout Hin) as (r & _ & Hget).
    eexists. split; [exact Hget |].
    cbn. unfold S_total, i_d_at, i_fb_at, p_d_at, p_fb_at, i_valid, p_valid, i_fb, p_fb,
      p_f, p_b, p_d, i_f, i_b, i_d, get.
    rewrite H1, H2, H3, H4, H5, H6. cbn. repeat split; lia.
  - intros Hnn. by apply calculate_scores_Ok.
  - eexists. eexists. split; [vm_compute; reflexivity |]. split; reflexivity.
Qed.

Lemma calculate_scores_formula_witness :
  exists out sc, calculate_scores docs_heavy = Ok out /\
    dict_get out "alice" = Some sc /\
    feat_bug_PR sc = 6 /\ document_PR sc = 12 /\ total sc = 18.
Proof.
  destruct (calculate_scores_formula docs_heavy "alice" (counts 2 0 10 0 0 0)
              2 0 10 0 0 0) as (Hentry & Hret & _);
    try reflexivity; try lia.
  - unfold dict_wf. compute_done.
  - left.
  - destruct Hret as [out Hout].
    + unfold all_nonneg, nonneg_counts. compute_done.
    + destruct (Hentry out Hout) as (sc & Hget & Hfb & Hdoc & _ & _ & Htot & _).
      exists out, sc. repeat split; assumption.
Defined.

(** ** Missing and negative counts *)

Lemma get_fill_missing (activities : gmap string Z) (key : string) :
  get (fill_missing activities) key = get activities key.
Proof.
  unfold fill_missing, count_keys. cbn [fold_right]. unfold get at 1.
  repeat (rewrite lookup_insert; case_decide; [by subst key |]).
  reflexivity.
Qed.

Lemma get_normalize (activities : gmap string Z) (key : string) :
  nonneg_counts activities -> get (normalize activities) key = get activities key.
Proof.
  intros Hnn. unfold normalize, count_keys. cbn [fold_right]. unfold get at 1.
  repeat (rewrite lookup_insert; case_decide;
          [subst key; rewrite Z.max_r by (by apply get_nonneg); reflexivity |]).
  reflexivity.
Qed.

(** The scores depend on an entry through its six [get]s only. *)
Lemma score_entry_ext (a b : gmap string Z) :
  (forall key, get a key = get b key) ->
  score_entry a = score_entry b /\ S_total a = S_total b.
Proof.
  intros H.
  unfold score_entry, S_total, i_d_at, i_fb_at, p_d_at, p_fb_at, i_valid, p_valid,
    i_fb, p_fb, p_f, p_b, p_d, i_f, i_b, i_d.
  by rewrite !H.
Qed.

Lemma calculate_scores_ext (f : gmap string Z -> gmap string Z) (self : RepoAnalyzer) :
  dict_wf (participants self) ->
  Forall (fun x => forall key, get (f (snd x)) key = get (snd x) key) (participants self) ->
  calculate_scores (map_entries f self) = calculate_scores self.
Proof.
  intros Hwf Hext.
  assert (Hkeys : dict_keys (participants (map_entries f self)) = dict_keys (participants self)).
  { cbn. unfold dict_keys. rewrite map_map. reflexivity. }
  rewrite !calculate_scores_wf; [| done | unfold dict_wf; by rewrite Hkeys].
  assert (Heq : scored (participants (map_entries f self)) = scored (participants self) /\
                sum_totals (participants (map_entries f self)) = sum_totals (participants self)).
  { cbn. clear Hwf Hkeys. induction Hext as [| [k a] ps Hx _ [IH1 IH2]]; [done |].
    cbn in Hx. destruct (score_entry_ext _ _ Hx) as [He Hs].
    cbn. unfold scored, sum_totals in *. cbn. rewrite He, Hs, IH1, IH2. done. }
  destruct Heq as [-> ->]. reflexivity.
Qed.

(** C2, counterexample: a count of [-1] enhancement PR gives the
    components [-3] and [-8] and the total [-11], while the mapping with
    that count replaced by 0 gives zeros. *)
Lemma negative_count_not_normalized : ~ normalization_claim_as_stated negative_count.
Proof.
  intros [H _]. vm_compute in H. discriminate H.
Qed.

(** C2, amended: a missing key counts as 0, so the output is the output
    on the mapping in which every missing count is entered as 0, and
    neither a KeyError nor a ZeroDivisionError is raised; a negative count
    is not normalised, it enters the formula as it is.  On non-negative
    counts the output is that of the normalised mapping and no error is
    raised at all (the one exception left, the overflow of the integer
    division, needs a total larger than the sum of the totals). *)
Theorem missing_counts_are_zero (self : RepoAnalyzer) :
  dict_wf (participants self) ->
  calculate_scores (map_entries fill_missing self) = calculate_scores self /\
  (forall e, calculate_scores self = Raise e -> e = OverflowError) /\
  (all_nonneg (participants self) ->
     calculate_scores (map_entries normalize self) = calculate_scores self /\
     exists out, calculate_scores self = Ok out).
Proof.
  intros Hwf. split; [| split].
  - apply calculate_scores_ext; [done |].
    apply Forall_forall. intros x _ key. apply get_fill_missing.
  - intros e. by apply calculate_scores_error.
  - intros Hnn. split; [| by apply calculate_scores_Ok].
    apply calculate_scores_ext; [done |].
    eapply Forall_impl; [exact Hnn |]. cbn. intros x Hx key. by apply get_normalize.
Qed.

Lemma missing_counts_are_zero_witness :
  calculate_scores (map_entries fill_missing negative_count)
  = calculate_scores negative_count.
Proof.
  apply (missing_counts_are_zero negative_count).
  unfold dict_wf. compute_done.
Defined.

(** ** The rates *)

Lemma totals_sum_perm (l k : pydict score) : l ≡ₚ k -> totals_sum l = totals_sum k.
Proof.
  induction 1 as [| x l k _ IH | x y l | l k m _ IH1 _ IH2]; unfold totals_sum in *; cbn;
    [done | lia | lia | congruence].
Qed.

Lemma totals_sum_calculate_scores (self : RepoAnalyzer) (out : pydict score) :
  dict_wf (participants self) -> calculate_scores self = Ok out ->
  totals_sum out = sum_totals (participants self).
Proof.
  intros Hwf. rewrite calculate_scores_wf by done.
  destruct (rated _ _) as [rd | e] eqn:Hrd; [| discriminate].
  cbn. intros [= <-]. rewrite (totals_sum_perm _ _ (sorted_reverse_perm _ rd)).
  apply scored_rated in Hrd.
  induction Hrd as [| x y ps rd (_ & r & _ & Hy) _ IH]; [done |].
  unfold totals_sum, sum_totals in *. cbn. rewrite IH, Hy. reflexivity.
Qed.

(** The rate stored for a participant is the rate of its total in the
    sum of the totals returned. *)
Lemma calculate_scores_rate (self : RepoAnalyzer) (out : pydict score)
    (participant : string) (sc : score) :
  dict_wf (participants self) -> calculate_scores self = Ok out ->
  (participant, sc) ∈ out ->
  exists r, rate_of (total sc) (totals_sum out) = Ok r /\ rate sc = Some r.
Proof.
  intros Hwf Hout Hin.
  rewrite (totals_sum_calculate_scores _ _ Hwf Hout).
  destruct (calculate_scores_entry_inv _ _ _ _ Hwf Hout Hin) as (a & r & _ & Hr & ->).
  exists r. by split.
Qed.

(** C3, counterexample: with totals 23 and 57 the code computes
    [23 / 80 * 100 = 28.749999999999996] and rounds it to 28.7, while
    [100 * 23 / 80 = 28.75] rounds to 28.8. *)
Lemma rate_of_23_in_80_is_not_the_rounded_percentage :
  ~ rate_claim_as_stated share_23_of_80.
Proof.
  intros [_ H].
  destruct (calculate_scores share_23_of_80) as [out | e] eqn:Hout;
    vm_compute in Hout; [| discriminate].
  injection Hout as <-.
  edestruct (H _ eq_refl "alice") as [Hpos _]; [right; left |].
  assert (Hr := Hpos ltac:(vm_compute; reflexivity)).
  vm_compute in Hr. discriminate Hr.
Qed.

(** The percentage 28.75 itself, rounded to one decimal with ties to
    even, is 28.8: the returned 28.7 is not a matter of the tie rule. *)
Lemma exact_share_23_of_80 :
  Binary64.round_half_even (100 * 23 * 10) 80 = 288 /\
  rate_of 23 80 = Ok (PyFloat (Binary64.of_tenths 287)) /\
  spec_rate 23 80 = PyFloat (Binary64.of_tenths 288).
Proof. repeat split; vm_compute; reflexivity. Qed.

(** C3, amended: whenever the sum of all totals is strictly positive,
    each participant's rate is [round((total / sum) * 100, 1)] computed as
    the code orders it, the quotient being rounded to a float before it
    is multiplied by 100 (which at a tie such as 23 of 80 gives 28.7
    where [round(100 * total / sum, 1)] gives 28.8); every rate is
    exactly the integer 0 when the sum is 0 (or less); the division by
    the sum is never performed when the sum is 0; and calculate_scores
    returns when the sum is 0 or less and when no count is negative. *)
Theorem rate_is_rounded_share (self : RepoAnalyzer) :
  dict_wf (participants self) ->
  calculate_scores self <> Raise ZeroDivisionError /\
  (sum_totals (participants self) <= 0 \/ all_nonneg (participants self) ->
   exists out, calculate_scores self = Ok out) /\
  forall out, calculate_scores self = Ok out ->
  forall participant sc, (participant, sc) ∈ out ->
    (0 < totals_sum out ->
       exists q, truediv (total sc) (totals_sum out) = Ok q /\
                 rate sc = Some (py_round (PyFloat (Binary64.mul q (Binary64.of_int 100))) 1)) /\
    (totals_sum out <= 0 -> rate sc = Some (PyInt 0)).
Proof.
  intros Hwf. split; [| split].
  - intros H. by apply calculate_scores_error in H.
  - intros [Hle | Hnn]; [| by apply calculate_scores_Ok].
    rewrite calculate_scores_wf by done.
    destruct (rated_total (scored (participants self)) (sum_totals (participants self)))
      as [rd Hrd].
    + apply Forall_forall. intros x _. rewrite rate_of_guard by done. by eexists.
    + rewrite Hrd. cbn. by eexists.
  - intros out Hout participant sc Hin.
    destruct (calculate_scores_rate _ _ _ _ Hwf Hout Hin) as (r & Hr & ->).
    split; intros Hs.
    + rewrite rate_of_pos in Hr by done.
      destruct (truediv _ _) as [q | e]; [| discriminate].
      cbn in Hr. injection Hr as <-. by exists q.
    + rewrite rate_of_guard in Hr by done. by injection Hr as <-.
Qed.

Lemma rate_is_rounded_share_witness :
  exists out sc, calculate_scores share_23_of_80 = Ok out /\
    dict_get out "alice" = Some sc /\
    rate sc = Some (PyFloat (Binary64.of_tenths 287)).
Proof.
  destruct (rate_is_rounded_share share_23_of_80) as (_ & Hret & H).
  - unfold dict_wf. compute_done.
  - destruct Hret as [out Hout].
    + right. unfold all_nonneg, nonneg_counts. compute_done.
    + assert (Hout' := Hout). vm_compute in Hout'. injection Hout' as Hout'.
      subst out.
      edestruct (H _ Hout "alice") as [Hpos _]; [right; left |].
      eexists _, _. split; [exact Hout |]. split; reflexivity.
Defined.

(** C7, counterexample: six equal totals get the rate 16.7 each, and
    6 * 16.7 = 100.2 is further than 0.1 from 100.0. *)
Lemma six_equal_rates_sum_to_100_2 : ~ rates_sum_claim_as_stated six_equal.
Proof.
  intros H. unfold rates_sum_claim_as_stated in H.
  destruct (calculate_scores six_equal) as [out | e] eqn:Hout;
    vm_compute in Hout; [| discriminate].
  injection Hout as <-.
  match type of H with
  | forall out, Ok ?o = Ok out -> _ => destruct (H o eq_refl) as [Hpos _]
  end.
  assert (Hs := Hpos ltac:(vm_compute; reflexivity)).
  vm_compute in Hs. by apply Hs.
Qed.

(** ** The order of the result *)

Lemma with_key_Forall2 {A B : Type} (keyA : A -> Z) (keyB : B -> Z)
    (nameA : A -> string) (nameB : B -> string) (l : list A) (k : list B) (v : Z) :
  Forall2 (fun x y => nameB y = nameA x /\ keyB y = keyA x) l k ->
  map nameB (with_key keyB v k) = map nameA (with_key keyA v l).
Proof.
  induction 1 as [| x y l k [Hn Hk] _ IH]; [done |].
  unfold with_key in *. cbn. rewrite Hk.
  destruct (keyA x =? v); cbn; by rewrite ?Hn, IH.
Qed.

(** C4: the mapping calculate_scores returns (and it does return on
    non-negative counts) is ordered by total, descending, and the sort
    is stable: the participants with one and the same total appear in
    the order in which the input mapping has them. *)
Theorem calculate_scores_sorted_stable (self : RepoAnalyzer) :
  dict_wf (participants self) ->
  (all_nonneg (participants self) -> exists out, calculate_scores self = Ok out) /\
  forall out, calculate_scores self = Ok out ->
    StronglySorted (desc by_total) out /\
    dict_keys out ≡ₚ dict_keys (participants self) /\
    forall v, dict_keys (with_key by_total v out)
              = dict_keys (with_key (fun x => S_total (snd x)) v (participants self)).
Proof.
  intros Hwf. split; [by apply calculate_scores_Ok |].
  intros out. rewrite calculate_scores_wf by done.
  destruct (rated _ _) as [rd | e] eqn:Hrd; [| discriminate].
  cbn. intros [= <-]. split; [| split].
  - apply sorted_reverse_sorted.
  - unfold dict_keys. rewrite (Permutation_map fst (sorted_reverse_perm _ rd)).
    apply rated_keys in Hrd. unfold dict_keys in Hrd. rewrite Hrd.
    fold (dict_keys (scored (participants self))). by rewrite scored_keys.
  - intros v. rewrite sorted_reverse_stable. unfold dict_keys.
    apply with_key_Forall2. apply scored_rated in Hrd.
    eapply Forall2_impl; [exact Hrd |].
    intros x y (Hk & r & _ & Hy). split; [done |].
    unfold by_total. by rewrite Hy.
Qed.

Lemma calculate_scores_sorted_stable_witness :
  exists out, calculate_scores two_ties = Ok out /\
    StronglySorted (desc by_total) out /\
    dict_keys (with_key by_total 6 out) = ["b"; "d"] /\
    dict_keys (with_key by_total 3 out) = ["a"; "c"].
Proof.
  destruct (calculate_scores_sorted_stable two_ties) as [Hret Hsorted].
  - unfold dict_wf. compute_done.
  - destruct Hret as [out Hout].
    + unfold all_nonneg, nonneg_counts. compute_done.
    + destruct (Hsorted out Hout) as (Hs & _ & Hst).
      exists out. split; [exact Hout |]. split; [exact Hs |].
      rewrite !Hst. split; vm_compute; reflexivity.
Defined.
(** ** Failed requests *)

(** C5, counterexample: the second request is answered 403 after a first
    page with one merged bug fix; the flag is down, and calculate_scores
    on that analyzer returns the scores of the first page. *)
Lemma scores_after_rate_limit : ~ incomplete_claim_as_stated rate_limited 2.
Proof.
  intros H. destruct (H 1%nat) as (self' & Hrun & _ & Hnone).
  - vm_compute. reflexivity.
  - vm_compute. discriminate.
  - lia.
  - vm_compute in Hrun. injection Hrun as <-.
    eapply Hnone. vm_compute. reflexivity.
Qed.

(** C5, amended: a request answered 403 or with any other status than
    200 ends the collection at once with [_data_collected] set to False,
    the counts of the pages before it staying in [self.participants];
    the flag is the whole signal: calculate_scores does not look at it
    and scores those counts as it would with the flag up, so keeping the
    Scorer off partial data is left to the caller. *)
Theorem failed_request_lowers_flag (retry_request : Z -> response) (n fuel : nat)
    (self : RepoAnalyzer) :
  continues retry_request n 1 = true ->
  status_code (retry_request (1 + Z.of_nat n)) <> 200 ->
  (n < fuel)%nat ->
  exists self',
    collect_PRs_and_issues retry_request fuel self = Some self' /\
    _data_collected self' = false /\
    participants self'
    = fold_left process_item (fetched retry_request n 1) (participants self) /\
    calculate_scores self' = calculate_scores (set_data_collected self' true).
Proof.
  intros Hc Hst Hf. unfold collect_PRs_and_issues.
  rewrite (collect_loop_aborts retry_request n fuel 1 self Hc Hst Hf).
  eexists. split; [reflexivity |]. repeat split.
Qed.

Lemma failed_request_lowers_flag_witness :
  exists self',
    collect_PRs_and_issues rate_limited 2 init = Some self' /\
    _data_collected self' = false /\
    calculate_scores self' = calculate_scores (set_data_collected self' true).
Proof.
  destruct (failed_request_lowers_flag rate_limited 1 2 init)
    as (self' & Hrun & Hflag & _ & Hscore).
  - vm_compute. reflexivity.
  - vm_compute. discriminate.
  - lia.
  - exists self'. repeat split; assumption.
Defined.

(** ** The sum of the rates *)

(** C7, amended: when the sum of all totals is 0 every rate is the integer
    0 and the rates sum to 0.  When it is strictly positive and the
    counts are not negative, every rate is within 0.05 of the
    participant's exact share (and [10 ^ (-12)] more for the roundings in
    binary), so the sum of the rates is within that much per participant
    of 100.0: within 0.1 of it for one participant, not in general. *)
Theorem rates_sum_close (self : RepoAnalyzer) :
  dict_wf (participants self) ->
  (forall out, calculate_scores self = Ok out -> totals_sum out <= 0 ->
     (forall participant sc, (participant, sc) ∈ out -> rate sc = Some (PyInt 0)) /\
     (sum_rates out == 0)%Q) /\
  (all_nonneg (participants self) ->
   exists out, calculate_scores self = Ok out /\
     (0 < totals_sum out ->
      (Qabs (sum_rates out - 100)
       <= inject_Z (Z.of_nat (length out)) * rate_slack)%Q)).
Proof.
  intros Hwf. split.
  - intros out Hout Hle.
    assert (Hall : forall participant sc,
               (participant, sc) ∈ out -> rate sc = Some (PyInt 0)).
    { intros participant sc Hin.
      destruct (calculate_scores_rate _ _ _ _ Hwf Hout Hin) as (r & Hr & ->).
      rewrite rate_of_guard in Hr by done. by injection Hr as <-. }
    split; [exact Hall |].
    clear Hout Hle. induction out as [| [k sc] out IH]; [reflexivity |].
    unfold sum_rates in *. cbn [fold_right snd].
    rewrite (Hall k sc) by left. rewrite IH.
    + reflexivity.
    + intros p s Hin. apply (Hall p s). by right.
  - intros Hnn. destruct (calculate_scores_Ok self Hwf Hnn) as [out Hout].
    exists out. split; [exact Hout |]. intros Hpos.
    pose proof (totals_sum_calculate_scores _ _ Hwf Hout) as Hsum.
    destruct (sum_totals_bounds _ Hnn) as [_ Hb]. rewrite Forall_forall in Hb.
    rewrite <- (share_whole (totals_sum out) Hpos) at 1.
    apply sum_rates_close. apply Forall_forall. intros [k sc] Hin.
    destruct (calculate_scores_entry_inv _ _ _ _ Hwf Hout Hin) as (a & r & Ha & Hr & ->).
    cbn [snd set_rate rate total score_entry].
    specialize (Hb _ Ha). cbn [snd] in Hb. rewrite <- Hsum in Hb, Hr.
    destruct (rate_of_close (S_total a) (totals_sum out) Hb Hpos) as (f & Hf & Hclose).
    rewrite Hr in Hf. injection Hf as ->. exact Hclose.
Qed.

Lemma rates_sum_close_witness :
  exists out, calculate_scores six_equal = Ok out /\
    (Qabs (sum_rates out - 100) <= 6 * rate_slack)%Q.
Proof.
  destruct (rates_sum_close six_equal) as [_ H].
  - unfold dict_wf. compute_done.
  - destruct H as (out & Hout & Hclose).
    + unfold all_nonneg, nonneg_counts. compute_done.
    + exists out. split; [exact Hout |].
      assert (Hout' := Hout). vm_compute in Hout'. injection Hout' as <-.
      apply Hclose. vm_compute. reflexivity.
Defined.

(** ** The scenarios of the specification, evaluated *)

(** Totals 30 and 10 give the rates 75.0 and 25.0. *)
Example rates_75_25 :
  calculate_scores (analyzer_of [("b", counts 2 0 2 0 0 0); ("a", counts 10 0 0 0 0 0)])
  = Ok [("a", {| feat_bug_PR := 30; document_PR := 0; feat_bug_issue := 0;
                 document_issue := 0; total := 30;
                 rate := Some (PyFloat (Binary64.of_tenths 750)) |});
        ("b", {| feat_bug_PR := 6; document_PR := 4; feat_bug_issue := 0;
                 document_issue := 0; total := 10;
                 rate := Some (PyFloat (Binary64.of_tenths 250)) |})].
Proof. vm_compute. reflexivity. Qed.

(** A participant with all counts zero: total 0, rate 0. *)
Example all_zero :
  calculate_scores (analyzer_of [("a", zero_counts)])
  = Ok [("a", {| feat_bug_PR := 0; document_PR := 0; feat_bug_issue := 0;
                 document_issue := 0; total := 0; rate := Some (PyInt 0) |})].
Proof. vm_compute. reflexivity. Qed.

(** Without feature or bug PRs at most three documentation PRs count,
    and issues count up to four times the validated PRs. *)
Example documentation_only :
  p_valid (counts 0 0 7 0 0 0) = 3 /\
  i_valid (counts 0 0 7 5 5 5) = 12 /\
  S_total (counts 0 0 7 5 5 5) = 2 * 3 + 2 * 10 + 1 * 2.
Proof. repeat split; vm_compute; reflexivity. Qed.

(** The page of [one_page]: the merged pull request of alice counts for
    its two scoring labels, nothing else counts. *)
Example one_page_counts :
  (fun self => map (fun x => (fst x, map_to_list (snd x))) (participants self))
    <$> collect_PRs_and_issues one_page 1 init
  = Some [("alice", map_to_list (counts 0 1 1 0 0 0));
          ("bob", map_to_list zero_counts);
          ("carol", map_to_list zero_counts);
          ("dave", map_to_list zero_counts)].
Proof. vm_compute. reflexivity. Qed.

(* ================================================================== *)
(** * Further properties *)

(** ** The capping formula on non-negative counts *)

Ltac unfold_formula :=
  unfold uncapped, S_total, i_d_at, i_fb_at, p_d_at, p_fb_at, i_valid, p_valid,
    i_fb, p_fb, p_f, p_b, p_d, i_f, i_b, i_d in *.

Ltac six_nonneg a H :=
  pose proof (get_nonneg a "p_enhancement" H);
  pose proof (get_nonneg a "p_bug" H);
  pose proof (get_nonneg a "p_documentation" H);
  pose proof (get_nonneg a "i_enhancement" H);
  pose proof (get_nonneg a "i_bug" H);
  pose proof (get_nonneg a "i_documentation" H).

(** X1: on non-negative counts no credit exceeds the activity it stands
    for: the feature and bug PRs are credited in full, the documentation
    PRs up to three per feature or bug PR (three without any), the
    issues up to four per credited PR, and the documentation issues are
    credited only once the feature and bug issues are credited in full. *)
Theorem credit_within_activity (activities : gmap string Z) :
  nonneg_counts activities ->
  p_fb_at activities = p_fb activities /\
  0 <= p_d_at activities <= p_d activities /\
  p_d_at activities <= 3 * Z.max 1 (p_fb activities) /\
  0 <= i_fb_at activities <= i_fb activities /\
  0 <= i_d_at activities <= i_d activities /\
  i_fb_at activities + i_d_at activities
    <= 4 * (p_fb_at activities + p_d_at activities) /\
  (0 < i_d_at activities -> i_fb_at activities = i_fb activities).
Proof.
  intros H. six_nonneg activities H. unfold_formula. lia.
Qed.

Lemma credit_within_activity_witness :
  p_fb_at (counts 2 0 10 9 9 50) = p_fb (counts 2 0 10 9 9 50) /\
  0 <= p_d_at (counts 2 0 10 9 9 50) <= p_d (counts 2 0 10 9 9 50) /\
  p_d_at (counts 2 0 10 9 9 50) <= 3 * Z.max 1 (p_fb (counts 2 0 10 9 9 50)) /\
  0 <= i_fb_at (counts 2 0 10 9 9 50) <= i_fb (counts 2 0 10 9 9 50) /\
  0 <= i_d_at (counts 2 0 10 9 9 50) <= i_d (counts 2 0 10 9 9 50) /\
  i_fb_at (counts 2 0 10 9 9 50) + i_d_at (counts 2 0 10 9 9 50)
    <= 4 * (p_fb_at (counts 2 0 10 9 9 50) + p_d_at (counts 2 0 10 9 9 50)) /\
  (0 < i_d_at (counts 2 0 10 9 9 50) ->
   i_fb_at (counts 2 0 10 9 9 50) = i_fb (counts 2 0 10 9 9 50)).
Proof.
  apply (credit_within_activity (counts 2 0 10 9 9 50)).
  unfold nonneg_counts. compute_done.
Defined.

(** X2: on non-negative counts the total lies between 0 and the
    uncapped weighted sum and is that sum when neither cap binds.  It
    is at most eleven points for each feature or bug PR and ten for
    each credited documentation PR, issues included: without a feature
    or bug PR it is at most 30, and without any pull request it is 0
    whatever the issues. *)
Theorem total_bounds (activities : gmap string Z) :
  nonneg_counts activities ->
  0 <= S_total activities <= uncapped activities /\
  S_total activities <= 11 * p_fb activities + 10 * p_d_at activities /\
  (p_d activities <= 3 * Z.max 1 (p_fb activities) ->
   i_fb activities + i_d activities <= 4 * (p_fb activities + p_d activities) ->
   S_total activities = uncapped activities) /\
  (p_fb activities = 0 -> S_total activities <= 30) /\
  (p_fb activities = 0 -> p_d activities = 0 ->
   score_entry activities
   = {| feat_bug_PR := 0; document_PR := 0; feat_bug_issue := 0;
        document_issue := 0; total := 0; rate := None |}).
Proof.
  intros H. six_nonneg activities H.
  repeat split; try (unfold_formula; lia).
  intros Hfb Hd. unfold score_entry. f_equal; unfold_formula; lia.
Qed.

Lemma total_bounds_witness :
  S_total (counts 0 0 0 40 30 20) = 0 /\ uncapped (counts 0 0 0 40 30 20) = 160 /\
  S_total (counts 0 0 9 40 30 20) <= 30.
Proof.
  destruct (total_bounds (counts 0 0 0 40 30 20)) as (_ & _ & _ & _ & Hzero);
    [unfold nonneg_counts; compute_done |].
  destruct (total_bounds (counts 0 0 9 40 30 20)) as (_ & _ & _ & Hdocs & _);
    [unfold nonneg_counts; compute_done |].
  split; [| split; [reflexivity | by apply Hdocs]].
  change (S_total (counts 0 0 0 40 30 20))
    with (total (score_entry (counts 0 0 0 40 30 20))).
  by rewrite Hzero.
Defined.

(** X3: more activity never lowers a score: when no count of [b] is
    below that of [a] and the counts of [a] are not negative, the total
    of [b] is at least the total of [a]. *)
Theorem total_monotone (a b : gmap string Z) :
  nonneg_counts a -> counts_le a b -> S_total a <= S_total b.
Proof.
  intros H Hle. six_nonneg a H.
  pose proof (Hle "p_enhancement"). pose proof (Hle "p_bug").
  pose proof (Hle "p_documentation"). pose proof (Hle "i_enhancement").
  pose proof (Hle "i_bug"). pose proof (Hle "i_documentation").
  unfold_formula. lia.
Qed.

Lemma total_monotone_witness :
  S_total (counts 1 0 2 3 0 1) <= S_total (counts 1 1 2 3 0 4).
Proof.
  apply total_monotone.
  - unfold nonneg_counts. compute_done.
  - intros key. unfold get, counts.
    rewrite !lookup_insert, !lookup_empty.
    repeat (case_decide; [cbn; lia |]). done.
Defined.

(** ** The rates are decimals with one digit *)

Section Binary64Exponent.
Import Binary64.

(** The exponent a rounding ends with is at most one above the one the
    first shift picks. *)
Lemma binary_round_aux_exp (m e : Z) (l : location) (m2 : positive) (e2 : Z) :
  0 <= m ->
  binary_round_aux prec emax false m e l = S754_finite false m2 e2 ->
  e2 <= Z.max e (fexp prec emax (Zdigits2 m + e)) + 1.
Proof.
  intros Hm. unfold binary_round_aux.
  destruct (shr_fexp_spec m e l Hm) as [He1 Hm1].
  pose proof (shr_fexp_digits m e Hm) as Hdig.
  destruct (shr_fexp prec emax m e l) as [mrs1 e1]. cbn [fst snd] in He1, Hm1.
  set (E := Z.max e (fexp prec emax (Zdigits2 m + e))) in *. subst e1.
  set (m' := shr_m mrs1) in *.
  set (m1 := round_nearest_even m' (loc_of_shr_record mrs1)) in *.
  assert (HEe : 0 <= E - e) by (unfold E; lia).
  assert (Ha : 0 < 2 ^ (E - e)) by (apply Z.pow_pos_nonneg; lia).
  assert (Hm'0 : 0 <= m') by (rewrite Hm1; apply Z.div_pos; lia).
  assert (Hm1' : m' <= m1 <= m' + 1).
  { unfold m1, round_nearest_even.
    destruct (loc_of_shr_record mrs1) as [| []]; try lia.
    destruct (Z.even m'); lia. }
  destruct (shr_fexp_spec m1 E loc_Exact ltac:(lia)) as [He2 Hm2].
  destruct (shr_fexp prec emax m1 E loc_Exact) as [mrs2 e2']. cbn [fst snd] in He2, Hm2.
  assert (Hd1 : Zdigits2 m1 <= prec + 1).
  { apply Zdigits2_le; [lia | unfold prec; lia |].
    rewrite Z.pow_add_r by (unfold prec; lia). change (2 ^ 1) with 2. lia. }
  assert (Hemin : SpecFloat.emin prec emax <= E) by (unfold E, fexp; lia).
  assert (HE2 : e2' <= E + 1) by (rewrite He2; unfold fexp; lia).
  destruct (shr_m mrs2) as [| p | p]; try discriminate.
  destruct (e2' <=? emax - prec); [| discriminate].
  intros [= _ <-]. exact HE2.
Qed.

(** The product by 100 of a float of value at most about one has a
    negative exponent: it is not taken for an integer by [round]. *)
Lemma mul_hundred_exp (m : positive) (e K : Z) (m2 : positive) (e2 : Z) :
  -1074 <= e -> 1074 <= K ->
  scaled K (S754_finite false m e) <= 2 ^ K + 2 ^ (K - 49) ->
  mul (S754_finite false m e) (of_int 100) = S754_finite false m2 e2 ->
  e2 <= -44.
Proof.
  intros He HK Hle. cbn [scaled] in Hle.
  change (of_int 100) with (S754_finite false 7036874417766400 (-46)).
  unfold mul. cbn [SFmul xorb]. intros Hx.
  assert (HP : 0 < 2 ^ (e + K)) by (apply Z.pow_pos_nonneg; lia).
  assert (HX : 0 < 2 ^ (K - 49)) by (apply Z.pow_pos_nonneg; lia).
  assert (H49 : 2 ^ K = 2 ^ 49 * 2 ^ (K - 49)).
  { rewrite <- Z.pow_add_r by lia. f_equal. lia. }
  assert (He0 : e <= 0).
  { assert (2 ^ (e + K) < 2 ^ (K + 1)).
    { rewrite Z.pow_add_r with (c := 1) by lia. change (2 ^ 1) with 2. nia. }
    apply Z.pow_lt_mono_r_iff in H; lia. }
  assert (Hm54 : Zpos (m * 7036874417766400) < 2 ^ (8 - (e + -46))).
  { assert (H54 : 2 ^ (K + 54) = 2 ^ (8 - (e + -46)) * 2 ^ (e + K)).
    { rewrite <- Z.pow_add_r by lia. f_equal. lia. }
    assert (H54' : 2 ^ (K + 54) = 2 ^ 54 * 2 ^ K).
    { rewrite <- Z.pow_add_r by lia. f_equal. lia. }
    assert (Zpos (m * 7036874417766400) * 2 ^ (e + K) < 2 ^ (K + 54)).
    { rewrite H54', Pos2Z.inj_mul. rewrite H49 in *.
      change (2 ^ 54) with 18014398509481984. change (2 ^ 49) with 562949953421312 in *.
      nia. }
    rewrite H54 in H. nia. }
  apply binary_round_aux_exp in Hx; [| lia].
  assert (Zdigits2 (Zpos (m * 7036874417766400)) <= 8 - (e + -46)).
  { apply Zdigits2_le; [lia | lia | exact Hm54]. }
  revert Hx. unfold fexp, SpecFloat.emin, prec, emax. lia.
Qed.
End Binary64Exponent.

(** The rate of [0 <= t <= b] is the float of a number of tenths [r]
    that is within [1/2 + 2 ^ (-38)] of [1000 * t / b]. *)
Lemma rate_of_tenths (t b : Z) :
  0 <= t <= b -> 0 < b ->
  exists r, rate_of t b = Ok (PyFloat (Binary64.of_tenths r)) /\
    0 <= r <= 1000 /\
    2 ^ 38 * Z.abs (r * b - 1000 * t) <= b * (2 ^ 37 + 1).
Proof.
  intros Ht Hb. rewrite rate_of_pos, truediv_Ok by lia. cbn [mbind result_bind].
  assert (H1074 : 2 ^ 1074 = 562949953421312 * 2 ^ 1025) by reflexivity.
  assert (H1077 : 2 ^ 1077 = 4503599627370496 * 2 ^ 1025) by reflexivity.
  assert (H1120 : 2 ^ 1120 = 39614081257132168796771975168 * 2 ^ 1025) by reflexivity.
  assert (HP : 0 < 2 ^ 1025) by (apply Z.pow_pos_nonneg; lia).
  change (2 ^ 38) with 274877906944. change (2 ^ 37 + 1) with 137438953473.
  assert (Hzero : Binary64.of_tenths 0 = S754_zero false) by reflexivity.
  destruct (Z.eq_dec t 0) as [-> | Ht0].
  { assert (Hz : Binary64.div_int 0 b = S754_zero false).
    { unfold Binary64.div_int, Binary64.div_mag.
      destruct (Z.ltb_spec b 0); [lia | reflexivity]. }
    rewrite Hz. exists 0. split; [reflexivity | lia]. }
  destruct (div_int_bound t b 1074) as [Hshape Hq]; [lia | lia |].
  change (2 ^ (1074 - 49)) with (2 ^ 1025) in Hq. rewrite H1074 in Hq.
  assert (HtP : t * 2 ^ 1025 <= b * 2 ^ 1025) by (apply Z.mul_le_mono_nonneg_r; lia).
  assert (HbP : 0 < b * 2 ^ 1025) by (apply Z.mul_pos_pos; lia).
  destruct Hshape as [Hz | (mq & eq & Hfin & Heq)].
  { rewrite Hz in *. cbn [scaled] in Hq. exists 0. split; [reflexivity |].
    split; [lia |]. remember (2 ^ 1025) as P. nia. }
  rewrite Hfin in *.
  set (Sq := scaled 1074 (S754_finite false mq eq)) in *.
  assert (HSq : Sq <= 2 ^ 1074 + 2 ^ (1074 - 49)).
  { change (2 ^ (1074 - 49)) with (2 ^ 1025). rewrite H1074.
    apply (Z.mul_le_mono_pos_r _ _ b Hb). remember (2 ^ 1025) as P. lia. }
  destruct (mul_hundred_bound mq eq 1074 Heq ltac:(lia) HSq) as [Hxshape Hx].
  pose proof (mul_hundred_exp mq eq 1074) as Hexp.
  fold Sq in Hx. change (1074 + 46) with 1120 in Hx. change (1074 + 3) with 1077 in Hx.
  rewrite H1077 in Hx. change (2 ^ 46) with 70368744177664 in Hx.
  set (x := Binary64.mul (S754_finite false mq eq) (Binary64.of_int 100)) in *.
  set (X := scaled 1120 x) in *.
  apply (mul_bounds _ _ _ b ltac:(lia)) in Hx.
  assert (HXb : Z.abs (X * b - 100 * t * (39614081257132168796771975168 * 2 ^ 1025))
                <= 11540474045136896 * (b * 2 ^ 1025)).
  { remember (2 ^ 1025) as P. lia. }
  destruct Hxshape as [Hxz | (mx & ex & Hxfin & Hex)].
  { assert (HX0 : X = 0) by (unfold X; by rewrite Hxz).
    rewrite Hxz, round_ndigits_zero. exists 0. split; [reflexivity |].
    split; [lia |]. rewrite HX0 in HXb. remember (2 ^ 1025) as P. lia. }
  assert (HXdef : X = Z.pos mx * 2 ^ (ex + 1120)) by (unfold X; by rewrite Hxfin).
  specialize (Hexp mx ex Heq ltac:(lia) HSq Hxfin).
  rewrite Hxfin. unfold Binary64.round_ndigits.
  destruct (Z.leb_spec 0 ex) as [Hpos | Hneg]; [lia |].
  change (10 ^ 1) with 10.
  set (r := Binary64.round_half_even (Z.pos mx * 10) (2 ^ (- ex))).
  assert (HD : 0 < 2 ^ (- ex)) by (apply Z.pow_pos_nonneg; lia).
  pose proof (round_half_even_bound (Z.pos mx * 10) (2 ^ (- ex)) HD) as Hr. fold r in Hr.
  pose proof (round_half_even_nonneg (Z.pos mx * 10) (2 ^ (- ex)) ltac:(lia) HD) as Hr0.
  fold r in Hr0.
  assert (HE : 0 < 2 ^ (ex + 1120)) by (apply Z.pow_pos_nonneg; lia).
  assert (HDX : 2 ^ (- ex) * 2 ^ (ex + 1120) = 39614081257132168796771975168 * 2 ^ 1025).
  { rewrite <- H1120, <- Z.pow_add_r by lia. f_equal. lia. }
  assert (HrX : 2 * Z.abs (r * (39614081257132168796771975168 * 2 ^ 1025) - 10 * X)
                <= 39614081257132168796771975168 * 2 ^ 1025).
  { rewrite <- HDX, HXdef.
    assert (Hr' : - 2 ^ (- ex) <= 2 * (r * 2 ^ (- ex) - Z.pos mx * 10) <= 2 ^ (- ex)) by lia.
    apply (mul_bounds _ _ _ (2 ^ (ex + 1120)) ltac:(lia)) in Hr'.
    remember (2 ^ (- ex)) as D. remember (2 ^ (ex + 1120)) as E. lia. }
  assert (HXle : X <= 100 * (39614081257132168796771975168 * 2 ^ 1025)
                      + 11540474045136896 * 2 ^ 1025).
  { apply (Z.mul_le_mono_pos_r _ _ b Hb). remember (2 ^ 1025) as P. lia. }
  assert (Hr1000 : r <= 1000).
  { assert (r < 1001); [| lia].
    apply (Z.mul_lt_mono_pos_r (39614081257132168796771975168 * 2 ^ 1025)); [lia |].
    remember (2 ^ 1025) as P. lia. }
  assert (Hv : - (39614081257132168796771975168 * 2 ^ 1025)
               <= 2 * (r * (39614081257132168796771975168 * 2 ^ 1025) - 10 * X)
               <= 39614081257132168796771975168 * 2 ^ 1025) by lia.
  apply (mul_bounds _ _ _ b ltac:(lia)) in Hv.
  exists r. split; [| split; [lia |]].
  { do 2 f_equal. unfold Binary64.of_tenths, Binary64.div_int.
    destruct (Z.ltb_spec r 0); [lia | reflexivity]. }
  assert (Hfinal : 274877906944 * Z.abs (r * b - 1000 * t) * 2 ^ 1025
                   <= b * 137438953473 * 2 ^ 1025).
  { remember (2 ^ 1025) as P.
    replace (274877906944 * Z.abs (r * b - 1000 * t) * P)
      with (274877906944 * Z.abs ((r * b - 1000 * t) * P)) by (rewrite Z.abs_mul; lia).
    lia. }
  apply Z.mul_le_mono_pos_r in Hfinal; lia.
Qed.

(** ** calculate_scores: the rates of a returned mapping *)

Lemma calculate_scores_total_range (self : RepoAnalyzer) (out : pydict score)
    (participant : string) (sc : score) :
  dict_wf (participants self) -> all_nonneg (participants self) ->
  calculate_scores self = Ok out -> (participant, sc) ∈ out ->
  0 <= total sc <= totals_sum out.
Proof.
  intros Hwf Hnn Hout Hin.
  rewrite (totals_sum_calculate_scores _ _ Hwf Hout).
  destruct (sum_totals_bounds _ Hnn) as [_ Hb]. rewrite Forall_forall in Hb.
  destruct (calculate_scores_entry_inv _ _ _ _ Hwf Hout Hin) as (a & r & Ha & _ & ->).
  exact (Hb _ Ha).
Qed.

(** X4: on non-negative counts with a positive sum of totals every rate
    is the float of a decimal with one digit between 0.0 and 100.0, and
    that decimal is one of the two nearest to the participant's exact
    share of 100 (it is within 0.05 + 10 ^ (-12) of it). *)
Theorem rates_are_tenths (self : RepoAnalyzer) (out : pydict score)
    (participant : string) (sc : score) :
  dict_wf (participants self) -> all_nonneg (participants self) ->
  calculate_scores self = Ok out -> (participant, sc) ∈ out ->
  0 < totals_sum out ->
  exists r, rate sc = Some (PyFloat (Binary64.of_tenths r)) /\
    0 <= r <= 1000 /\
    2 ^ 38 * Z.abs (r * totals_sum out - 1000 * total sc)
      <= totals_sum out * (2 ^ 37 + 1).
Proof.
  intros Hwf Hnn Hout Hin Hpos.
  pose proof (calculate_scores_total_range _ _ _ _ Hwf Hnn Hout Hin) as Hrange.
  destruct (calculate_scores_rate _ _ _ _ Hwf Hout Hin) as (x & Hx & ->).
  destruct (rate_of_tenths _ _ Hrange Hpos) as (r & Hr & Hr01 & Hclose).
  exists r. rewrite Hx in Hr. injection Hr as ->. done.
Qed.

Lemma rates_are_tenths_witness :
  exists out sc r,
    calculate_scores six_equal = Ok out /\ ("a", sc) ∈ out /\
    rate sc = Some (PyFloat (Binary64.of_tenths r)) /\ 0 <= r <= 1000.
Proof.
  assert (H : exists out sc, calculate_scores six_equal = Ok out /\
                ("a", sc) ∈ out /\ 0 < totals_sum out).
  { eexists _, _. split; [vm_compute; reflexivity |]. split; [left | reflexivity]. }
  destruct H as (out & sc & Hout & Hin & Hpos).
  destruct (rates_are_tenths six_equal out "a" sc) as (r & Hr & Hr01 & _);
    [| | exact Hout | exact Hin | exact Hpos |].
  - unfold dict_wf. compute_done.
  - unfold all_nonneg, nonneg_counts. compute_done.
  - exists out, sc, r. split; [exact Hout |]. split; [exact Hin |].
    split; [exact Hr | exact Hr01].
Defined.

(** X5: when the exact share of a participant is a whole number of
    tenths of a percent, [1000 * total = k * sum_of_all_totals], the
    rate is exactly the decimal [k / 10]; the only scorer of a
    repository has rate 100.0, a participant with total 0 has 0.0. *)
Theorem rate_exact_on_tenths (self : RepoAnalyzer) (out : pydict score)
    (participant : string) (sc : score) (k : Z) :
  dict_wf (participants self) -> all_nonneg (participants self) ->
  calculate_scores self = Ok out -> (participant, sc) ∈ out ->
  0 < totals_sum out ->
  1000 * total sc = k * totals_sum out ->
  rate sc = Some (PyFloat (Binary64.of_tenths k)).
Proof.
  intros Hwf Hnn Hout Hin Hpos Hk.
  pose proof (calculate_scores_total_range _ _ _ _ Hwf Hnn Hout Hin) as Hrange.
  destruct (calculate_scores_rate _ _ _ _ Hwf Hout Hin) as (x & Hx & ->).
  destruct (rate_of_tenths _ _ Hrange Hpos) as (r & Hr & Hr01 & Hclose).
  rewrite Hx in Hr. injection Hr as ->.
  rewrite Hk in Hclose.
  replace (r * totals_sum out - k * totals_sum out)
    with ((r - k) * totals_sum out) in Hclose by lia.
  rewrite Z.abs_mul, (Z.abs_eq (totals_sum out)) in Hclose by lia.
  change (2 ^ 38) with 274877906944 in Hclose.
  change (2 ^ 37 + 1) with 137438953473 in Hclose.
  assert (Z.abs (r - k) < 1); [| do 3 f_equal; lia].
  apply (Z.mul_lt_mono_pos_r (totals_sum out)); [lia |]. lia.
Qed.

Lemma rate_exact_on_tenths_witness :
  exists out sc,
    calculate_scores three_to_one = Ok out /\ ("b", sc) ∈ out /\
    rate sc = Some (PyFloat (Binary64.of_tenths 250)).
Proof.
  assert (H : exists out sc, calculate_scores three_to_one = Ok out /\
                ("b", sc) ∈ out /\ 0 < totals_sum out /\
                1000 * total sc = 250 * totals_sum out).
  { eexists _, _. split; [vm_compute; reflexivity |].
    split; [right; left |]. split; reflexivity. }
  destruct H as (out & sc & Hout & Hin & Hpos & Hk).
  exists out, sc. split; [exact Hout |]. split; [exact Hin |].
  apply (rate_exact_on_tenths three_to_one out "b" sc 250);
    [| | exact Hout | exact Hin | exact Hpos | exact Hk].
  - unfold dict_wf. compute_done.
  - unfold all_nonneg, nonneg_counts. compute_done.
Defined.

(** The floats of the decimals 0.0, 0.1, ..., 100.0 are in the order of
    the decimals. *)
Lemma of_tenths_mono (r1 r2 : Z) :
  0 <= r1 <= r2 -> r2 <= 1000 ->
  (Binary64.to_Q (Binary64.of_tenths r1) <= Binary64.to_Q (Binary64.of_tenths r2))%Q.
Proof.
  intros [H0 Hle]. revert r2 Hle.
  assert (Hall : forallb tenth_steps_up (map Z.of_nat (seq 0 1000)) = true)
    by (vm_compute; reflexivity).
  rewrite forallb_forall in Hall.
  apply (Z.le_ind (fun r2 => r2 <= 1000 ->
    (Binary64.to_Q (Binary64.of_tenths r1) <= Binary64.to_Q (Binary64.of_tenths r2))%Q)).
  - intros x y ->. done.
  - intros _. apply Qle_refl.
  - intros m Hm IH Hm'. eapply Qle_trans; [apply IH; lia |].
    apply Qle_bool_iff. apply (Hall m).
    apply in_map_iff. exists (Z.to_nat m). split; [lia |]. apply in_seq. lia.
Qed.

(** X6: the rates follow the totals: as long as the sum of all totals
    is below [2 ^ 46], a participant with a larger total never has a
    smaller rate, and participants of equal total have equal rates, so
    the returned mapping is in descending order of the rates as well. *)
Theorem rates_follow_totals (self : RepoAnalyzer) (out : pydict score)
    (p1 p2 : string) (sc1 sc2 : score) :
  dict_wf (participants self) -> all_nonneg (participants self) ->
  calculate_scores self = Ok out ->
  (p1, sc1) ∈ out -> (p2, sc2) ∈ out ->
  0 < totals_sum out < 2 ^ 46 ->
  total sc1 <= total sc2 ->
  (total sc1 = total sc2 -> rate sc1 = rate sc2) /\
  (rate_value (rate sc1) <= rate_value (rate sc2))%Q.
Proof.
  intros Hwf Hnn Hout Hin1 Hin2 [Hpos Hsmall] Hle.
  pose proof (calculate_scores_total_range _ _ _ _ Hwf Hnn Hout Hin1) as Hrange1.
  pose proof (calculate_scores_total_range _ _ _ _ Hwf Hnn Hout Hin2) as Hrange2.
  destruct (calculate_scores_rate _ _ _ _ Hwf Hout Hin1) as (x1 & Hx1 & Hrate1).
  destruct (calculate_scores_rate _ _ _ _ Hwf Hout Hin2) as (x2 & Hx2 & Hrate2).
  assert (Heq : total sc1 = total sc2 -> rate sc1 = rate sc2).
  { intros Heq. rewrite Heq, Hx2 in Hx1. injection Hx1 as <-. by rewrite Hrate1. }
  split; [exact Heq |].
  destruct (Z.eq_dec (total sc1) (total sc2)) as [He | Hne].
  { rewrite (Heq He). apply Qle_refl. }
  destruct (rate_of_tenths _ _ Hrange1 Hpos) as (r1 & Hr1 & Hr1' & Hclose1).
  destruct (rate_of_tenths _ _ Hrange2 Hpos) as (r2 & Hr2 & Hr2' & Hclose2).
  rewrite Hx1 in Hr1. injection Hr1 as ->.
  rewrite Hx2 in Hr2. injection Hr2 as ->.
  rewrite Hrate1, Hrate2. cbn [rate_value].
  apply of_tenths_mono; [| lia]. split; [lia |].
  destruct (Z.le_gt_cases r1 r2) as [Hr | Hr]; [exact Hr | exfalso].
  assert (Hmul : (r2 + 1) * totals_sum out <= r1 * totals_sum out)
    by (apply Z.mul_le_mono_nonneg_r; lia).
  change (2 ^ 38) with 274877906944 in Hclose1, Hclose2.
  change (2 ^ 37 + 1) with 137438953473 in Hclose1, Hclose2.
  change (2 ^ 46) with 70368744177664 in Hsmall.
  lia.
Qed.

Lemma rates_follow_totals_witness :
  exists out sc1 sc2,
    calculate_scores three_to_one = Ok out /\
    ("b", sc1) ∈ out /\ ("a", sc2) ∈ out /\
    (rate_value (rate sc1) <= rate_value (rate sc2))%Q.
Proof.
  assert (H : exists out sc1 sc2, calculate_scores three_to_one = Ok out /\
                ("b", sc1) ∈ out /\ ("a", sc2) ∈ out /\
                0 < totals_sum out < 2 ^ 46 /\ total sc1 <= total sc2).
  { eexists _, _, _. split; [vm_compute; reflexivity |].
    split; [right; left |]. split; [left |]. split; [split; reflexivity |].
    vm_compute. discriminate. }
  destruct H as (out & sc1 & sc2 & Hout & Hin1 & Hin2 & Hsum & Hle).
  destruct (rates_follow_totals three_to_one out "b" "a" sc1 sc2)
    as (_ & Hr);
    [| | exact Hout | exact Hin1 | exact Hin2 | exact Hsum | exact Hle |].
  - unfold dict_wf. compute_done.
  - unfold all_nonneg, nonneg_counts. compute_done.
  - exists out, sc1, sc2.
    split; [exact Hout |]. split; [exact Hin1 |]. split; [exact Hin2 | exact Hr].
Defined.

(** ** calculate_scores: the order of the participants *)

Lemma sum_totals_perm (ps ps' : pydict (gmap string Z)) :
  ps ≡ₚ ps' -> sum_totals ps = sum_totals ps'.
Proof.
  unfold sum_totals.
  induction 1 as [| x l l' _ IH | x y l | l l' l'' _ IH1 _ IH2]; cbn [fold_right]; lia.
Qed.

Lemma rated_perm (scores scores' out : pydict score) (total_score_sum : Z) :
  scores ≡ₚ scores' -> rated scores total_score_sum = Ok out ->
  exists out', rated scores' total_score_sum = Ok out' /\ out ≡ₚ out'.
Proof.
  intros Hp. revert out.
  induction Hp as [| [k sc] l l' _ IH | [k1 sc1] [k2 sc2] l | l l' l'' _ IH1 _ IH2];
    intros out Hout.
  - exists out. done.
  - cbn [rated] in *.
    destruct (rate_of (total sc) total_score_sum) as [r |]; [| discriminate].
    cbn [mbind result_bind] in *.
    destruct (rated l total_score_sum) as [rest |]; [| discriminate].
    destruct (IH rest eq_refl) as (rest' & -> & Hrest).
    injection Hout as <-. cbn [mbind result_bind].
    eexists. split; [reflexivity |]. by constructor.
  - cbn [rated] in *.
    destruct (rate_of (total sc2) total_score_sum) as [r2 |]; [| discriminate].
    destruct (rate_of (total sc1) total_score_sum) as [r1 |]; [| discriminate].
    cbn [mbind result_bind] in *.
    destruct (rated l total_score_sum) as [rest |]; [| discriminate].
    injection Hout as <-. cbn [mbind result_bind].
    eexists. split; [reflexivity |]. apply perm_swap.
  - destruct (IH1 out Hout) as (out1 & Hout1 & Hp1).
    destruct (IH2 out1 Hout1) as (out2 & Hout2 & Hp2).
    exists out2. split; [exact Hout2 |]. by etrans.
Qed.

Lemma dict_get_perm {V : Type} (d d' : pydict V) (k : string) :
  dict_wf d -> d ≡ₚ d' -> dict_get d k = dict_get d' k.
Proof.
  intros Hwf Hp.
  assert (Hwf' : dict_wf d').
  { unfold dict_wf, dict_keys in *. by rewrite <- Hp. }
  destruct (dict_get d k) as [v |] eqn:Hd.
  - apply dict_get_Some in Hd. rewrite Hp in Hd.
    symmetry. by apply dict_get_elem_of.
  - apply dict_get_None in Hd. symmetry. apply dict_get_None.
    unfold dict_keys in *. by rewrite <- Hp.
Qed.

(** X7: the scores do not depend on the order in which the participants
    were entered: on the same entries in another order calculate_scores
    returns as well, and every participant has the same components,
    total and rate; only the place among participants of equal total
    can differ. *)
Theorem calculate_scores_order_independent (self self' : RepoAnalyzer)
    (out : pydict score) :
  dict_wf (participants self) ->
  participants self ≡ₚ participants self' ->
  calculate_scores self = Ok out ->
  exists out', calculate_scores self' = Ok out' /\
    out ≡ₚ out' /\
    forall participant, dict_get out' participant = dict_get out participant.
Proof.
  intros Hwf Hp Hout.
  assert (Hwf' : dict_wf (participants self')).
  { unfold dict_wf, dict_keys in *. by rewrite <- Hp. }
  pose proof (calculate_scores_out_wf _ _ Hwf Hout) as Hwfo.
  rewrite calculate_scores_wf in Hout by done.
  rewrite calculate_scores_wf by done.
  destruct (rated (scored (participants self)) (sum_totals (participants self)))
    as [rd |] eqn:Hrd; [| discriminate].
  cbn [mbind result_bind] in Hout. injection Hout as <-.
  rewrite (sum_totals_perm _ _ Hp) in Hrd.
  destruct (rated_perm _ (scored (participants self')) _ _
              ltac:(unfold scored; by apply Permutation_map) Hrd)
    as (rd' & -> & Hperm).
  cbn [mbind result_bind]. eexists. split; [reflexivity |].
  assert (Hpo : sorted_reverse by_total rd ≡ₚ sorted_reverse by_total rd').
  { by rewrite !sorted_reverse_perm. }
  split; [exact Hpo |].
  intros participant. symmetry. by apply dict_get_perm.
Qed.

Lemma calculate_scores_order_independent_witness :
  exists out out',
    calculate_scores three_to_one = Ok out /\
    calculate_scores one_to_three = Ok out' /\
    dict_get out' "b" = dict_get out "b".
Proof.
  assert (H : exists out, calculate_scores three_to_one = Ok out).
  { eexists. vm_compute. reflexivity. }
  destruct H as [out Hout].
  destruct (calculate_scores_order_independent three_to_one one_to_three out)
    as (out' & Hout' & _ & Hget); [| | exact Hout |].
  - unfold dict_wf. compute_done.
  - apply perm_swap.
  - exists out, out'. split; [exact Hout |]. split; [exact Hout' |]. apply Hget.
Defined.

(** ** The collector over a whole run *)

Lemma count_key_present (activities : gmap string Z) (l : string) :
  dom activities = dom zero_counts -> l ∈ scoring_labels ->
  is_Some (activities !! ("p_" +:+ l)) /\ is_Some (activities !! ("i_" +:+ l)).
Proof.
  intros Hdom Hl. rewrite <- !elem_of_dom, Hdom, !elem_of_dom.
  unfold scoring_labels in Hl.
  repeat (apply elem_of_cons in Hl as [-> | Hl]; [split; by eexists |]).
  by apply elem_of_nil in Hl.
Qed.

Lemma process_item_credits (ps : pydict (gmap string Z)) (it : item) (a l : string) :
  collected ps -> l ∈ scoring_labels ->
  let before := default zero_counts (dict_get ps a) in
  let after := default zero_counts (dict_get (process_item ps it) a) in
  get after ("p_" +:+ l)
  = get before ("p_" +:+ l) + (if String.eqb (author_of it) a then p_credit it l else 0) /\
  get after ("i_" +:+ l)
  = get before ("i_" +:+ l) + (if String.eqb (author_of it) a then i_credit it l else 0).
Proof.
  intros Hc Hl before after. unfold after. rewrite process_item_get.
  destruct (String.eqb (author_of it) a); [| fold before; lia].
  cbn [default]. fold before.
  destruct (collected_entry ps a Hc) as [Hdom _]. fold before in Hdom.
  destruct (count_key_present before l Hdom Hl) as [[cp Hp] [ci Hi]].
  pose proof (scoring_label_nonempty l Hl) as Hne.
  unfold id, get. rewrite credited_p_credit, credited_i_credit, Hp, Hi by done. done.
Qed.

(** The counts after a list of items: what was there and the credits
    of the author's items. *)
Lemma fold_credits (items : list item) (ps : pydict (gmap string Z)) (a l : string) :
  collected ps -> l ∈ scoring_labels ->
  let before := default zero_counts (dict_get ps a) in
  let after := default zero_counts (dict_get (fold_left process_item items ps) a) in
  get after ("p_" +:+ l) = get before ("p_" +:+ l) + credits p_credit a l items /\
  get after ("i_" +:+ l) = get before ("i_" +:+ l) + credits i_credit a l items.
Proof.
  revert ps. induction items as [| it items IH]; intros ps Hc Hl; cbn zeta.
  - cbn [fold_left credits fold_right]. lia.
  - cbn [fold_left credits fold_right].
    destruct (IH (process_item ps it) (process_item_collected _ _ Hc) Hl) as [IHp IHi].
    destruct (process_item_credits ps it a l Hc Hl) as [Hp Hi].
    cbn zeta in IHp, IHi, Hp, Hi. unfold credits in IHp, IHi.
    rewrite IHp, IHi, Hp, Hi. lia.
Qed.

Lemma dict_mem_process_item (ps : pydict (gmap string Z)) (it : item) (k : string) :
  dict_mem (process_item ps it) k = String.eqb (author_of it) k || dict_mem ps k.
Proof.
  unfold dict_mem. rewrite process_item_get.
  by destruct (String.eqb (author_of it) k).
Qed.

Lemma filter_filter_and {A : Type} (p q : A -> bool) (l : list A) :
  List.filter p (List.filter q l) = List.filter (fun x => q x && p x) l.
Proof.
  induction l as [| x l IH]; [done |]. cbn [List.filter].
  destruct (q x); cbn [List.filter andb]; [destruct (p x) |]; by rewrite IH.
Qed.

Lemma filter_all {A : Type} (p : A -> bool) (l : list A) :
  (forall x, x ∈ l -> p x = true) -> List.filter p l = l.
Proof.
  induction l as [| x l IH]; intros Hall; [done |]. cbn [List.filter].
  rewrite (Hall x) by left. f_equal. apply IH. intros y Hy. apply Hall. by right.
Qed.

Lemma filter_none {A : Type} (p : A -> bool) (l : list A) :
  (forall x, x ∈ l -> p x = false) -> List.filter p l = [].
Proof.
  induction l as [| x l IH]; intros Hall; [done |]. cbn [List.filter].
  rewrite (Hall x) by left. apply IH. intros y Hy. apply Hall. by right.
Qed.

(** The keys after a list of items: the old keys, then the new authors
    in the order of their first items. *)
Lemma fold_keys (items : list item) (ps : pydict (gmap string Z)) :
  dict_keys (fold_left process_item items ps)
  = dict_keys ps
    ++ List.filter (fun y => negb (dict_mem ps y)) (first_seen (map author_of items)).
Proof.
  revert ps. induction items as [| it items IH]; intros ps.
  - cbn. by rewrite app_nil_r.
  - cbn [fold_left map first_seen]. rewrite IH, process_item_keys.
    rewrite (filter_ext _ (fun y => negb (String.eqb (author_of it) y)
                                     && negb (dict_mem ps y)))
      by (intros y; by rewrite dict_mem_process_item, negb_orb).
    rewrite <- filter_filter_and. cbn [List.filter].
    destruct (dict_mem ps (author_of it)); cbn [negb]; [done |].
    by rewrite <- app_assoc.
Qed.

Lemma elem_of_first_seen (l : list string) (x : string) : x ∈ first_seen l <-> x ∈ l.
Proof.
  induction l as [| y l IH]; [done |]. cbn [first_seen].
  rewrite !elem_of_cons, <- IH, list_elem_of_In, filter_In, <- list_elem_of_In.
  destruct (String.eqb_spec y x) as [-> | Hne]; cbn.
  - split; [intros [? | [_ [=]]] | intros [? | ?]]; auto.
  - split; [intros [? | [? _]] | intros [? | ?]]; auto.
Qed.

(** X8: a collection that returns, complete or cut short, leaves for
    every author of an item it went through an entry whose six counts
    are the sums of what the items of that author earn: [p_<l>] the
    merged pull requests' labels equal to [l] up to case, [i_<l>] those
    of the issues that are open, reopened or completed.  Who wrote none
    of the items has no entry. *)
Theorem collector_sums_credits (retry_request : Z -> response) (fuel : nat)
    (self' : RepoAnalyzer) (author : string) :
  collect_PRs_and_issues retry_request fuel init = Some self' ->
  let items := fetched retry_request fuel 1 in
  (author ∈ map author_of items ->
   exists activities,
     dict_get (participants self') author = Some activities /\
     dom activities = dom zero_counts /\
     forall l, l ∈ scoring_labels ->
       activities !! ("p_" +:+ l) = Some (credits p_credit author l items) /\
       activities !! ("i_" +:+ l) = Some (credits i_credit author l items)) /\
  (author ∉ map author_of items -> dict_get (participants self') author = None).
Proof.
  intros Hret items. unfold collect_PRs_and_issues in Hret.
  apply collect_loop_fetched in Hret. cbn [init participants] in Hret. fold items in Hret.
  pose proof (fold_keys items []) as Hkeys. rewrite <- Hret in Hkeys.
  cbn [dict_keys map app] in Hkeys.
  rewrite filter_all in Hkeys by done.
  split.
  - intros Hin.
    assert (Hk : author ∈ dict_keys (participants self')).
    { unfold dict_keys in *. rewrite Hkeys. by apply elem_of_first_seen. }
    destruct (dict_get (participants self') author) as [activities |] eqn:Hg;
      [| by apply dict_get_None in Hg].
    exists activities. split; [done |].
    assert (Hc : collected (participants self')).
    { rewrite Hret. apply fold_collected, collected_nil. }
    destruct (collected_entry _ author Hc) as [Hdom _]. rewrite Hg in Hdom.
    cbn [default] in Hdom. split; [done |].
    intros l Hl.
    destruct (fold_credits items [] author l collected_nil Hl) as [Hp Hi].
    cbn zeta in Hp, Hi. rewrite <- Hret, Hg in Hp, Hi. cbn [default dict_get] in Hp, Hi.
    destruct (count_key_present activities l Hdom Hl) as [[cp Hcp] [ci Hci]].
    unfold id, get in Hp, Hi. rewrite Hcp in Hp. rewrite Hci in Hi.
    assert (Hz : forall key, default 0 (zero_counts !! key) = 0).
    { intros key. unfold zero_counts.
      repeat (rewrite lookup_insert; case_decide; [done |]). by rewrite lookup_empty. }
    rewrite Hz in Hp, Hi. cbn [default] in Hp, Hi. rewrite Hcp, Hci.
    unfold id in Hp, Hi. split; f_equal; lia.
  - intros Hnin. apply dict_get_None. unfold dict_keys in *. rewrite Hkeys.
    by rewrite elem_of_first_seen.
Qed.

Lemma collector_sums_credits_witness :
  exists self' activities,
    collect_PRs_and_issues two_pages 2 init = Some self' /\
    dict_get (participants self') "alice" = Some activities /\
    activities !! "p_bug" = Some 2 /\ activities !! "i_bug" = Some 0.
Proof.
  assert (H : exists self', collect_PRs_and_issues two_pages 2 init = Some self').
  { eexists. vm_compute. reflexivity. }
  destruct H as [self' Hret].
  destruct (collector_sums_credits two_pages 2 self' "alice" Hret) as [Hin _].
  destruct Hin as (activities & Hg & _ & Hl); [vm_compute; by do 2 right; left |].
  exists self', activities. split; [exact Hret |]. split; [exact Hg |].
  destruct (Hl "bug") as [Hp Hi]; [unfold scoring_labels; by right; left |].
  split; [exact Hp | exact Hi].
Defined.

(** X9: the participants are entered in the order in which their first
    items come in the pages: after a collection on a fresh analyzer the
    keys of [self.participants] are the authors of the items gone
    through, each once, at the place of their first item. *)
Theorem participants_in_order_of_first_item (retry_request : Z -> response)
    (fuel : nat) (self' : RepoAnalyzer) :
  collect_PRs_and_issues retry_request fuel init = Some self' ->
  dict_keys (participants self')
  = first_seen (map author_of (fetched retry_request fuel 1)).
Proof.
  intros Hret. unfold collect_PRs_and_issues in Hret.
  apply collect_loop_fetched in Hret. cbn [init participants] in Hret.
  rewrite Hret, fold_keys. cbn [dict_keys map app].
  by rewrite filter_all.
Qed.

Lemma participants_in_order_of_first_item_witness :
  exists self',
    collect_PRs_and_issues two_pages 2 init = Some self' /\
    dict_keys (participants self') = ["bob"; "alice"].
Proof.
  assert (H : exists self', collect_PRs_and_issues two_pages 2 init = Some self').
  { eexists. vm_compute. reflexivity. }
  destruct H as [self' Hret]. exists self'. split; [exact Hret |].
  rewrite (participants_in_order_of_first_item two_pages 2 self' Hret).
  vm_compute. reflexivity.
Defined.

(** ** How a collection ends *)

Lemma collect_loop_ends (retry_request : Z -> response) (n fuel : nat) (page : Z)
    (self : RepoAnalyzer) :
  continues retry_request n page = true ->
  continues retry_request (S n) page = false ->
  (n < fuel)%nat ->
  let last := retry_request (page + Z.of_nat n) in
  let ok := status_code last =? 200 in
  collect_loop retry_request fuel page self
  = Some {| participants :=
              fold_left process_item
                (pages retry_request n page ++ (if ok then json last else []))
                (participants self);
            _data_collected := _data_collected self && ok |}.
Proof.
  revert fuel page self. induction n as [| n IH]; intros fuel page self Hc Hstop Hf;
    (destruct fuel as [| fuel]; [lia |]); cbn zeta.
  - rewrite Z.add_0_r. cbn in Hstop. cbn [collect_loop pages app].
    destruct self as [ps flag]. unfold set_data_collected, set_participants.
    cbn [participants _data_collected].
    destruct (Z.eqb_spec (status_code (retry_request page)) 403) as [H403 | H403].
    { rewrite H403. cbn. by rewrite andb_false_r. }
    destruct (Z.eqb_spec (status_code (retry_request page)) 200) as [H200 | H200];
      cbn [negb]; [| cbn; by rewrite andb_false_r].
    rewrite andb_true_r.
    destruct (json (retry_request page)) as [| it items]; [done |].
    cbn in Hstop. rewrite andb_true_r in Hstop. by rewrite Hstop.
  - cbn in Hc. apply andb_true_iff in Hc as [Hc Hrest].
    apply andb_true_iff in Hc as [Hc Hnext].
    apply andb_true_iff in Hc as [H200 Hitems].
    apply Z.eqb_eq in H200. cbn [collect_loop pages]. rewrite H200, Hnext. cbn [Z.eqb negb].
    change (200 =? 403) with false. cbn iota.
    destruct (json (retry_request page)) as [| it items] eqn:Hjson; [done |].
    rewrite (IH fuel (page + 1)); [| done | | lia].
    + cbn zeta. replace (page + 1 + Z.of_nat n) with (page + Z.of_nat (S n)) by lia.
      f_equal. unfold set_participants. cbn [participants _data_collected].
      f_equal. rewrite <- List.app_assoc. by rewrite (fold_left_app _ (it :: items)).
    + change (continues retry_request (S (S n)) page = false) in Hstop.
      cbn [continues] in Hstop. rewrite H200, Hjson, Hnext in Hstop.
      exact Hstop.
Qed.

(** X10: with [n] full pages and a page after them that ends the loop,
    the collector returns with the items of the [n] pages gone through
    and those of the last page if it was answered with status 200.  The
    flag is lowered when that last request failed and is left as it was
    otherwise: the collector never raises it, so a flag lowered by an
    earlier run stays down after a run in which every request
    succeeds. *)
Theorem collection_ends (retry_request : Z -> response) (n fuel : nat)
    (self : RepoAnalyzer) :
  continues retry_request n 1 = true ->
  continues retry_request (S n) 1 = false ->
  (n < fuel)%nat ->
  let last := retry_request (1 + Z.of_nat n) in
  let ok := status_code last =? 200 in
  exists self',
    collect_PRs_and_issues retry_request fuel self = Some self' /\
    participants self'
    = fold_left process_item
        (pages retry_request n 1 ++ (if ok then json last else []))
        (participants self) /\
    _data_collected self' = _data_collected self && ok /\
    (_data_collected self = false -> _data_collected self' = false).
Proof.
  intros Hc Hstop Hf last ok. unfold collect_PRs_and_issues.
  rewrite (collect_loop_ends retry_request n fuel 1 self Hc Hstop Hf).
  eexists. split; [reflexivity |]. cbn [participants _data_collected].
  split; [done |]. split; [done |]. by intros ->.
Qed.

Lemma collection_ends_witness :
  exists self',
    collect_PRs_and_issues two_pages 2 (set_data_collected init false) = Some self' /\
    dict_keys (participants self') = ["bob"; "alice"] /\
    _data_collected self' = false.
Proof.
  destruct (collection_ends two_pages 1 2 (set_data_collected init false))
    as (self' & Hret & Hps & _ & Hflag);
    [vm_compute; reflexivity | vm_compute; reflexivity | lia |].
  exists self'. split; [exact Hret |]. split; [| by apply Hflag].
  rewrite Hps. vm_compute. reflexivity.
Defined.

(** ** A second collection *)

(** Whether the loop returns does not depend on the analyzer. *)
Lemma collect_loop_any (retry_request : Z -> response) (fuel : nat) (page : Z)
    (self self' other : RepoAnalyzer) :
  collect_loop retry_request fuel page self = Some self' ->
  exists other', collect_loop retry_request fuel page other = Some other'.
Proof.
  revert page self self' other.
  induction fuel as [| fuel IH]; intros page self self' other; [discriminate |].
  cbn [collect_loop].
  destruct (status_code (retry_request page) =? 403); [by eexists |].
  destruct (negb (status_code (retry_request page) =? 200)); [by eexists |].
  destruct (json (retry_request page)) as [| it items]; [by eexists |].
  destruct (str_contains rel_next (link (retry_request page))); [| by eexists].
  apply IH.
Qed.

Lemma get_outside_counts (activities : gmap string Z) (key : string) :
  dom activities = dom zero_counts -> zero_counts !! key = None ->
  get activities key = 0.
Proof.
  intros Hdom Hz. unfold get.
  assert (Hn : activities !! key = None).
  { apply not_elem_of_dom. rewrite Hdom. by apply not_elem_of_dom. }
  by rewrite Hn.
Qed.

(** X11: the collector adds to what [self.participants] holds and does
    not start from zero: called a second time on the same analyzer with
    the same responses, it returns again, keeps the participants in
    their order and leaves every count twice what it was. *)
Theorem second_run_doubles (retry_request : Z -> response) (fuel : nat)
    (self1 : RepoAnalyzer) :
  collect_PRs_and_issues retry_request fuel init = Some self1 ->
  exists self2,
    collect_PRs_and_issues retry_request fuel self1 = Some self2 /\
    dict_keys (participants self2) = dict_keys (participants self1) /\
    forall author activities,
      dict_get (participants self1) author = Some activities ->
      exists activities2,
        dict_get (participants self2) author = Some activities2 /\
        forall key, get activities2 key = 2 * get activities key.
Proof.
  intros Hret1. unfold collect_PRs_and_issues in *.
  destruct (collect_loop_any _ _ _ _ _ self1 Hret1) as [self2 Hret2].
  exists self2. split; [exact Hret2 |].
  apply collect_loop_fetched in Hret1, Hret2. cbn [init participants] in Hret1.
  set (items := fetched retry_request fuel 1) in *.
  assert (Hc1 : collected (participants self1)).
  { rewrite Hret1. apply fold_collected, collected_nil. }
  assert (Hc2 : collected (participants self2)).
  { rewrite Hret2. by apply fold_collected. }
  assert (Hk1 : dict_keys (participants self1) = first_seen (map author_of items)).
  { rewrite Hret1, fold_keys. cbn [dict_keys map app]. by rewrite filter_all. }
  assert (Hk2 : dict_keys (participants self2) = dict_keys (participants self1)).
  { rewrite Hret2, fold_keys, <- Hk1, filter_none; [by rewrite app_nil_r |].
    intros y Hy. apply dict_mem_true in Hy. by rewrite Hy. }
  split; [exact Hk2 |].
  intros author activities Hg1.
  destruct (dict_get (participants self2) author) as [activities2 |] eqn:Hg2.
  2: { apply dict_get_None in Hg2. rewrite Hk2 in Hg2.
       destruct Hg2. eapply elem_of_dict_keys, dict_get_Some, Hg1. }
  exists activities2. split; [done |]. intros key.
  destruct (collected_entry _ author Hc1) as [Hdom1 _].
  destruct (collected_entry _ author Hc2) as [Hdom2 _].
  rewrite Hg1 in Hdom1. rewrite Hg2 in Hdom2. cbn in Hdom1, Hdom2.
  destruct (zero_counts !! key) as [z |] eqn:Hz.
  2: { rewrite !get_outside_counts by done. done. }
  destruct (zero_counts_key key ltac:(by eexists)) as (l & Hl & Hkey).
  destruct (fold_credits items [] author l collected_nil Hl) as [Hp1 Hi1].
  destruct (fold_credits items (participants self1) author l Hc1 Hl) as [Hp2 Hi2].
  cbn zeta in Hp1, Hi1, Hp2, Hi2.
  rewrite <- Hret1, Hg1 in Hp1, Hi1. rewrite <- Hret2, Hg1, Hg2 in Hp2, Hi2.
  cbn [dict_get] in Hp1, Hi1. cbn in Hp1, Hi1, Hp2, Hi2.
  assert (Hz0 : forall k, get zero_counts k = 0).
  { intros k. unfold get, zero_counts.
    repeat (rewrite lookup_insert; case_decide; [done |]). by rewrite lookup_empty. }
  rewrite Hz0 in Hp1, Hi1.
  destruct Hkey as [-> | ->]; lia.
Qed.

Lemma second_run_doubles_witness :
  exists self1 self2,
    collect_PRs_and_issues two_pages 2 init = Some self1 /\
    collect_PRs_and_issues two_pages 2 self1 = Some self2 /\
    dict_keys (participants self2) = dict_keys (participants self1) /\
    forall activities,
      dict_get (participants self1) "alice" = Some activities ->
      exists activities2,
        dict_get (participants self2) "alice" = Some activities2 /\
        get activities2 "p_bug" = 2 * get activities "p_bug".
Proof.
  assert (H : exists self1, collect_PRs_and_issues two_pages 2 init = Some self1).
  { eexists. vm_compute. reflexivity. }
  destruct H as (self1 & Hret1).
  destruct (second_run_doubles two_pages 2 self1 Hret1) as (self2 & Hret2 & Hkeys & Hall).
  exists self1, self2.
  split; [exact Hret1 |]. split; [exact Hret2 |]. split; [exact Hkeys |].
  intros activities Hg1.
  destruct (Hall "alice" activities Hg1) as (activities2 & Hg2 & Hdouble).
  exists activities2. split; [exact Hg2 | apply Hdouble].
Defined.

(** ** Scoring what was collected *)

Lemma collected_all_nonneg (ps : pydict (gmap string Z)) :
  collected ps -> dict_wf ps /\ all_nonneg ps.
Proof.
  intros [Hwf Hall]. split; [done |]. unfold all_nonneg.
  eapply Forall_impl; [exact Hall |]. by intros x [_ Hnn].
Qed.

Lemma calculate_scores_keys (self : RepoAnalyzer) (out : pydict score) :
  dict_wf (participants self) -> calculate_scores self = Ok out ->
  dict_keys out ≡ₚ dict_keys (participants self).
Proof.
  intros Hwf Hout. rewrite calculate_scores_wf in Hout by done.
  destruct (rated (scored (participants self)) (sum_totals (participants self)))
    as [rd |] eqn:Hrd; [| discriminate].
  cbn [mbind result_bind] in Hout. injection Hout as <-.
  unfold dict_keys at 1. rewrite sorted_reverse_perm.
  fold (dict_keys rd). by rewrite (rated_keys _ _ _ Hrd), scored_keys.
Qed.

(** X12: calculate_scores never raises on what a collection has left,
    whatever the responses were and whether the collection was complete
    or cut short: it returns one entry for each author, with the four
    components not negative, their sum as total, and a rate that is the
    integer 0 or a decimal between 0.0 and 100.0. *)
Theorem scores_of_a_collection (retry_request : Z -> response) (fuel : nat)
    (self' : RepoAnalyzer) :
  collect_PRs_and_issues retry_request fuel init = Some self' ->
  exists out,
    calculate_scores self' = Ok out /\
    dict_keys out ≡ₚ first_seen (map author_of (fetched retry_request fuel 1)) /\
    forall participant sc, (participant, sc) ∈ out ->
      0 <= feat_bug_PR sc /\ 0 <= document_PR sc /\
      0 <= feat_bug_issue sc /\ 0 <= document_issue sc /\
      total sc
      = feat_bug_PR sc + document_PR sc + feat_bug_issue sc + document_issue sc /\
      (rate sc = Some (PyInt 0) \/
       exists r, 0 <= r <= 1000 /\ rate sc = Some (PyFloat (Binary64.of_tenths r))).
Proof.
  intros Hret. unfold collect_PRs_and_issues in Hret.
  apply collect_loop_fetched in Hret. cbn [init participants] in Hret.
  assert (Hc : collected (participants self')).
  { rewrite Hret. apply fold_collected, collected_nil. }
  destruct (collected_all_nonneg _ Hc) as [Hwf Hnn].
  destruct (calculate_scores_Ok self' Hwf Hnn) as [out Hout].
  exists out. split; [exact Hout |]. split.
  { rewrite (calculate_scores_keys _ _ Hwf Hout), Hret, fold_keys.
    cbn [dict_keys map app]. by rewrite filter_all. }
  intros participant sc Hin.
  destruct (calculate_scores_entry_inv _ _ _ _ Hwf Hout Hin) as (a & r & Ha & Hr & ->).
  cbn [set_rate score_entry feat_bug_PR document_PR feat_bug_issue document_issue
       total rate].
  destruct (sum_totals_bounds _ Hnn) as [Hsum Hb]. rewrite Forall_forall in Hb.
  unfold all_nonneg in Hnn. rewrite Forall_forall in Hnn.
  pose proof (Hnn _ Ha) as Hnna. cbn [snd] in Hnna.
  pose proof (Hb _ Ha) as Hrange. cbn [snd] in Hrange.
  six_nonneg a Hnna.
  repeat split; try (unfold_formula; lia).
  destruct (Z.eq_dec (sum_totals (participants self')) 0) as [Hzero | Hpos].
  - left. rewrite rate_of_guard in Hr by lia. by injection Hr as <-.
  - right. destruct (rate_of_tenths _ _ Hrange ltac:(lia)) as (k & Hk & Hk01 & _).
    rewrite Hr in Hk. injection Hk as ->. by exists k.
Qed.

Lemma scores_of_a_collection_witness :
  exists self' out,
    collect_PRs_and_issues two_pages 2 init = Some self' /\
    calculate_scores self' = Ok out /\
    dict_keys out ≡ₚ ["bob"; "alice"].
Proof.
  assert (H : exists self', collect_PRs_and_issues two_pages 2 init = Some self').
  { eexists. vm_compute. reflexivity. }
  destruct H as (self' & Hret).
  destruct (scores_of_a_collection two_pages 2 self' Hret) as (out & Hout & Hkeys & _).
  exists self', out. split; [exact Hret |]. split; [exact Hout |]. exact Hkeys.
Defined.

(** ** Labels: [lower] and the case of the letters *)

(** [lower_ascii] sends a character to a character that is its own
    lower case exactly when the two are the same up to case. *)
Lemma lower_ascii_same_letter (c d : ascii) :
  lower_ascii d = d -> Ascii.eqb (lower_ascii c) d = same_letter c d.
Proof.
  assert (Hall : forallb (fun m => forallb (fun n =>
             implb (Ascii.eqb (lower_ascii (ascii_of_nat n)) (ascii_of_nat n))
                   (Bool.eqb (Ascii.eqb (lower_ascii (ascii_of_nat m)) (ascii_of_nat n))
                             (same_letter (ascii_of_nat m) (ascii_of_nat n))))
             (seq 0 256)) (seq 0 256) = true) by (vm_compute; reflexivity).
  intros Hd. rewrite forallb_forall in Hall.
  assert (Hc : In (nat_of_ascii c) (seq 0 256)).
  { apply in_seq. pose proof (nat_ascii_bounded c). lia. }
  assert (Hdin : In (nat_of_ascii d) (seq 0 256)).
  { apply in_seq. pose proof (nat_ascii_bounded d). lia. }
  specialize (Hall _ Hc). rewrite forallb_forall in Hall.
  specialize (Hall _ Hdin). rewrite !ascii_nat_embedding in Hall.
  rewrite Hd, Ascii.eqb_refl in Hall. cbn [implb] in Hall.
  by apply Bool.eqb_prop.
Qed.

Lemma lower_same_ignoring_case (s l : string) :
  lower l = l -> String.eqb (lower s) l = same_ignoring_case s l.
Proof.
  revert l. induction s as [| c s IH]; intros [| d l] Hl; try reflexivity.
  cbn [lower] in Hl. injection Hl as Hd Hl.
  cbn [lower String.eqb same_ignoring_case].
  rewrite (lower_ascii_same_letter c d Hd), (IH l Hl).
  by destruct (same_letter c d).
Qed.

Lemma matching_labelled (it : item) (l : string) :
  l ∈ scoring_labels -> matching it l = labelled it l.
Proof.
  intros Hl. unfold matching, labelled. do 2 f_equal.
  apply filter_ext. intros lb. destruct (name lb) as [s |]; [| done].
  apply lower_same_ignoring_case. unfold scoring_labels in Hl.
  repeat (apply elem_of_cons in Hl as [-> | Hl]; [reflexivity |]).
  by apply elem_of_nil in Hl.
Qed.

Lemma credits_ext (f g : item -> string -> Z) (author l : string) (items : list item) :
  (forall it, f it l = g it l) -> credits f author l items = credits g author l items.
Proof.
  intros Hfg. unfold credits.
  induction items as [| it items IH]; [done |]. cbn [fold_right]. by rewrite IH, Hfg.
Qed.

Lemma labelled_nonneg (it : item) (l : string) : 0 <= labelled it l.
Proof. unfold labelled. lia. Qed.

Lemma credits_earned_nonneg (author l : string) (items : list item) :
  0 <= credits p_earned author l items /\ 0 <= credits i_earned author l items.
Proof.
  unfold credits, p_earned, i_earned.
  induction items as [| it items [IHp IHi]]; cbn [fold_right]; [lia |].
  pose proof (labelled_nonneg it l).
  destruct (String.eqb (author_of it) author), (merged it), (live_issue it); lia.
Qed.

Lemma not_qualified_earns_nothing (it : item) (l : string) :
  qualifies it = false -> l ∈ scoring_labels -> p_earned it l = 0 /\ i_earned it l = 0.
Proof.
  unfold qualifies, p_earned, i_earned. intros Hq Hl.
  apply andb_false_iff in Hq as [Hq | Hq].
  - apply orb_false_iff in Hq as [-> ->]. done.
  - assert (Hz : labelled it l = 0).
    { pose proof (labelled_nonneg it l).
      assert (Hn : (0 <? labelled it l) = false); [| apply Z.ltb_ge in Hn; lia].
      destruct (0 <? labelled it l) eqn:Hpos; [| done].
      rewrite <- Hq. symmetry. apply existsb_exists. exists l.
      split; [by apply list_elem_of_In | done]. }
    rewrite Hz. by destruct (merged it), (live_issue it).
Qed.

Lemma credits_of_unqualified (author l : string) (items : list item) :
  (forall it, it ∈ items -> author_of it = author -> qualifies it = false) ->
  l ∈ scoring_labels ->
  credits p_earned author l items = 0 /\ credits i_earned author l items = 0.
Proof.
  intros Hall Hl. unfold credits.
  induction items as [| it items IH]; cbn [fold_right]; [done |].
  destruct IH as [IHp IHi]; [intros it' Hin; apply Hall; by right |].
  rewrite IHp, IHi.
  destruct (String.eqb_spec (author_of it) author) as [Ha | _]; [| done].
  destruct (not_qualified_earns_nothing it l (Hall it ltac:(left) Ha) Hl) as [-> ->].
  done.
Qed.

(** ** The six keys *)

Lemma zero_counts_lookup (key : string) :
  (key ∈ count_keys -> zero_counts !! key = Some 0) /\
  (key ∉ count_keys -> zero_counts !! key = None).
Proof.
  unfold count_keys, zero_counts. split.
  - intros Hk.
    repeat (apply elem_of_cons in Hk as [-> | Hk]; [reflexivity |]).
    by apply elem_of_nil in Hk.
  - intros Hk. rewrite !not_elem_of_cons in Hk.
    destruct Hk as (H1 & H2 & H3 & H4 & H5 & H6 & _).
    by rewrite !lookup_insert_ne, lookup_empty.
Qed.

Lemma six_keys (activities : gmap string Z) (key : string) :
  dom activities = dom zero_counts ->
  is_Some (activities !! key) <-> key ∈ count_keys.
Proof.
  intros Hdom. rewrite <- elem_of_dom, Hdom, elem_of_dom.
  destruct (zero_counts_lookup key) as [Hin Hout].
  destruct (decide (key ∈ count_keys)) as [Hk | Hk].
  - rewrite (Hin Hk). split; [done | by eexists].
  - rewrite (Hout Hk). split; [by intros [? [=]] | done].
Qed.

Lemma count_keys_labels (key : string) :
  key ∈ count_keys ->
  exists l, l ∈ scoring_labels /\ (key = "p_" +:+ l \/ key = "i_" +:+ l).
Proof.
  intros Hk. apply zero_counts_key.
  destruct (zero_counts_lookup key) as [Hin _]. rewrite (Hin Hk). by eexists.
Qed.

(** ** The counts after a list of items, from an empty mapping *)

Lemma fold_from_empty (items : list item) (author : string) :
  let ps := fold_left process_item items [] in
  (author ∈ map author_of items ->
   exists activities,
     dict_get ps author = Some activities /\
     (forall key, is_Some (activities !! key) <-> key ∈ count_keys) /\
     forall l, l ∈ scoring_labels ->
       activities !! ("p_" +:+ l) = Some (credits p_earned author l items) /\
       activities !! ("i_" +:+ l) = Some (credits i_earned author l items)) /\
  (author ∉ map author_of items -> dict_get ps author = None).
Proof.
  intros ps.
  pose proof (fold_keys items []) as Hkeys. fold ps in Hkeys.
  cbn [dict_keys map app] in Hkeys. rewrite filter_all in Hkeys by done.
  split.
  - intros Hin.
    assert (Hk : author ∈ dict_keys ps).
    { unfold dict_keys in *. rewrite Hkeys. by apply elem_of_first_seen. }
    destruct (dict_get ps author) as [activities |] eqn:Hg;
      [| by apply dict_get_None in Hg].
    exists activities. split; [done |].
    assert (Hc : collected ps) by apply fold_collected, collected_nil.
    destruct (collected_entry _ author Hc) as [Hdom _]. rewrite Hg in Hdom.
    cbn in Hdom. split; [intros key; by apply six_keys |].
    intros l Hl.
    destruct (fold_credits items [] author l collected_nil Hl) as [Hp Hi].
    cbn zeta in Hp, Hi. fold ps in Hp, Hi. rewrite Hg in Hp, Hi.
    cbn [dict_get] in Hp, Hi. cbn in Hp, Hi.
    destruct (count_key_present activities l Hdom Hl) as [[cp Hcp] [ci Hci]].
    unfold get in Hp, Hi. rewrite Hcp in Hp. rewrite Hci in Hi.
    assert (Hz : forall key, default 0 (zero_counts !! key) = 0).
    { intros key. destruct (zero_counts_lookup key) as [Hin' Hout'].
      destruct (decide (key ∈ count_keys)) as [Hk' | Hk'];
        [by rewrite (Hin' Hk') | by rewrite (Hout' Hk')]. }
    rewrite Hz in Hp, Hi. cbn in Hp, Hi.
    rewrite (credits_ext p_credit p_earned) in Hp
      by (intros it; unfold p_credit, p_earned; by rewrite matching_labelled).
    rewrite (credits_ext i_credit i_earned) in Hi
      by (intros it; unfold i_credit, i_earned; by rewrite matching_labelled).
    rewrite Hcp, Hci. split; f_equal; lia.
  - intros Hnin. apply dict_get_None. unfold dict_keys in *. rewrite Hkeys.
    by rewrite elem_of_first_seen.
Qed.

Lemma collect_gone_through (retry_request : Z -> response) (n fuel : nat) :
  continues retry_request n 1 = true ->
  continues retry_request (S n) 1 = false ->
  (n < fuel)%nat ->
  exists self',
    collect_PRs_and_issues retry_request fuel init = Some self' /\
    participants self' = fold_left process_item (gone_through retry_request n) [].
Proof.
  intros Hc Hstop Hf. unfold collect_PRs_and_issues.
  rewrite (collect_loop_ends retry_request n fuel 1 init Hc Hstop Hf).
  eexists. split; [reflexivity |]. reflexivity.
Qed.

Lemma credits_app (credit : item -> string -> Z) (author l : string)
    (earlier later : list item) :
  credits credit author l (earlier ++ later)
  = credits credit author l earlier + credits credit author l later.
Proof.
  unfold credits. induction earlier as [| it earlier IH]; cbn [app fold_right]; lia.
Qed.

Lemma credits_cons (credit : item -> string -> Z) (author l : string)
    (it : item) (later : list item) :
  credits credit author l (it :: later)
  = (if String.eqb (author_of it) author then credit it l else 0)
    + credits credit author l later.
Proof. reflexivity. Qed.

(** ** The classification of the items *)

(** C9: a collection on a fresh analyzer that goes through [n] full
    pages and a page that ends it returns, and what it leaves is the
    sum of what the items gone through earn, item by item: every author
    of an item has an entry with exactly the six keys, in which
    [p_<l>], for [l] one of enhancement, bug and documentation, counts
    one for every label named [l] up to the case of its letters on a
    pull request of that author that has been merged, and [i_<l>] one
    for every such label on an issue of that author whose state_reason
    is None, reopened or completed.  An item adds to the entry of its
    author what it earns, one bucket for each matching label and
    several buckets for several labels; a pull request that is not
    merged, an issue that is not planned and an item without a matching
    label add nothing; who wrote none of the items has no entry. *)
Theorem collector_counts_labels (retry_request : Z -> response) (n fuel : nat) :
  continues retry_request n 1 = true ->
  continues retry_request (S n) 1 = false ->
  (n < fuel)%nat ->
  let items := gone_through retry_request n in
  exists self',
    collect_PRs_and_issues retry_request fuel init = Some self' /\
    (forall author,
       (author ∈ map author_of items ->
        exists activities,
          dict_get (participants self') author = Some activities /\
          (forall key, is_Some (activities !! key) <-> key ∈ count_keys) /\
          forall l, l ∈ scoring_labels ->
            activities !! ("p_" +:+ l) = Some (credits p_earned author l items) /\
            activities !! ("i_" +:+ l) = Some (credits i_earned author l items)) /\
       (author ∉ map author_of items ->
        dict_get (participants self') author = None)) /\
    (forall earlier it later l,
       items = earlier ++ it :: later -> l ∈ scoring_labels ->
       exists activities,
         dict_get (participants self') (author_of it) = Some activities /\
         activities !! ("p_" +:+ l)
         = Some (credits p_earned (author_of it) l earlier
                 + (if merged it then labelled it l else 0)
                 + credits p_earned (author_of it) l later) /\
         activities !! ("i_" +:+ l)
         = Some (credits i_earned (author_of it) l earlier
                 + (if live_issue it then labelled it l else 0)
                 + credits i_earned (author_of it) l later)).
Proof.
  intros Hc Hstop Hf items.
  destruct (collect_gone_through retry_request n fuel Hc Hstop Hf) as (self' & Hret & Hps).
  exists self'. split; [exact Hret |]. fold items in Hps. rewrite Hps.
  split; [intros author; apply fold_from_empty |].
  intros earlier it later l Hitems Hl.
  destruct (fold_from_empty items (author_of it)) as [Hin _].
  destruct Hin as (activities & Hg & _ & Hcounts).
  { rewrite Hitems, map_app. apply elem_of_app. right. left. }
  exists activities. split; [exact Hg |].
  destruct (Hcounts l Hl) as [Hp Hi]. rewrite Hp, Hi, Hitems.
  rewrite !credits_app, !credits_cons, String.eqb_refl.
  unfold p_earned at 2, i_earned at 2. split; f_equal; lia.
Qed.

Lemma collector_counts_labels_witness :
  exists self' activities,
    collect_PRs_and_issues mixed_case 1 init = Some self' /\
    dict_get (participants self') "alice" = Some activities /\
    activities !! "p_enhancement" = Some 1 /\
    activities !! "p_bug" = Some 1 /\
    activities !! "p_documentation" = Some 0 /\
    activities !! "i_enhancement" = Some 0 /\
    activities !! "i_bug" = Some 0 /\
    activities !! "i_documentation" = Some 2.
Proof.
  destruct (collector_counts_labels mixed_case 0 1) as (self' & Hret & Hall & _);
    [reflexivity | vm_compute; reflexivity | lia |].
  destruct (Hall "alice") as [Hin _].
  destruct Hin as (activities & Hg & _ & Hcounts); [vm_compute; left |].
  exists self', activities. split; [exact Hret |]. split; [exact Hg |].
  destruct (Hcounts "enhancement") as [Hpe Hie]; [unfold scoring_labels; left |].
  destruct (Hcounts "bug") as [Hpb Hib]; [unfold scoring_labels; right; left |].
  destruct (Hcounts "documentation") as [Hpd Hid];
    [unfold scoring_labels; right; right; left |].
  split; [exact Hpe |]. split; [exact Hpb |]. split; [exact Hpd |].
  split; [exact Hie |]. split; [exact Hib | exact Hid].
Defined.

(** ** Authors without credit *)

(** C10: a collection on a fresh analyzer that goes through [n] full
    pages and a page that ends it returns, and the author of every item
    it went through is a participant then, with exactly the six keys
    p_enhancement, p_bug, p_documentation, i_enhancement, i_bug and
    i_documentation: every count starts at 0 and holds what the items
    of the author have earned.  An author none of whose items qualifies
    (pull requests that are not merged, issues that are not planned,
    items without a matching label) has the count 0 under each of the
    six keys, and calculate_scores returns an entry for that author
    with every component 0, total 0 and rate 0. *)
Theorem authors_are_registered (retry_request : Z -> response) (n fuel : nat)
    (it : item) :
  continues retry_request n 1 = true ->
  continues retry_request (S n) 1 = false ->
  (n < fuel)%nat ->
  it ∈ gone_through retry_request n ->
  exists self' activities,
    collect_PRs_and_issues retry_request fuel init = Some self' /\
    dict_get (participants self') (author_of it) = Some activities /\
    (forall key, is_Some (activities !! key) <-> key ∈ count_keys) /\
    (forall key, key ∈ count_keys -> exists c, activities !! key = Some c /\ 0 <= c) /\
    (forall l, l ∈ scoring_labels ->
       activities !! ("p_" +:+ l)
       = Some (credits p_earned (author_of it) l (gone_through retry_request n)) /\
       activities !! ("i_" +:+ l)
       = Some (credits i_earned (author_of it) l (gone_through retry_request n))) /\
    ((forall it', it' ∈ gone_through retry_request n ->
        author_of it' = author_of it -> qualifies it' = false) ->
     (forall key, key ∈ count_keys -> activities !! key = Some 0) /\
     exists out sc,
       calculate_scores self' = Ok out /\
       dict_get out (author_of it) = Some sc /\
       feat_bug_PR sc = 0 /\ document_PR sc = 0 /\
       feat_bug_issue sc = 0 /\ document_issue sc = 0 /\
       total sc = 0 /\ zero_rate (rate sc)).
Proof.
  intros Hcont Hstop Hfuel Hin.
  destruct (collect_gone_through retry_request n fuel Hcont Hstop Hfuel)
    as (self' & Hret & Hps).
  set (items := gone_through retry_request n) in *.
  destruct (fold_from_empty items (author_of it)) as [Hreg _].
  destruct Hreg as (activities & Hg & Hkeys & Hcounts).
  { apply list_elem_of_In, in_map, list_elem_of_In, Hin. }
  rewrite <- Hps in Hg.
  exists self', activities. split; [exact Hret |]. split; [exact Hg |].
  split; [exact Hkeys |].
  assert (Hkey : forall key, key ∈ count_keys ->
            exists l c, l ∈ scoring_labels /\ activities !! key = Some c /\
              (c = credits p_earned (author_of it) l items \/
               c = credits i_earned (author_of it) l items)).
  { intros key Hk. destruct (count_keys_labels key Hk) as (l & Hl & [-> | ->]);
      destruct (Hcounts l Hl) as [Hp Hi]; eexists l, _; eauto. }
  split.
  { intros key Hk. destruct (Hkey key Hk) as (l & c & Hl & Hc & Hsum).
    exists c. split; [exact Hc |].
    destruct (credits_earned_nonneg (author_of it) l items). lia. }
  split; [exact Hcounts |].
  intros Hno.
  assert (Hzero : forall key, key ∈ count_keys -> activities !! key = Some 0).
  { intros key Hk. destruct (Hkey key Hk) as (l & c & Hl & Hc & Hsum).
    destruct (credits_of_unqualified (author_of it) l items Hno Hl) as [Hp Hi].
    rewrite Hc. f_equal. lia. }
  split; [exact Hzero |].
  assert (Heq : activities = zero_counts).
  { apply map_eq. intros key. destruct (zero_counts_lookup key) as [Hzin Hzout].
    destruct (decide (key ∈ count_keys)) as [Hk | Hk].
    - by rewrite (Hzero key Hk), (Hzin Hk).
    - rewrite (Hzout Hk). apply eq_None_not_Some. by rewrite Hkeys. }
  subst activities.
  assert (Hc : collected (participants self')).
  { rewrite Hps. apply fold_collected, collected_nil. }
  destruct (collected_all_nonneg _ Hc) as [Hwf Hnn].
  destruct (calculate_scores_Ok self' Hwf Hnn) as [out Hout].
  destruct (calculate_scores_entry self' out (author_of it) zero_counts Hwf Hout)
    as (r & Hr & Hsc).
  { by apply dict_get_Some. }
  exists out, (set_rate (score_entry zero_counts) r).
  split; [exact Hout |]. split; [exact Hsc |].
  repeat (split; [reflexivity |]).
  change (S_total zero_counts) with 0 in Hr.
  destruct (rate_of_zero (sum_totals (participants self'))) as (r' & Hr' & Hz).
  rewrite Hr in Hr'. by injection Hr' as ->.
Qed.

Lemma authors_are_registered_witness :
  exists self' activities out sc,
    collect_PRs_and_issues mixed_case 1 init = Some self' /\
    dict_get (participants self') "bob" = Some activities /\
    activities !! "p_enhancement" = Some 0 /\
    activities !! "p_bug" = Some 0 /\
    activities !! "p_documentation" = Some 0 /\
    activities !! "i_enhancement" = Some 0 /\
    activities !! "i_bug" = Some 0 /\
    activities !! "i_documentation" = Some 0 /\
    calculate_scores self' = Ok out /\
    dict_get out "bob" = Some sc /\ total sc = 0 /\ zero_rate (rate sc).
Proof.
  destruct (authors_are_registered mixed_case 0 1 (pull "bob" None ["enhancement"]))
    as (self' & activities & Hret & Hg & _ & _ & _ & Hno);
    [reflexivity | vm_compute; reflexivity | lia | vm_compute; by do 5 right; left |].
  destruct Hno as (Hzero & out & sc & Hout & Hsc & _ & _ & _ & _ & Htot & Hrate).
  { intros it' Hin Hauthor.
    change (it' ∈ json (mixed_case 1)) in Hin. cbn [json mixed_case] in Hin.
    repeat (apply elem_of_cons in Hin as [-> | Hin];
            [first [discriminate Hauthor | vm_compute; reflexivity] |]).
    by apply elem_of_nil in Hin. }
  exists self', activities, out, sc.
  split; [exact Hret |]. split; [exact Hg |].
  repeat (split; [apply Hzero; unfold count_keys; set_solver |]).
  split; [exact Hout |]. split; [exact Hsc |]. split; [exact Htot | exact Hrate].
Defined.

(** ** generate_chart: the order of the bars *)

Lemma stable_sort_sorted_id {A : Type} (key : A -> Z) (l : list A) :
  StronglySorted (fun a b => key a <= key b) l -> stable_sort key l = l.
Proof.
  induction 1 as [| x l Hs IH Hall]; [done |].
  unfold stable_sort in *. cbn [fold_right]. rewrite IH.
  destruct l as [| y l']; [done |]. cbn [insert_asc].
  apply Forall_cons in Hall as [Hxy _].
  destruct (Z.ltb_spec (key y) (key x)); [lia | done].
Qed.

(** Sorting again what is in descending order changes nothing. *)
Lemma sorted_reverse_id {A : Type} (key : A -> Z) (l : list A) :
  StronglySorted (desc key) l -> sorted_reverse key l = l.
Proof.
  intros Hs. unfold sorted_reverse.
  rewrite stable_sort_sorted_id; [apply rev_involutive |].
  apply (StronglySorted_rev (desc key)), Hs.
Qed.

Lemma StronglySorted_map {A B : Type} (R : A -> A -> Prop) (Q : B -> B -> Prop)
    (f : A -> B) (l : list A) :
  (forall x y, R x y -> Q (f x) (f y)) ->
  StronglySorted R l -> StronglySorted Q (map f l).
Proof.
  intros HRQ. induction 1 as [| x l Hs IH Hall]; cbn [map]; constructor; [done |].
  apply Forall_forall. intros y Hy. apply list_elem_of_In, in_map_iff in Hy as (z & <- & Hz).
  apply HRQ. rewrite Forall_forall in Hall. apply Hall. by apply list_elem_of_In.
Qed.

Lemma bars_sorted_scores (scores : pydict score) :
  bars scores = (map fst (sorted_scores scores), map snd (sorted_scores scores)).
Proof. unfold bars. by destruct (sorted_scores scores). Qed.

(** X13: whatever mapping of scores is handed in, the chart has one
    bar for each entry, the bars are in descending order of the totals,
    and entries of equal total keep the order of the mapping. *)
Theorem bars_are_sorted (scores : pydict score) :
  let '(names, lengths) := bars scores in
  combine names lengths ≡ₚ map (fun x => (fst x, total (snd x))) scores /\
  length names = length scores /\ length lengths = length scores /\
  num_participants scores = Z.of_nat (length scores) /\
  StronglySorted (fun a b => b <= a) lengths /\
  forall v, map fst (with_key snd v (combine names lengths))
            = dict_keys (with_key by_total v scores).
Proof.
  unfold num_participants. rewrite bars_sorted_scores. cbn [fst].
  set (items := map (fun '(key, value) => (key, total value)) scores).
  assert (Hitems : items = map (fun x => (fst x, total (snd x))) scores).
  { unfold items. apply map_ext. by intros []. }
  assert (Hcomb : forall l : list (string * Z), combine (map fst l) (map snd l) = l).
  { induction l as [| [] l IH]; [done |]. cbn. by rewrite IH. }
  unfold sorted_scores. fold items. rewrite Hcomb.
  assert (Hlen : length (sorted_reverse (fun item => snd item) items) = length scores).
  { rewrite (Permutation_length (sorted_reverse_perm _ items)).
    unfold items. apply length_map. }
  rewrite !length_map, Hlen.
  split; [by rewrite sorted_reverse_perm, Hitems |].
  split; [done |]. split; [done |]. split; [done |]. split.
  - apply (StronglySorted_map (desc (fun item : string * Z => snd item))); [done |].
    apply sorted_reverse_sorted.
  - intros v. rewrite sorted_reverse_stable. rewrite Hitems.
    unfold with_key, dict_keys. clear.
    induction scores as [| [k sc] scores IH]; [done |].
    cbn [map List.filter fst snd by_total]. unfold by_total at 1. cbn [snd].
    destruct (total sc =? v); cbn [map fst]; by rewrite IH.
Qed.

(** X14: the chart follows the ranking: on a mapping returned by
    calculate_scores the second sort changes nothing, the bars are the
    participants in the order of the returned mapping, each with its
    total for length. *)
Theorem chart_follows_ranking (self : RepoAnalyzer) (out : pydict score) :
  dict_wf (participants self) ->
  calculate_scores self = Ok out ->
  bars out = (dict_keys out, map by_total out) /\
  num_participants out = Z.of_nat (length (participants self)).
Proof.
  intros Hwf Hout.
  assert (Hsorted : StronglySorted (desc by_total) out).
  { rewrite calculate_scores_wf in Hout by done.
    destruct (rated _ _) as [rd |]; [| discriminate].
    cbn [mbind result_bind] in Hout. injection Hout as <-.
    apply sorted_reverse_sorted. }
  assert (Hbars : bars out = (dict_keys out, map by_total out)).
  { rewrite bars_sorted_scores. unfold sorted_scores.
    rewrite sorted_reverse_id.
    - unfold dict_keys, by_total. rewrite !map_map. f_equal; apply map_ext; by intros [].
    - eapply StronglySorted_map; [| exact Hsorted]. by intros [] []. }
  split; [exact Hbars |].
  unfold num_participants. rewrite Hbars. cbn [fst].
  rewrite (Permutation_length (calculate_scores_keys _ _ Hwf Hout)).
  unfold dict_keys. by rewrite length_map.
Qed.

Lemma chart_follows_ranking_witness :
  exists out,
    calculate_scores two_ties = Ok out /\
    bars out = (["b"; "d"; "a"; "c"], [6; 6; 3; 3]).
Proof.
  assert (H : exists out, calculate_scores two_ties = Ok out /\
                dict_keys out = ["b"; "d"; "a"; "c"] /\
                map by_total out = [6; 6; 3; 3]).
  { eexists. split; [vm_compute; reflexivity |]. split; reflexivity. }
  destruct H as (out & Hout & Hkeys & Htotals).
  exists out. split; [exact Hout |].
  destruct (chart_follows_ranking two_ties out) as [Hbars _]; [| exact Hout |].
  - unfold dict_wf. compute_done.
  - rewrite Hbars, Hkeys, Htotals. reflexivity.
Defined.

(** ** generate_text: the rates as they are printed *)

Lemma tenths_are_printed (r : Z) : 0 <= r <= 1000 -> prints_tenths r = true.
Proof.
  intros Hr.
  assert (Hall : forallb prints_tenths (map Z.of_nat (seq 0 1001)) = true)
    by (vm_compute; reflexivity).
  rewrite forallb_forall in Hall. apply Hall.
  apply in_map_iff. exists (Z.to_nat r). split; [lia |].
  apply in_seq. lia.
Qed.

Lemma table_rows_acc (P : string * score -> list cell -> Prop)
    (scores : pydict score) (acc : list (list cell)) :
  (forall x, x ∈ scores -> exists row, table_row (fst x) (snd x) = Ok row /\ P x row) ->
  exists rows,
    for_each (fun rows '(name, sc) => row ← table_row name sc; Ok (rows ++ [row]))
      scores acc = Ok (acc ++ rows) /\
    Forall2 P scores rows.
Proof.
  revert acc. induction scores as [| [name sc] scores IH]; intros acc Hall.
  - exists []. cbn. by rewrite app_nil_r.
  - destruct (Hall (name, sc) ltac:(left)) as (row & Hrow & HP). cbn [fst snd] in Hrow.
    destruct (IH (acc ++ [row])) as (rows & Hrows & HF).
    { intros x Hx. apply Hall. by right. }
    exists (row :: rows). cbn [for_each]. rewrite Hrow. cbn [mbind result_bind].
    rewrite Hrows, <- List.app_assoc. split; [done |]. by constructor.
Qed.

(** X15: the table of generate_text shows the scores as calculate_scores
    returned them: on non-negative counts no row raises, there is one
    row for each participant in the order of the ranking with the four
    components and the total, and the rate is printed as the very
    decimal it is, one digit after the point, without a second
    rounding ([0.0%] for the integer 0). *)
Theorem table_shows_the_rates (self : RepoAnalyzer) (out : pydict score) :
  dict_wf (participants self) -> all_nonneg (participants self) ->
  calculate_scores self = Ok out ->
  exists rows,
    table_rows out = Ok rows /\
    Forall2
      (fun x row =>
         exists r, 0 <= r <= 1000 /\
           (rate (snd x) = Some (PyInt 0) /\ r = 0 \/
            rate (snd x) = Some (PyFloat (Binary64.of_tenths r))) /\
           row = [Str (fst x); Int (feat_bug_PR (snd x)); Int (document_PR (snd x));
                  Int (feat_bug_issue (snd x)); Int (document_issue (snd x));
                  Int (total (snd x)); rate_cell r])
      out rows.
Proof.
  intros Hwf Hnn Hout. unfold table_rows.
  match goal with |- exists rows, _ /\ Forall2 ?P _ _ =>
    destruct (table_rows_acc P out []) as (rows & Hrows & HF) end.
  2: { exists rows. split; [exact Hrows | exact HF]. }
  intros [name sc] Hin. cbn [fst snd]. unfold table_row.
  pose proof (calculate_scores_total_range _ _ _ _ Hwf Hnn Hout Hin) as Hrange.
  destruct (calculate_scores_rate _ _ _ _ Hwf Hout Hin) as (x & Hx & ->).
  cbn [mbind result_bind].
  destruct (Z.eq_dec (totals_sum out) 0) as [Hzero | Hpos].
  - rewrite rate_of_guard in Hx by lia. injection Hx as <-.
    eexists. split; [reflexivity |]. exists 0. split; [lia |]. split; [by left | done].
  - destruct (rate_of_tenths _ _ Hrange ltac:(lia)) as (r & Hr & Hr01 & _).
    rewrite Hx in Hr. injection Hr as ->.
    pose proof (tenths_are_printed r Hr01) as Hp. unfold prints_tenths in Hp.
    destruct (format_1f (PyFloat (Binary64.of_tenths r))) as [s |]; [| discriminate].
    apply String.eqb_eq in Hp. cbn [mbind result_bind].
    eexists. split; [reflexivity |]. exists r. split; [lia |]. split; [by right |].
    unfold rate_cell. by rewrite Hp.
Qed.

Lemma table_shows_the_rates_witness :
  exists rows,
    table_rows [("a", {| feat_bug_PR := 30; document_PR := 0; feat_bug_issue := 0;
                         document_issue := 0; total := 30;
                         rate := Some (PyFloat (Binary64.of_tenths 750)) |});
                ("b", {| feat_bug_PR := 6; document_PR := 4; feat_bug_issue := 0;
                         document_issue := 0; total := 10;
                         rate := Some (PyFloat (Binary64.of_tenths 250)) |})]
    = Ok rows /\
    length rows = 2%nat.
Proof.
  destruct (table_shows_the_rates three_to_one
              [("a", {| feat_bug_PR := 30; document_PR := 0; feat_bug_issue := 0;
                        document_issue := 0; total := 30;
                        rate := Some (PyFloat (Binary64.of_tenths 750)) |});
               ("b", {| feat_bug_PR := 6; document_PR := 4; feat_bug_issue := 0;
                        document_issue := 0; total := 10;
                        rate := Some (PyFloat (Binary64.of_tenths 250)) |})])
    as (rows & Hrows & HF).
  - unfold dict_wf. compute_done.
  - unfold all_nonneg, nonneg_counts. compute_done.
  - vm_compute. reflexivity.
  - exists rows. split; [exact Hrows |]. by rewrite <- (Forall2_length _ _ _ HF).
Defined.
